(** * Lead scoring backend: hybrid rule/AI scoring engine

    A shallow embedding of the scoring core of the lead scoring service:
    [app/core/constants.py], [app/models], [app/utils/rate_limiter.py],
    [app/services/ai_service.py] and [app/services/scoring_engine.py].

    Conventions of the embedding.
    - A Python [str] is a Rocq [string] read as a sequence of ASCII
      characters; [lower], [title] and [strip] are Python's on that
      alphabet, and characters above 127 are taken as caseless and
      non-blank.
    - An operation that may raise returns a [result].
    - Wall-clock instants ([datetime.now()]) are integers counting
      microseconds, the resolution of [datetime].
    - A Python [float] is an IEEE 754 binary64 number with the operations
      of the Standard Library's [SpecFloat], rounding to nearest even. *)

From Stdlib Require Import ZArith List Ascii String Lia Bool Permutation.
From Stdlib Require Import DecimalString.
From Stdlib Require SpecFloat.
From stdpp Require Import gmap strings list fin_maps.

Import ListNotations.
Set Warnings "-register-all".
#[local] Arguments String.append !s1 s2 : simpl nomatch.
Local Open Scope string_scope.
Local Open Scope Z_scope.

(** ** Results of fallible operations *)

Inductive result (A : Type) : Type :=
| Return (a : A)
| Raise (exn : string).
Arguments Return {A} a.
Arguments Raise {A} exn.

(** ** Python string operations *)

Module PyStr.

Definition code (c : ascii) : nat := nat_of_ascii c.

Definition is_upper (c : ascii) : bool :=
  (Nat.leb 65 (code c) && Nat.leb (code c) 90)%bool.

Definition is_lower (c : ascii) : bool :=
  (Nat.leb 97 (code c) && Nat.leb (code c) 122)%bool.

Definition is_cased (c : ascii) : bool := (is_upper c || is_lower c)%bool.

Definition lower_char (c : ascii) : ascii :=
  if is_upper c then ascii_of_nat (code c + 32) else c.

Definition upper_char (c : ascii) : ascii :=
  if is_lower c then ascii_of_nat (code c - 32) else c.

(** [s.lower()] *)
Fixpoint lower (s : string) : string :=
  match s with
  | EmptyString => EmptyString
  | String c rest => String (lower_char c) (lower rest)
  end.

(** [s.title()]: a cased character is upper-cased when the character
    before it is not cased, and lower-cased otherwise. *)
Fixpoint title_from (prev_cased : bool) (s : string) : string :=
  match s with
  | EmptyString => EmptyString
  | String c rest =>
      String (if prev_cased then lower_char c else upper_char c)
             (title_from (is_cased c) rest)
  end.

Definition title (s : string) : string := title_from false s.

(** [c.isspace()] on ASCII: tab to carriage return, the four
    separators 28 to 31, and the space. *)
Definition isspace (c : ascii) : bool :=
  ((Nat.leb 9 (code c) && Nat.leb (code c) 13)
   || (Nat.leb 28 (code c) && Nat.leb (code c) 32))%bool.

Fixpoint lstrip (s : string) : string :=
  match s with
  | EmptyString => EmptyString
  | String c rest => if isspace c then lstrip rest else s
  end.

Fixpoint rstrip (s : string) : string :=
  match s with
  | EmptyString => EmptyString
  | String c rest =>
      match rstrip rest with
      | EmptyString => if isspace c then EmptyString else String c EmptyString
      | r => String c r
      end
  end.

(** [s.strip()] *)
Definition strip (s : string) : string := rstrip (lstrip s).

(** [s.startswith(p)] *)
Fixpoint startswith (p s : string) : bool :=
  match p, s with
  | EmptyString, _ => true
  | String a p', String b s' => if Ascii.eqb a b then startswith p' s' else false
  | String _ _, EmptyString => false
  end.

(** [sub in s] *)
Fixpoint contains (sub s : string) : bool :=
  if startswith sub s then true
  else match s with
       | EmptyString => false
       | String _ rest => contains sub rest
       end.

Fixpoint last_char (s : string) : option ascii :=
  match s with
  | EmptyString => None
  | String c EmptyString => Some c
  | String _ rest => last_char rest
  end.

(** [s.endswith(c)] for a one-character suffix *)
Definition endswith_char (c : ascii) (s : string) : bool :=
  match last_char s with
  | Some d => Ascii.eqb c d
  | None => false
  end.

(** [s.split(sep)] for a one-character separator: never the empty list. *)
Fixpoint split_char (sep : ascii) (s : string) : list string :=
  match s with
  | EmptyString => [EmptyString]
  | String c rest =>
      if Ascii.eqb c sep then EmptyString :: split_char sep rest
      else match split_char sep rest with
           | [] => [String c EmptyString]
           | w :: ws => String c w :: ws
           end
  end.

(** [sep.join(parts)] *)
Fixpoint join (sep : string) (parts : list string) : string :=
  match parts with
  | [] => EmptyString
  | [p] => p
  | p :: ps => p +:+ sep +:+ join sep ps
  end.

(** [s[:n]] *)
Fixpoint take (n : nat) (s : string) : string :=
  match n, s with
  | O, _ => EmptyString
  | S n', String c rest => String c (take n' rest)
  | S _, EmptyString => EmptyString
  end.

(** [str(n)] for an integer *)
Definition of_Z (z : Z) : string := NilZero.string_of_int (Z.to_int z).

(** a string is truthy when it is not empty *)
Definition truthy (s : string) : bool :=
  match s with EmptyString => false | _ => true end.

End PyStr.

(** ** [app/core/constants.py] *)

Module ScoringConstants.
Definition MAX_RULE_SCORE : Z := 50.
Definition MAX_AI_SCORE : Z := 50.
Definition DECISION_MAKER_POINTS : Z := 20.
Definition INFLUENCER_POINTS : Z := 10.
Definition OTHER_ROLE_POINTS : Z := 0.
Definition EXACT_INDUSTRY_POINTS : Z := 20.
Definition ADJACENT_INDUSTRY_POINTS : Z := 10.
Definition OTHER_INDUSTRY_POINTS : Z := 0.
Definition COMPLETE_DATA_POINTS : Z := 10.

(** the dictionary [AI_INTENT_SCORES] *)
Definition AI_INTENT_SCORES : gmap string Z :=
  <["high" := 50]> (<["medium" := 30]> (<["low" := 10]> ∅)).
End ScoringConstants.

Module JobRoleCategories.
Definition DECISION_MAKERS : list string :=
  ["ceo"; "cto"; "cfo"; "coo"; "founder"; "co-founder";
   "president"; "vp"; "vice president"; "director";
   "head of"; "chief"; "owner"; "partner"].

Definition INFLUENCERS : list string :=
  ["manager"; "lead"; "senior"; "principal"; "supervisor";
   "coordinator"; "team lead"; "specialist"].
End JobRoleCategories.

Module IndustryMappings.
Definition SAAS_RELATED : list string :=
  ["software"; "saas"; "technology"; "tech"; "it";
   "information technology"; "software development"].

Definition FINTECH_RELATED : list string :=
  ["fintech"; "financial services"; "banking"; "finance";
   "payments"; "cryptocurrency"; "blockchain"].

Definition ECOMMERCE_RELATED : list string :=
  ["ecommerce"; "e-commerce"; "retail"; "marketplace";
   "online retail"; "shopping"].
End IndustryMappings.

(** ** [app/models] *)

Inductive IntentLevel : Type := HIGH | MEDIUM | LOW.

(** the value of an [IntentLevel] member *)
Definition IntentLevel_value (i : IntentLevel) : string :=
  match i with HIGH => "High" | MEDIUM => "Medium" | LOW => "Low" end.

(** [IntentLevel(v)]: lookup of a member by value, [ValueError] otherwise *)
Definition IntentLevel_of_value (v : string) : result IntentLevel :=
  if String.eqb v "High" then Return HIGH
  else if String.eqb v "Medium" then Return MEDIUM
  else if String.eqb v "Low" then Return LOW
  else Raise "ValueError".

Record LeadModel : Type := {
  lead_name : string;
  lead_role : string;
  lead_company : string;
  lead_industry : string;
  lead_location : string;
  lead_linkedin_bio : string
}.

Record OfferModel : Type := {
  offer_name : string;
  offer_value_props : list string;
  offer_ideal_use_cases : list string
}.

Record LeadScoringResult : Type := {
  res_name : string;
  res_role : string;
  res_company : string;
  res_intent : IntentLevel;
  res_score : Z;
  res_reasoning : string
}.

(** [LeadScoringResult(...)]: the [score] field is declared with
    [ge=0, le=100], so construction validates it. *)
Definition make_LeadScoringResult (name role company : string)
    (intent : IntentLevel) (score : Z) (reasoning : string)
  : result LeadScoringResult :=
  if (0 <=? score) && (score <=? 100)
  then Return {| res_name := name; res_role := role; res_company := company;
                 res_intent := intent; res_score := score;
                 res_reasoning := reasoning |}
  else Raise "ValidationError".

(** ** Python objects produced by [json.loads] *)

Inductive json : Type :=
| JNull
| JBool (b : bool)
| JNum (lexeme : string)
| JStr (s : string)
| JArr (items : list json)
| JObj (members : list (string * json)).

(** [data.get(key, default)] on the dictionary built from the members in
    source order: a later duplicate of a key replaces the earlier one. *)
Fixpoint dict_get (key : string) (members : list (string * json))
    (default : json) : json :=
  match members with
  | [] => default
  | (k, v) :: rest =>
      if String.eqb k key then dict_get key rest v else dict_get key rest default
  end.

(** A reference decoder for the standard library's [json.loads] on ASCII
    text, following its scanner: surrounding blanks, the literals, numbers
    by the scanner's pattern (kept as their lexeme), strings with their
    escapes in strict mode, arrays and objects without trailing commas.
    [None] stands for [JSONDecodeError]. *)
Module Json.

Definition is_ws (c : ascii) : bool :=
  match c with
  | " "%char | "009"%char | "010"%char | "013"%char => true
  | _ => false
  end.

Fixpoint skip_ws (s : string) : string :=
  match s with
  | String c rest => if is_ws c then skip_ws rest else s
  | EmptyString => EmptyString
  end.

Definition is_digit (c : ascii) : bool :=
  (Nat.leb 48 (nat_of_ascii c) && Nat.leb (nat_of_ascii c) 57)%bool.

(** the longest run of digits in front of [s], and what follows it *)
Fixpoint digits (s : string) : string * string :=
  match s with
  | String c rest =>
      if is_digit c then let (d, r) := digits rest in (String c d, r)
      else (EmptyString, s)
  | EmptyString => (EmptyString, EmptyString)
  end.

(** integer part: [0] or a run of digits that does not start with [0] *)
Definition int_part (s : string) : option (string * string) :=
  match s with
  | String "0" rest => Some ("0", rest)
  | String c rest =>
      if is_digit c then let (d, r) := digits rest in Some (String c d, r)
      else None
  | EmptyString => None
  end.

(** optional fraction: a dot followed by at least one digit *)
Definition frac_part (s : string) : string * string :=
  match s with
  | String "." rest =>
      match digits rest with
      | (EmptyString, _) => (EmptyString, s)
      | (d, r) => (String "." d, r)
      end
  | _ => (EmptyString, s)
  end.

(** optional exponent: [e] or [E], an optional sign, at least one digit *)
Definition exp_part (s : string) : string * string :=
  match s with
  | String e rest =>
      if (Ascii.eqb e "e" || Ascii.eqb e "E")%bool then
        match rest with
        | String sg rest' =>
            if (Ascii.eqb sg "+" || Ascii.eqb sg "-")%bool then
              match digits rest' with
              | (EmptyString, _) => (EmptyString, s)
              | (d, r) => (String e (String sg d), r)
              end
            else
              match digits rest with
              | (EmptyString, _) => (EmptyString, s)
              | (d, r) => (String e d, r)
              end
        | EmptyString => (EmptyString, s)
        end
      else (EmptyString, s)
  | EmptyString => (EmptyString, s)
  end.

Definition number (s : string) : option (json * string) :=
  let '(sign, s1) :=
    match s with
    | String "-" rest => ("-", rest)
    | _ => (EmptyString, s)
    end in
  match int_part s1 with
  | None => None
  | Some (i, s2) =>
      let (f, s3) := frac_part s2 in
      let (e, s4) := exp_part s3 in
      Some (JNum (sign +:+ i +:+ f +:+ e), s4)
  end.

Definition hex_digit (c : ascii) : option nat :=
  let n := nat_of_ascii c in
  if (Nat.leb 48 n && Nat.leb n 57)%bool then Some (n - 48)%nat
  else if (Nat.leb 65 n && Nat.leb n 70)%bool then Some (n - 55)%nat
  else if (Nat.leb 97 n && Nat.leb n 102)%bool then Some (n - 87)%nat
  else None.

(** the text of a code point: itself below 128, its UTF-8 bytes above *)
Definition of_code_point (n : nat) : string :=
  if Nat.ltb n 128 then String (ascii_of_nat n) EmptyString
  else if Nat.ltb n 2048 then
    String (ascii_of_nat (192 + n / 64))
      (String (ascii_of_nat (128 + n mod 64)) EmptyString)
  else
    String (ascii_of_nat (224 + n / 4096))
      (String (ascii_of_nat (128 + (n / 64) mod 64))
         (String (ascii_of_nat (128 + n mod 64)) EmptyString)).

(** the characters of a string literal after its opening quote *)
Fixpoint string_body (s : string) : option (string * string) :=
  match s with
  | EmptyString => None
  | String "034" rest => Some (EmptyString, rest)
  | String "\" (String e rest) =>
      let simple (c : ascii) :=
        match string_body rest with
        | Some (t, r) => Some (String c t, r)
        | None => None
        end in
      match e with
      | "034"%char => simple "034"%char
      | "\"%char => simple "\"%char
      | "/"%char => simple "/"%char
      | "b"%char => simple "008"%char
      | "f"%char => simple "012"%char
      | "n"%char => simple "010"%char
      | "r"%char => simple "013"%char
      | "t"%char => simple "009"%char
      | "u"%char =>
          match rest with
          | String a (String b (String c (String d rest'))) =>
              match hex_digit a, hex_digit b, hex_digit c, hex_digit d with
              | Some x3, Some x2, Some x1, Some x0 =>
                  match string_body rest' with
                  | Some (t, r) =>
                      Some (of_code_point (x3 * 4096 + x2 * 256 + x1 * 16 + x0)
                            +:+ t, r)
                  | None => None
                  end
              | _, _, _, _ => None
              end
          | _ => None
          end
      | _ => None
      end
  | String "\" EmptyString => None
  | String c rest =>
      if Nat.ltb (nat_of_ascii c) 32 then None
      else match string_body rest with
           | Some (t, r) => Some (String c t, r)
           | None => None
           end
  end.

Definition literal (word : string) (v : json) (s : string)
  : option (json * string) :=
  if PyStr.startswith word s
  then Some (v, String.substring (String.length word)
                  (String.length s - String.length word) s)
  else None.

(** One value in front of [s]; [value], [elements] (after an opening
    bracket and a first non-closing character) and [members] (the same
    for a brace) call each other on what is left of the text. *)
Fixpoint value (fuel : nat) (s : string) : option (json * string) :=
  match fuel with
  | O => None
  | S fuel' =>
      match s with
      | EmptyString => None
      | String "034" rest =>
          match string_body rest with
          | Some (t, r) => Some (JStr t, r)
          | None => None
          end
      | String "{" rest =>
          match skip_ws rest with
          | String "}" r => Some (JObj [], r)
          | r =>
              match members fuel' r with
              | Some (ms, r') => Some (JObj ms, r')
              | None => None
              end
          end
      | String "[" rest =>
          match skip_ws rest with
          | String "]" r => Some (JArr [], r)
          | r =>
              match elements fuel' r with
              | Some (vs, r') => Some (JArr vs, r')
              | None => None
              end
          end
      | String "n" _ => literal "null" JNull s
      | String "t" _ => literal "true" (JBool true) s
      | String "f" _ => literal "false" (JBool false) s
      | String "N" _ => literal "NaN" (JNum "NaN") s
      | String "I" _ => literal "Infinity" (JNum "Infinity") s
      | String "-" (String "I" _) => literal "-Infinity" (JNum "-Infinity") s
      | _ => number s
      end
  end
with elements (fuel : nat) (s : string) : option (list json * string) :=
  match fuel with
  | O => None
  | S fuel' =>
      match value fuel' s with
      | None => None
      | Some (v, r) =>
          match skip_ws r with
          | String "]" r' => Some ([v], r')
          | String "," r' =>
              match elements fuel' (skip_ws r') with
              | Some (vs, r'') => Some (v :: vs, r'')
              | None => None
              end
          | _ => None
          end
      end
  end
with members (fuel : nat) (s : string)
  : option (list (string * json) * string) :=
  match fuel with
  | O => None
  | S fuel' =>
      match s with
      | String "034" rest =>
          match string_body rest with
          | None => None
          | Some (k, r) =>
              match skip_ws r with
              | String ":" r1 =>
                  match value fuel' (skip_ws r1) with
                  | None => None
                  | Some (v, r2) =>
                      match skip_ws r2 with
                      | String "}" r3 => Some ([(k, v)], r3)
                      | String "," r3 =>
                          match members fuel' (skip_ws r3) with
                          | Some (ms, r4) => Some ((k, v) :: ms, r4)
                          | None => None
                          end
                      | _ => None
                      end
                  end
              | _ => None
              end
          end
      | _ => None
      end
  end.

(** [json.loads(s)]: one value between blanks and nothing else. Every
    nested call consumes a character, so the length of the text bounds
    the nesting. *)
Definition loads (s : string) : option json :=
  match value (S (String.length s)) (skip_ws s) with
  | Some (v, r) =>
      match skip_ws r with
      | EmptyString => Some v
      | _ => None
      end
  | None => None
  end.

End Json.

(** ** Mutable state with exceptions

    A computation over a state [S] returns a value or raises, and leaves
    the state as it was at that point in both cases. *)

Definition ST (S A : Type) : Type := S -> result A * S.

#[global] Instance ST_ret {S} : MRet (ST S) :=
  fun A (a : A) s => (Return a, s).

#[global] Instance ST_bind {S} : MBind (ST S) :=
  fun A B (k : A -> ST S B) (m : ST S A) s =>
    match m s with
    | (Return a, s') => k a s'
    | (Raise e, s') => (Raise e, s')
    end.

Definition raise {S A} (exn : string) : ST S A := fun s => (Raise exn, s).
Definition gets {S A} (f : S -> A) : ST S A := fun s => (Return (f s), s).
Definition modify {S} (f : S -> S) : ST S unit := fun s => (Return tt, f s).

(** ** Python's [float] *)

Module PyFloat.

(** the precision and the exponent range of binary64 *)
Definition prec : Z := 53.
Definition emax : Z := 1024.

Definition zero : SpecFloat.spec_float := SpecFloat.S754_zero false.

(** the float nearest to the integer [n] (ties to even), infinite when
    [n] is out of range *)
Definition nearest (n : Z) : SpecFloat.spec_float :=
  SpecFloat.binary_normalize prec emax n 0 false.

(** the conversion of an [int] operand in mixed arithmetic: an [int] too
    large for a float raises *)
Definition of_int (n : Z) : result SpecFloat.spec_float :=
  match nearest n with
  | SpecFloat.S754_infinity _ => Raise "OverflowError"
  | x => Return x
  end.

(** [x + y] and [x * y] on floats: they round and never raise *)
Definition add (x y : SpecFloat.spec_float) : SpecFloat.spec_float :=
  SpecFloat.SFadd prec emax x y.

Definition mul (x y : SpecFloat.spec_float) : SpecFloat.spec_float :=
  SpecFloat.SFmul prec emax x y.

(** the decimal literal [digits * 10^-places]: the float nearest to that
    number, which is the correctly rounded quotient of the two integers
    when both are floats themselves *)
Definition literal (digits : Z) (places : Z) : SpecFloat.spec_float :=
  SpecFloat.SFdiv prec emax (nearest digits) (nearest (10 ^ places)).

(** [n * x] for an [int] n and a float x *)
Definition int_mul (n : Z) (x : SpecFloat.spec_float)
  : result SpecFloat.spec_float :=
  match of_int n with
  | Return f => Return (mul f x)
  | Raise e => Raise e
  end.

End PyFloat.

(** ** [AIUsageTracker]: the class attribute [_usage] and its nested
    dictionaries, as objects on a heap *)

Inductive pyval : Type :=
| VInt (n : Z)
| VFloat (x : SpecFloat.spec_float)
| VDict (l : nat).       (* a reference to a dictionary object *)

Record Tracker : Type := {
  heap : gmap nat (gmap string pyval);
  fresh : nat;             (* the next unused address *)
  usage : nat              (* [cls._usage] *)
}.

Module AIUsageTracker.

Definition gemini_zero : gmap string pyval :=
  <["calls" := VInt 0]> (<["tokens" := VInt 0]> ∅).

Definition openai_zero : gmap string pyval :=
  <["calls" := VInt 0]> (<["tokens" := VInt 0]>
    (<["estimated_cost" := VFloat PyFloat.zero]> ∅)).

Definition top_zero (g o : nat) : gmap string pyval :=
  <["gemini" := VDict g]> (<["openai" := VDict o]>
    (<["failures" := VInt 0]> ∅)).

(** a new dictionary object *)
Definition alloc (d : gmap string pyval) : ST Tracker nat :=
  fun t => (Return (fresh t),
            {| heap := <[fresh t := d]> (heap t);
               fresh := S (fresh t);
               usage := usage t |}).

(** [d[k]] *)
Definition getitem (l : nat) (k : string) : ST Tracker pyval :=
  fun t =>
    match heap t !! l with
    | None => (Raise "ReferenceError", t)
    | Some d =>
        match d !! k with
        | Some v => (Return v, t)
        | None => (Raise "KeyError", t)
        end
    end.

(** [d[k] = v] *)
Definition setitem (l : nat) (k : string) (v : pyval) : ST Tracker unit :=
  fun t =>
    match heap t !! l with
    | None => (Raise "ReferenceError", t)
    | Some d =>
        (Return tt, {| heap := <[l := <[k := v]> d]> (heap t);
                       fresh := fresh t;
                       usage := usage t |})
    end.

(** the object a subscripted value must be: [v[...]] on a number raises *)
Definition as_dict (v : pyval) : ST Tracker nat :=
  match v with
  | VDict l => mret l
  | _ => raise "TypeError"
  end.

(** the outcome of a computation that does not touch the tracker *)
Definition lift {A} (r : result A) : ST Tracker A := fun t => (r, t).

(** [a + b] on numbers: an [int] met by a float is converted first *)
Definition py_add (a b : pyval) : ST Tracker pyval :=
  match a, b with
  | VInt x, VInt y => mret (VInt (x + y))
  | VInt x, VFloat y =>
      x' ← lift (PyFloat.of_int x); mret (VFloat (PyFloat.add x' y))
  | VFloat x, VInt y =>
      y' ← lift (PyFloat.of_int y); mret (VFloat (PyFloat.add x y'))
  | VFloat x, VFloat y => mret (VFloat (PyFloat.add x y))
  | _, _ => raise "TypeError"
  end.

(** [cls._usage[k1][k2] += v] *)
Definition add_nested (k1 k2 : string) (v : pyval) : ST Tracker unit :=
  top ← gets usage;
  r ← getitem top k1;
  d ← as_dict r;
  old ← getitem d k2;
  new ← py_add old v;
  setitem d k2 new.

(** the state after the class body has run *)
Definition initial : Tracker :=
  {| heap := <[2%nat := top_zero 0 1]>
               (<[1%nat := openai_zero]> (<[0%nat := gemini_zero]> ∅));
     fresh := 3;
     usage := 2 |}.

(** the float literals [0.00000015] and [0.0000006] *)
Definition input_rate : SpecFloat.spec_float := PyFloat.literal 15 8.
Definition output_rate : SpecFloat.spec_float := PyFloat.literal 6 7.

(** [(input_tokens * 0.00000015) + (output_tokens * 0.0000006)] *)
Definition cost (input_tokens output_tokens : Z)
  : result SpecFloat.spec_float :=
  match PyFloat.int_mul input_tokens input_rate with
  | Return a =>
      match PyFloat.int_mul output_tokens output_rate with
      | Return b => Return (PyFloat.add a b)
      | Raise e => Raise e
      end
  | Raise e => Raise e
  end.

Definition log_usage (provider : string) (input_tokens output_tokens : Z)
  : ST Tracker unit :=
  add_nested provider "calls" (VInt 1);;
  add_nested provider "tokens" (VInt (input_tokens + output_tokens));;
  if String.eqb provider "openai"
  then
    cost ← lift (cost input_tokens output_tokens);
    add_nested "openai" "estimated_cost" (VFloat cost)
  else mret tt.

Definition log_failure : ST Tracker unit :=
  top ← gets usage;
  old ← getitem top "failures";
  new ← py_add old (VInt 1);
  setitem top "failures" new.

(** [cls._usage.copy()]: a new dictionary with the same values under the
    same keys; a value that is a reference is copied as a reference. *)
Definition get_stats : ST Tracker nat :=
  fun t =>
    match heap t !! usage t with
    | None => (Raise "ReferenceError", t)
    | Some d => alloc d t
    end.

Definition reset_stats : ST Tracker unit :=
  g ← alloc gemini_zero;
  o ← alloc openai_zero;
  top ← alloc (top_zero g o);
  modify (fun t => {| heap := heap t; fresh := fresh t; usage := top |}).

(** reading [obj[k]] and [obj[k1][k2]] without changing anything *)
Definition read (t : Tracker) (l : nat) (k : string) : option pyval :=
  d ← heap t !! l; d !! k.

Definition read2 (t : Tracker) (l : nat) (k1 k2 : string) : option pyval :=
  match read t l k1 with
  | Some (VDict l') => read t l' k2
  | _ => None
  end.

(** the failure counter as the tracker holds it *)
Definition failures (t : Tracker) : option pyval := read t (usage t) "failures".

End AIUsageTracker.

(** ** [app/utils/rate_limiter.py] *)

Module SmartRateLimiter.

Definition second : Z := 1000000.

(** [timedelta(minutes=1)] *)
Definition window : Z := 60 * second.

(** [delta.seconds]: the seconds field of a normalised [timedelta] *)
Definition timedelta_seconds (delta : Z) : Z := (delta `div` second) `mod` 86400.

(** [self.calls] after [__init__] *)
Definition init : gmap string (list Z) :=
  <["gemini" := []]> (<["openai" := []]> ∅).

Definition max_calls (provider : string) : Z :=
  if String.eqb provider "gemini" then 10 else 100.

(** the entries still inside the window at [now] *)
Definition recent (now : Z) (calls : list Z) : list Z :=
  filter (fun call_time => now - call_time < window) calls.

(** [check_rate_limit] entered at [now]: the seconds slept (none when
    the window has room) and the table after the call. *)
Definition check_rate_limit (provider : string) (now : Z)
    (table : gmap string (list Z))
  : result (option Z) * gmap string (list Z) :=
  match table !! provider with
  | None => (Raise "KeyError", table)
  | Some calls =>
      let kept := recent now calls in
      let table := <[provider := kept]> table in
      if Z.of_nat (length kept) >=? max_calls provider then
        match kept with
        | [] => (Raise "IndexError", table)
        | oldest :: _ =>
            let sleep_time := 60 - timedelta_seconds (now - oldest) in
            (Return (Some sleep_time), <[provider := (kept ++ [now])%list]> table)
        end
      else (Return None, <[provider := (kept ++ [now])%list]> table)
  end.

(** [asyncio.sleep(d)] takes no time for [d <= 0] *)
Definition slept (sleep_time : option Z) : Z :=
  match sleep_time with
  | Some d => Z.max 0 d * second
  | None => 0
  end.

Definition get_remaining_calls (provider : string) (now : Z)
    (table : gmap string (list Z)) : result Z :=
  match table !! provider with
  | None => Raise "KeyError"
  | Some calls =>
      Return (Z.max 0 (max_calls provider - Z.of_nat (length (recent now calls))))
  end.

Definition reset_provider (provider : string) (table : gmap string (list Z))
  : gmap string (list Z) := <[provider := []]> table.

(** One task calling [check_rate_limit] again and again: each call is
    entered [gap] microseconds after the one before it has returned.
    The result lists, per call, the instant at which the call returned,
    that is, at which the caller was let through. *)
Fixpoint admissions (provider : string) (gaps : list Z) (now : Z)
    (table : gmap string (list Z)) : list Z :=
  match gaps with
  | [] => []
  | gap :: rest =>
      let entered := now + Z.max 0 gap in
      match check_rate_limit provider entered table with
      | (Return sleep_time, table') =>
          let returned := entered + slept sleep_time in
          returned :: admissions provider rest returned table'
      | (Raise _, table') => admissions provider rest entered table'
      end
  end.

(** how many of the admissions fall in the window that ends at [t] *)
Definition admitted_in_window (t : Z) (admitted : list Z) : nat :=
  length (filter (fun a => a <= t /\ t - a < window) admitted).

End SmartRateLimiter.

(** ** [app/services/ai_service.py] *)

(** What an analysis call can see and change: the clock, the rate
    limiter's table of the service and the process-wide usage tracker. *)
Record World : Type := {
  clock : Z;
  limiter : gmap string (list Z);
  tracker : Tracker
}.

(** What a provider's client does with a prompt: it answers after
    [latency] microseconds with a text, or fails (transport, quota,
    authentication, an answer without text) when [text] is [None]. *)
Record Response : Type := {
  latency : Z;
  text : option string
}.

Definition Client : Type := string -> Response.

Definition with_tracker {A} (m : ST Tracker A) : ST World A :=
  fun w =>
    let (r, t) := m (tracker w) in
    (r, {| clock := clock w; limiter := limiter w; tracker := t |}).

Definition elapse (d : Z) : ST World unit :=
  modify (fun w => {| clock := clock w + Z.max 0 d;
                      limiter := limiter w; tracker := tracker w |}).

(** [try: body except Exception as e: handler(e)] *)
Definition try_except {S A} (body : ST S A) (handler : string -> ST S A)
  : ST S A :=
  fun s =>
    match body s with
    | (Return a, s') => (Return a, s')
    | (Raise e, s') => handler e s'
    end.

Definition newline : string := String "010" EmptyString.
Definition quote : string := String "034" EmptyString.

Module AIService.
Section Service.

(** [json.loads], [None] when it raises *)
Variable json_loads : string -> option json.

(** [settings.ai_timeout], in seconds *)
Variable ai_timeout : Z.

Definition fallback : string * json :=
  ("low", JStr "AI services unavailable - conservative scoring applied").

(** [await self.rate_limiter.check_rate_limit(provider)] *)
Definition check_rate_limit (provider : string) : ST World unit :=
  fun w =>
    match SmartRateLimiter.check_rate_limit provider (clock w) (limiter w) with
    | (Return sleep_time, table) =>
        (Return tt, {| clock := clock w + SmartRateLimiter.slept sleep_time;
                       limiter := table; tracker := tracker w |})
    | (Raise e, table) =>
        (Raise e, {| clock := clock w; limiter := table; tracker := tracker w |})
    end.

(** [await asyncio.wait_for(call, timeout=settings.ai_timeout)] followed
    by reading the text of the response *)
Definition wait_for (client : Client) (prompt : string) : ST World string :=
  let r := client prompt in
  if latency r <? ai_timeout * SmartRateLimiter.second then
    elapse (latency r);;
    match text r with
    | Some t => mret t
    | None => raise "Exception"
    end
  else
    elapse (ai_timeout * SmartRateLimiter.second);;
    raise "TimeoutError".

Definition _build_analysis_prompt (lead : LeadModel) (offer : OfferModel)
  : string :=
  let bio := lead_linkedin_bio lead in
  let bio_truncated :=
    if Nat.ltb 200 (String.length bio) then PyStr.take 200 bio else bio in
  let use_cases_limited := firstn 2 (offer_ideal_use_cases offer) in
  "Analyze buying intent: High/Medium/Low" +:+ newline +:+ newline
  +:+ "Product: " +:+ offer_name offer +:+ newline
  +:+ "Use cases: " +:+ PyStr.join ", " use_cases_limited +:+ newline +:+ newline
  +:+ "Prospect: " +:+ lead_name lead +:+ ", " +:+ lead_role lead
  +:+ " at " +:+ lead_company lead +:+ newline
  +:+ "Industry: " +:+ lead_industry lead +:+ newline
  +:+ "Bio: " +:+ bio_truncated +:+ newline +:+ newline
  +:+ "JSON only: {" +:+ quote +:+ "intent" +:+ quote +:+ ": "
  +:+ quote +:+ "High|Medium|Low" +:+ quote +:+ ", "
  +:+ quote +:+ "reasoning" +:+ quote +:+ ": "
  +:+ quote +:+ "Brief explanation" +:+ quote +:+ "}".

Definition _parse_text_response (content : string) : string * json :=
  let content_lower := PyStr.lower content in
  let intent :=
    if PyStr.contains "high" content_lower then "high"
    else if PyStr.contains "medium" content_lower then "medium"
    else "low" in
  let sentences := PyStr.split_char "." content in
  let reasoning :=
    match sentences with
    | first :: _ => PyStr.strip first
    | [] => "AI analysis completed"
    end in
  (intent, JStr reasoning).

(** the [try] block of [_parse_ai_response] up to the validation of the
    intent; [None] when it raises *)
Definition parse_attempt (content : string) : option (string * json) :=
  if PyStr.startswith "{" (PyStr.strip content)
     && PyStr.endswith_char "}" (PyStr.strip content)
  then
    match json_loads content with
    | Some (JObj data) =>
        match dict_get "intent" data (JStr "Low") with
        | JStr intent =>
            Some (PyStr.lower intent,
                  dict_get "reasoning" data (JStr "Analysis completed"))
        | _ => None          (* no [lower] on this object *)
        end
    | Some _ => None         (* no [get] on this object *)
    | None => None           (* the text is not JSON *)
    end
  else Some (_parse_text_response content).

Definition canonical (intent : string) : bool :=
  existsb (String.eqb intent) ["high"; "medium"; "low"].

Definition _parse_ai_response (content : string) : string * json :=
  match parse_attempt content with
  | Some (intent, reasoning) =>
      let intent := if negb (canonical intent) then "low" else intent in
      (intent, reasoning)
  | None => ("low", JStr "Failed to parse AI analysis")
  end.

Definition _analyze_with_provider (provider : string) (client : Client)
    (lead : LeadModel) (offer : OfferModel) : ST World (string * json) :=
  let prompt := _build_analysis_prompt lead offer in
  try_except
    (content ←
       (if String.eqb provider "gemini" then
          t ← wait_for client prompt; mret (PyStr.strip t)
        else if String.eqb provider "openai" then
          t ← wait_for client prompt; mret (PyStr.strip t)
        else raise "AIServiceException");
     let '(intent, reasoning) := _parse_ai_response content in
     with_tracker
       (AIUsageTracker.log_usage provider
          (Z.of_nat (String.length prompt))
          (Z.of_nat (String.length content)));;
     mret (intent, reasoning))
    (fun _ => raise "AIServiceException").

(** one turn of the loop over the providers: the body of its [try] *)
Definition attempt (provider : string * Client) (lead : LeadModel)
    (offer : OfferModel) : ST World (string * json) :=
  check_rate_limit (fst provider);;
  _analyze_with_provider (fst provider) (snd provider) lead offer.

(** the loop of [analyze_lead_intent]: the first provider whose attempt
    does not raise answers; [None] when the loop runs to its end *)
Fixpoint first_answer (providers : list (string * Client))
    (lead : LeadModel) (offer : OfferModel)
  : ST World (option (string * json)) :=
  match providers with
  | [] => mret None
  | provider :: rest =>
      try_except
        (r ← attempt provider lead offer; mret (Some r))
        (fun _ => first_answer rest lead offer)
  end.

Definition analyze_lead_intent (providers : list (string * Client))
    (lead : LeadModel) (offer : OfferModel) : ST World (string * json) :=
  answer ← first_answer providers lead offer;
  match answer with
  | Some r => mret r
  | None =>
      with_tracker AIUsageTracker.log_failure;;
      mret fallback
  end.

End Service.
End AIService.

(** ** [app/services/scoring_engine.py] *)

(** [asyncio.gather] of the tasks: the tasks finish one at a time, in the order
    [order] names them and then, for those it does not name, in the order
    of submission. The result of a task is stored in the slot of its
    index; an exception of a task that finishes is raised to the caller at
    once. When every task has finished the slots are returned. *)
Module Gather.
Section Gather.
Context {A : Type}.

Fixpoint complete (tasks : list (result A)) (order : list nat)
    (slots : list (option A)) : result (list (option A)) :=
  match order with
  | [] => Return slots
  | i :: rest =>
      match slots !! i, tasks !! i with
      | Some None, Some (Return a) => complete tasks rest (<[i := Some a]> slots)
      | Some None, Some (Raise e) => Raise e
      | _, _ => complete tasks rest slots      (* finished before, or no such task *)
      end
  end.

(** the slots as a list of results; an empty slot cannot be read *)
Fixpoint collect (slots : list (option A)) : result (list A) :=
  match slots with
  | [] => Return []
  | Some a :: rest =>
      match collect rest with
      | Return l => Return (a :: l)
      | Raise e => Raise e
      end
  | None :: _ => Raise "InvalidStateError"
  end.

Definition gather (tasks : list (result A)) (order : list nat)
  : result (list A) :=
  let n := length tasks in
  match complete tasks (order ++ seq 0 n)%list (replicate n None) with
  | Return slots => collect slots
  | Raise e => Raise e
  end.

End Gather.
End Gather.

(** the injected [ai_service]: its [analyze_lead_intent], which answers
    with an intent and a reasoning or raises *)
Definition Analyzer : Type :=
  LeadModel -> OfferModel -> result (string * json).

Module ScoringEngine.
Section Engine.

(** [str(v)] for an object [v] that is not a string *)
Variable repr_other : json -> string.

(** [self.ai_service]: [None] until a service is injected *)
Variable ai_service : option Analyzer.

(** [f"{v}"] *)
Definition format (v : json) : string :=
  match v with
  | JStr s => s
  | _ => repr_other v
  end.

(** [for k in keywords: if k in text: return ...] finds a keyword *)
Fixpoint first_keyword (keywords : list string) (text : string)
  : option string :=
  match keywords with
  | [] => None
  | k :: rest => if PyStr.contains k text then Some k else first_keyword rest text
  end.

Definition _score_role (role : string) : Z :=
  let role_lower := PyStr.lower role in
  match first_keyword JobRoleCategories.DECISION_MAKERS role_lower with
  | Some _ => ScoringConstants.DECISION_MAKER_POINTS
  | None =>
      match first_keyword JobRoleCategories.INFLUENCERS role_lower with
      | Some _ => ScoringConstants.INFLUENCER_POINTS
      | None => ScoringConstants.OTHER_ROLE_POINTS
      end
  end.

(** [any(term in industry for term in terms)] *)
Definition any_term (terms : list string) (industry : string) : bool :=
  existsb (fun term => PyStr.contains term industry) terms.

Definition _industries_related (lead_industry target_industry : string)
  : bool :=
  if any_term IndustryMappings.SAAS_RELATED lead_industry
     && any_term IndustryMappings.SAAS_RELATED target_industry
  then true
  else if any_term IndustryMappings.FINTECH_RELATED lead_industry
          && any_term IndustryMappings.FINTECH_RELATED target_industry
  then true
  else if any_term IndustryMappings.ECOMMERCE_RELATED lead_industry
          && any_term IndustryMappings.ECOMMERCE_RELATED target_industry
  then true
  else false.

(** [for target in targets: if related(lead, target): return ...] *)
Fixpoint first_related (lead_industry : string) (targets : list string)
  : option string :=
  match targets with
  | [] => None
  | target :: rest =>
      if _industries_related lead_industry target then Some target
      else first_related lead_industry rest
  end.

Definition _score_industry (lead_industry : string)
    (target_industries : list string) : Z :=
  let lead_industry_lower := PyStr.lower lead_industry in
  let target_industries_lower := map PyStr.lower target_industries in
  if existsb (String.eqb lead_industry_lower) target_industries_lower
  then ScoringConstants.EXACT_INDUSTRY_POINTS
  else
    match first_related lead_industry_lower target_industries_lower with
    | Some _ => ScoringConstants.ADJACENT_INDUSTRY_POINTS
    | None => ScoringConstants.OTHER_INDUSTRY_POINTS
    end.

Definition _score_completeness (lead : LeadModel) : Z :=
  let required_fields :=
    [lead_name lead; lead_role lead; lead_company lead;
     lead_industry lead; lead_location lead; lead_linkedin_bio lead] in
  if forallb (fun field => PyStr.truthy field && PyStr.truthy (PyStr.strip field))
             required_fields
  then ScoringConstants.COMPLETE_DATA_POINTS
  else 0.

Definition _calculate_rule_score (lead : LeadModel) (offer : OfferModel)
  : Z * string :=
  let score := 0 in
  let role_score := _score_role (lead_role lead) in
  let score := score + role_score in
  let industry_score :=
    _score_industry (lead_industry lead) (offer_ideal_use_cases offer) in
  let score := score + industry_score in
  let completeness_score := _score_completeness lead in
  let score := score + completeness_score in
  let breakdown_parts :=
    ["Role: " +:+ PyStr.of_Z role_score +:+ "pts";
     "Industry: " +:+ PyStr.of_Z industry_score +:+ "pts";
     "Completeness: " +:+ PyStr.of_Z completeness_score +:+ "pts"] in
  (Z.min score ScoringConstants.MAX_RULE_SCORE, PyStr.join " | " breakdown_parts).

(** [ScoringConstants.AI_INTENT_SCORES.get(key, 10)] *)
Definition intent_score (key : string) : Z :=
  default 10 (ScoringConstants.AI_INTENT_SCORES !! key).

Definition _calculate_ai_score (lead : LeadModel) (offer : OfferModel)
  : Z * json * string :=
  match ai_service with
  | None =>
      (10, JStr "AI service unavailable - conservative scoring applied", "low")
  | Some service =>
      match service lead offer with
      | Return (intent, reasoning) =>
          (intent_score (PyStr.lower intent), reasoning, intent)
      | Raise _ =>
          (10, JStr "AI analysis failed - conservative scoring applied", "low")
      end
  end.

Definition score_single_lead (lead : LeadModel) (offer : OfferModel)
  : result LeadScoringResult :=
  let '(rule_score, rule_breakdown) := _calculate_rule_score lead offer in
  let '(ai_score, ai_reasoning, intent) := _calculate_ai_score lead offer in
  let total_score := Z.min (rule_score + ai_score) 100 in
  match IntentLevel_of_value (PyStr.title intent) with
  | Raise e => Raise e
  | Return level =>
      make_LeadScoringResult (lead_name lead) (lead_role lead)
        (lead_company lead) level total_score
        ("Rule: " +:+ rule_breakdown +:+ ". AI: " +:+ format ai_reasoning)
  end.

(** [order] names, per batch, the order in which its tasks finish *)
Definition _score_batch (leads : list LeadModel) (offer : OfferModel)
    (order : list nat) : result (list LeadScoringResult) :=
  let tasks := map (fun lead => score_single_lead lead offer) leads in
  Gather.gather tasks order.

(** [range(0, stop, step)] *)
Definition range_step (stop step : nat) : list nat :=
  map (fun k => (k * step)%nat) (seq 0 (Nat.div (stop + step - 1) step)).

(** [l[i:j]] *)
Definition slice {A} (l : list A) (i j : nat) : list A :=
  firstn (j - i) (skipn i l).

Definition batch_size : nat := 10.

(** the loop of [score_leads] over the batch offsets; [orders i] is the
    order in which the tasks of the batch at offset [i] finish *)
Fixpoint score_batches (offsets : list nat) (leads : list LeadModel)
    (offer : OfferModel) (orders : nat -> list nat)
    (results : list LeadScoringResult) : result (list LeadScoringResult) :=
  match offsets with
  | [] => Return results
  | i :: rest =>
      let batch := slice leads i (i + batch_size) in
      match _score_batch batch offer (orders i) with
      | Raise e => Raise e
      | Return batch_results =>
          score_batches rest leads offer orders (results ++ batch_results)%list
      end
  end.

Definition score_leads (leads : list LeadModel) (offer : OfferModel)
    (orders : nat -> list nat) : result (list LeadScoringResult) :=
  score_batches (range_step (length leads) batch_size) leads offer orders [].

End Engine.
End ScoringEngine.

(** ** Validation of the models ([app/models/lead.py], [app/models/offer.py]) *)

(** the declared bounds of a string field: [min_length] and [max_length] *)
Definition length_within (lo hi : nat) (s : string) : bool :=
  Nat.leb lo (String.length s) && Nat.leb (String.length s) hi.

(** [LeadModel(name=..., ...)] on strings: the validator [strip_strings]
    runs on every field before the declared bounds are checked *)
Definition LeadModel_validate
    (name role company industry location linkedin_bio : string)
  : result LeadModel :=
  let name := PyStr.strip name in
  let role := PyStr.strip role in
  let company := PyStr.strip company in
  let industry := PyStr.strip industry in
  let location := PyStr.strip location in
  let linkedin_bio := PyStr.strip linkedin_bio in
  if length_within 1 100 name && length_within 1 100 role
     && length_within 1 100 company && length_within 1 100 industry
     && length_within 1 100 location && length_within 0 1000 linkedin_bio
  then Return {| lead_name := name; lead_role := role; lead_company := company;
                 lead_industry := industry; lead_location := location;
                 lead_linkedin_bio := linkedin_bio |}
  else Raise "ValidationError".

(** the validator [clean_lists]:
    [[item.strip() for item in v if item and item.strip()]] *)
Definition clean_lists (v : list string) : list string :=
  map PyStr.strip
    (List.filter (fun item => PyStr.truthy item && PyStr.truthy (PyStr.strip item)) v).

(** [min_items] and [max_items] *)
Definition items_within (lo hi : nat) {A} (l : list A) : bool :=
  Nat.leb lo (length l) && Nat.leb (length l) hi.

(** [OfferModel(name=..., value_props=..., ideal_use_cases=...)] on a
    string and two lists of strings *)
Definition OfferModel_validate (name : string)
    (value_props ideal_use_cases : list string) : result OfferModel :=
  let value_props := clean_lists value_props in
  let ideal_use_cases := clean_lists ideal_use_cases in
  if length_within 1 200 name && items_within 1 10 value_props
     && items_within 1 10 ideal_use_cases
  then Return {| offer_name := name; offer_value_props := value_props;
                 offer_ideal_use_cases := ideal_use_cases |}
  else Raise "ValidationError".

(** ** [app/services/storage_service.py] *)

(** the class attributes of [StorageService] *)
Record Storage : Type := {
  _offer : option OfferModel;
  _leads : list LeadModel;
  _results : list LeadScoringResult
}.

Module StorageService.

(** the attributes as the class body sets them *)
Definition initial : Storage :=
  {| _offer := None; _leads := []; _results := [] |}.

Definition set_offer (offer : OfferModel) (st : Storage) : Storage :=
  {| _offer := Some offer; _leads := _leads st; _results := _results st |}.

Definition get_offer (st : Storage) : option OfferModel := _offer st.

Definition set_leads (leads : list LeadModel) (st : Storage) : Storage :=
  {| _offer := _offer st; _leads := leads; _results := [] |}.

Definition get_leads (st : Storage) : list LeadModel := _leads st.

Definition set_results (results : list LeadScoringResult) (st : Storage)
  : Storage :=
  {| _offer := _offer st; _leads := _leads st; _results := results |}.

Definition get_results (st : Storage) : list LeadScoringResult := _results st.

Definition clear_all (st : Storage) : Storage :=
  {| _offer := None; _leads := []; _results := [] |}.

End StorageService.

(** ** [app/routers]: the endpoints that drive the scoring *)

(** what an endpoint answers: a body, or an [HTTPException] *)
Inductive Reply (A : Type) : Type :=
| Body (body : A)
| HTTPException (status_code : Z) (detail : string).
Arguments Body {A} body.
Arguments HTTPException {A} status_code detail.

(** [s.endswith(suffix)] *)
Fixpoint str_endswith (suffix s : string) : bool :=
  if String.eqb s suffix then true
  else match s with
       | EmptyString => false
       | String _ rest => str_endswith suffix rest
       end.

Record OfferStored : Type := {
  os_message : string;
  os_offer_name : string;
  os_value_props_count : nat;
  os_use_cases_count : nat
}.

Record LeadsUploaded : Type := {
  lu_message : string;
  lu_count : nat;
  lu_filename : string
}.

Record ScoringDone : Type := {
  sd_message : string;
  sd_leads_scored : nat;
  sd_offer_name : string
}.

Module Routers.
Section Endpoints.

(** the engine of [routers/scoring.py]: [str] of other objects, and the
    service injected into it *)
Variable repr_other : json -> string.
Variable ai : option Analyzer.

(** [POST /offer] *)
Definition create_offer (offer : OfferModel) (st : Storage)
  : Reply OfferStored * Storage :=
  let st := StorageService.set_offer offer st in
  (Body {| os_message := "Offer stored successfully";
           os_offer_name := offer_name offer;
           os_value_props_count := length (offer_value_props offer);
           os_use_cases_count := length (offer_ideal_use_cases offer) |},
   st).

(** [POST /leads/upload]; [processed] is what [CSVProcessor.process_csv]
    makes of the file: the leads, or the message of the
    [CSVProcessingException] it raises *)
Definition upload_leads (filename : string)
    (processed : result (list LeadModel)) (st : Storage)
  : Reply LeadsUploaded * Storage :=
  if negb (str_endswith ".csv" filename) then
    (HTTPException 400 "File must be a CSV format (.csv extension required)", st)
  else
    match processed with
    | Return leads =>
        let st := StorageService.set_leads leads st in
        (Body {| lu_message := "Leads uploaded successfully";
                 lu_count := length leads;
                 lu_filename := filename |},
         st)
    | Raise message => (HTTPException 400 message, st)
    end.

(** [POST /score]; [orders] names the completion orders of the batches *)
Definition score_leads (orders : nat -> list nat) (st : Storage)
  : Reply ScoringDone * Storage :=
  let offer := StorageService.get_offer st in
  let leads := StorageService.get_leads st in
  match offer with
  | None =>
      (HTTPException 400
         "No offer found. Please upload an offer first using POST /api/v1/offer",
       st)
  | Some offer =>
      match leads with
      | [] =>
          (HTTPException 400
             "No leads found. Please upload leads first using POST /api/v1/leads/upload",
           st)
      | _ :: _ =>
          match ScoringEngine.score_leads repr_other ai leads offer orders with
          | Return results =>
              let st := StorageService.set_results results st in
              (Body {| sd_message := "Scoring completed successfully";
                       sd_leads_scored := length results;
                       sd_offer_name := offer_name offer |},
               st)
          | Raise e => (HTTPException 500 ("Scoring failed: " +:+ e), st)
          end
      end
  end.

(** [GET /results]: one entry per stored result, with its six fields *)
Definition get_results (st : Storage)
  : list (string * string * string * IntentLevel * Z * string) :=
  let results := StorageService.get_results st in
  match results with
  | [] => []
  | _ :: _ =>
      map (fun result => (res_name result, res_role result, res_company result,
                          res_intent result, res_score result,
                          res_reasoning result))
          results
  end.

End Endpoints.

(** a request to one of the endpoints that change the storage; a scoring
    request comes with the service as it answers while that request is
    served, since the answers depend on the providers, the rate windows
    and the clock of the moment *)
Inductive Request : Type :=
| PostOffer (offer : OfferModel)
| PostLeads (filename : string) (processed : result (list LeadModel))
| PostScore (ai : option Analyzer) (orders : nat -> list nat).

Definition handle (repr_other : json -> string) (request : Request)
    (st : Storage) : Storage :=
  match request with
  | PostOffer offer => snd (create_offer offer st)
  | PostLeads filename processed => snd (upload_leads filename processed st)
  | PostScore ai orders => snd (score_leads repr_other ai orders st)
  end.

Definition serve (repr_other : json -> string) (requests : list Request)
    (st : Storage) : Storage :=
  fold_left (fun st request => handle repr_other request st) requests st.

End Routers.

(** ** The engine as the application wires it

    [app/routers/scoring.py] creates one [AIService] and injects it into
    the engine; an engine may also be left without a service. The answer a
    service with the given providers gives in the world [w]: *)
Definition service_analyzer (json_loads : string -> option json)
    (ai_timeout : Z) (providers : list (string * Client)) (w : World)
  : Analyzer :=
  fun lead offer =>
    fst (AIService.analyze_lead_intent json_loads ai_timeout providers lead offer w).

Inductive Wiring : Type :=
| NoService
| WithService (providers : list (string * Client)) (w : World).

Definition wired (json_loads : string -> option json) (ai_timeout : Z)
    (wiring : Wiring) : option Analyzer :=
  match wiring with
  | NoService => None
  | WithService providers w =>
      Some (service_analyzer json_loads ai_timeout providers w)
  end.

(** ** Sample data, after [tests/unit/test_ai_fallback.py] *)

Definition sample_lead : LeadModel :=
  {| lead_name := "Test Lead"; lead_role := "CEO"; lead_company := "TestCorp";
     lead_industry := "software"; lead_location := "SF";
     lead_linkedin_bio := "Test bio for analysis" |}.

Definition sample_offer : OfferModel :=
  {| offer_name := "Test Product";
     offer_value_props := ["value1"; "value2"];
     offer_ideal_use_cases := ["software"; "technology"] |}.

(** a freshly started process at instant 0 *)
Definition fresh_world : World :=
  {| clock := 0; limiter := SmartRateLimiter.init;
     tracker := AIUsageTracker.initial |}.

(** a client whose call fails after a tenth of a second *)
Definition failing_client : Client :=
  fun _ => {| latency := 100000; text := None |}.

(** a client that needs a minute to answer *)
Definition slow_client : Client :=
  fun _ => {| latency := 60000000; text := Some "High. Strong buying signals" |}.

(** a client that answers [reply] after half a second *)
Definition replying_client (reply : string) : Client :=
  fun _ => {| latency := 500000; text := Some reply |}.

(** [obj[k1][k2] = v], as a holder of the object [obj] may write it *)
Definition store_nested (obj : nat) (k1 k2 : string) (v : pyval)
  : ST Tracker unit :=
  r ← AIUsageTracker.getitem obj k1;
  d ← AIUsageTracker.as_dict r;
  AIUsageTracker.setitem d k2 v.

(** ten calls at once, an eleventh half a minute later, and ten more as
    soon as that one is let through *)
Definition burst : list Z :=
  (repeat 0 10 ++ [30 * SmartRateLimiter.second] ++ repeat 0 10)%list.

(** ** Vocabulary of the statements *)

(** [sub] occurs in [s] *)
Definition Substring (sub s : string) : Prop :=
  exists pre suf, s = pre +:+ sub +:+ suf.

(** [text] contains one of the keywords *)
Definition mentions (keywords : list string) (text : string) : Prop :=
  Exists (fun k => Substring k text) keywords.

(** the related-industry groups of [IndustryMappings] *)
Definition industry_groups : list (list string) :=
  [IndustryMappings.SAAS_RELATED; IndustryMappings.FINTECH_RELATED;
   IndustryMappings.ECOMMERCE_RELATED].

(** two industries belong to one group: each contains a term of it *)
Definition same_group (a b : string) : Prop :=
  Exists (fun group => mentions group a /\ mentions group b) industry_groups.

(** the industry equals a target when case is ignored *)
Definition exact_match (lead_industry : string) (targets : list string) : Prop :=
  Exists (fun target => PyStr.lower target = PyStr.lower lead_industry) targets.

(** the industry shares a group with a target, case ignored *)
Definition related_match (lead_industry : string) (targets : list string) : Prop :=
  Exists (fun target => same_group (PyStr.lower lead_industry) (PyStr.lower target))
         targets.

(** *** The related-industry groups in the words of the specification

    The specification speaks of an industry that belongs to a group. Read
    generously, an industry belongs to a group when one of the group's
    terms stands in its name, case ignored, as a word or a run of words of
    its own, and not as a piece of a longer word. *)

(** a letter or a digit *)
Definition word_char (c : ascii) : bool :=
  PyStr.is_cased c || (Nat.leb 48 (PyStr.code c) && Nat.leb (PyStr.code c) 57).

(** [s] without its first [n] characters *)
Fixpoint skip (n : nat) (s : string) : string :=
  match n, s with
  | S n', String _ rest => skip n' rest
  | _, _ => s
  end.

(** no word goes on at the start of [s] *)
Definition word_ends (s : string) : bool :=
  match s with
  | EmptyString => true
  | String c _ => negb (word_char c)
  end.

(** [term] stands in [s] with a word boundary on either side;
    [word_starts] says whether a word may start at the head of [s] *)
Fixpoint stands_in_from (word_starts : bool) (term s : string) : bool :=
  match s with
  | EmptyString => false
  | String c rest =>
      (word_starts && PyStr.startswith term s
       && word_ends (skip (String.length term) s))
      || stands_in_from (negb (word_char c)) term rest
  end.

Definition names_term (term industry : string) : bool :=
  stands_in_from true term (PyStr.lower industry).

Definition belongs_to_group (industry : string) (group : list string) : bool :=
  existsb (fun term => names_term term industry) group.

Definition share_a_group (a b : string) : bool :=
  existsb (fun group => belongs_to_group a group && belongs_to_group b group)
          industry_groups.

(** the industry component as the specification gives it: 20 for an exact
    match, else 10 for a target of the same group, else 0 *)
Definition specified_industry_score (lead_industry : string)
    (targets : list string) : Z :=
  if existsb (fun target => String.eqb (PyStr.lower lead_industry)
                                       (PyStr.lower target)) targets
  then 20
  else if existsb (share_a_group lead_industry) targets then 10
  else 0.

(** the total before it is stored in the result *)
Definition total_score (ai : option Analyzer) (lead : LeadModel)
    (offer : OfferModel) : Z :=
  Z.min (fst (ScoringEngine._calculate_rule_score lead offer)
         + fst (fst (ScoringEngine._calculate_ai_score ai lead offer))) 100.

(** the intent [_calculate_ai_score] hands back *)
Definition ai_intent (ai : option Analyzer) (lead : LeadModel)
    (offer : OfferModel) : string :=
  snd (ScoringEngine._calculate_ai_score ai lead offer).

(** the text in front of the first occurrence of [sep]: the first sentence
    when [sep] is the period *)
Fixpoint before_char (sep : ascii) (s : string) : string :=
  match s with
  | EmptyString => EmptyString
  | String c rest =>
      if Ascii.eqb c sep then EmptyString else String c (before_char sep rest)
  end.

(** the reply is taken for JSON: trimmed, it opens and closes with a brace *)
Definition looks_like_json (content : string) : bool :=
  PyStr.startswith "{" (PyStr.strip content)
  && PyStr.endswith_char "}" (PyStr.strip content).

(** what the [except] clause of [_parse_ai_response] returns *)
Definition parse_failure : string * json :=
  ("low", JStr "Failed to parse AI analysis").

(** every provider in turn was tried and its attempt raised: the loop of
    [analyze_lead_intent] ran from [w] to its end, leaving [w'] *)
Inductive exhausted (json_loads : string -> option json) (ai_timeout : Z)
    (lead : LeadModel) (offer : OfferModel)
  : list (string * Client) -> World -> World -> Prop :=
| exhausted_nil w : exhausted json_loads ai_timeout lead offer [] w w
| exhausted_cons provider rest w e w1 w' :
    AIService.attempt json_loads ai_timeout provider lead offer w = (Raise e, w1) ->
    exhausted json_loads ai_timeout lead offer rest w1 w' ->
    exhausted json_loads ai_timeout lead offer (provider :: rest) w w'.

(** the failure counter of the process-wide tracker *)
Definition failure_count (w : World) : option pyval :=
  AIUsageTracker.failures (tracker w).

(** slots filled so far hold the result of the task of their index *)
Definition slots_agree {A} (rs : list A) (slots : list (option A)) : Prop :=
  length slots = length rs
  /\ forall (i : nat) a, slots !! i = Some (Some a) -> rs !! i = Some a.

Definition filled {A} (slots : list (option A)) (i : nat) : Prop :=
  exists a, slots !! i = Some (Some a).

(** [r] is the scoring result of [lead] *)
Definition scored (repr_other : json -> string) (ai : option Analyzer)
    (offer : OfferModel) (lead : LeadModel) (r : LeadScoringResult) : Prop :=
  ScoringEngine.score_single_lead repr_other ai lead offer = Return r.

(** every run of [m] relates the state before to the state after by [P] *)
Definition preserves {S A} (P : S -> S -> Prop) (m : ST S A) : Prop :=
  forall s r s', m s = (r, s') -> P s s'.

(** the tracker still has the same [_usage] object, with the same failure
    counter *)
Definition same_failures (t t' : Tracker) : Prop :=
  usage t' = usage t /\ AIUsageTracker.failures t' = AIUsageTracker.failures t.

Definition same_failures_w (w w' : World) : Prop :=
  same_failures (tracker w) (tracker w').

(** the fields [_score_completeness] requires *)
Definition required_fields (lead : LeadModel) : list string :=
  [lead_name lead; lead_role lead; lead_company lead;
   lead_industry lead; lead_location lead; lead_linkedin_bio lead].

(** nothing is left of [field] once blanks are trimmed from its ends *)
Definition blank (field : string) : Prop := PyStr.strip field = "".

(** the points the table gives to the three levels *)
Definition level_points (level : IntentLevel) : Z :=
  match level with HIGH => 50 | MEDIUM => 30 | LOW => 10 end.

(** an analyzer that shouts its answer *)
Definition shouting_analyzer : Analyzer :=
  fun _ _ => Return ("MEDIUM", JStr "Some interest").

(** what scoring the sample lead with it gives *)
Definition shouted_result : LeadScoringResult :=
  {| res_name := "Test Lead"; res_role := "CEO"; res_company := "TestCorp";
     res_intent := MEDIUM; res_score := 80;
     res_reasoning :=
       "Rule: Role: 20pts | Industry: 20pts | Completeness: 10pts. AI: Some interest" |}.

(** the result for a lead whose AI analysis is not available: the level
    Low, ten points on top of the rule score, and the reason after the
    rule breakdown *)
Definition degraded_result (lead : LeadModel) (offer : OfferModel)
    (reason : string) : LeadScoringResult :=
  {| res_name := lead_name lead; res_role := lead_role lead;
     res_company := lead_company lead; res_intent := LOW;
     res_score := fst (ScoringEngine._calculate_rule_score lead offer) + 10;
     res_reasoning :=
       "Rule: " +:+ snd (ScoringEngine._calculate_rule_score lead offer)
       +:+ ". AI: " +:+ reason |}.

(** an analyzer whose intent names no level *)
Definition vague_analyzer : Analyzer :=
  fun _ _ => Return ("unsure", JStr "Cannot tell").

(** the counters of the usage tracker as numbers *)
Record Stats : Type := {
  gemini_calls : Z;
  gemini_tokens : Z;
  openai_calls : Z;
  openai_tokens : Z;
  openai_cost : SpecFloat.spec_float;
  failure_total : Z
}.

Definition no_usage : Stats :=
  {| gemini_calls := 0; gemini_tokens := 0; openai_calls := 0;
     openai_tokens := 0; openai_cost := PyFloat.zero; failure_total := 0 |}.

(** the tracker holds the counters [s]: [_usage] has its two provider
    dictionaries and the failure counter and no other key, the provider
    dictionaries are two objects apart from [_usage] itself, all
    allocated, and the entries are the numbers of [s] *)
Definition represents (t : Tracker) (s : Stats) : Prop :=
  exists g o : nat,
    AIUsageTracker.read t (usage t) "gemini" = Some (VDict g)
    /\ AIUsageTracker.read t (usage t) "openai" = Some (VDict o)
    /\ AIUsageTracker.read t (usage t) "failures" = Some (VInt (failure_total s))
    /\ g <> o /\ g <> usage t /\ o <> usage t
    /\ (usage t < fresh t)%nat /\ (g < fresh t)%nat /\ (o < fresh t)%nat
    /\ AIUsageTracker.read t g "calls" = Some (VInt (gemini_calls s))
    /\ AIUsageTracker.read t g "tokens" = Some (VInt (gemini_tokens s))
    /\ AIUsageTracker.read t o "calls" = Some (VInt (openai_calls s))
    /\ AIUsageTracker.read t o "tokens" = Some (VInt (openai_tokens s))
    /\ AIUsageTracker.read t o "estimated_cost" = Some (VFloat (openai_cost s))
    /\ forall k, k <> "gemini" -> k <> "openai" -> k <> "failures" ->
                 AIUsageTracker.read t (usage t) k = None.

(** the float an [int] operand becomes where it fits one *)
Definition fits_float (n : Z) : Prop :=
  PyFloat.of_int n = Return (PyFloat.nearest n).

(** the estimated cost of a call whose token counts fit a float: each
    product and their sum rounded to the nearest float *)
Definition cost_of (input_tokens output_tokens : Z) : SpecFloat.spec_float :=
  PyFloat.add
    (PyFloat.mul (PyFloat.nearest input_tokens) AIUsageTracker.input_rate)
    (PyFloat.mul (PyFloat.nearest output_tokens) AIUsageTracker.output_rate).

(** the counters after [log_usage(provider, input_tokens, output_tokens)];
    the cost of openai grows by a float addition, which rounds again *)
Definition count_usage (provider : string) (input_tokens output_tokens : Z)
    (s : Stats) : Stats :=
  if String.eqb provider "gemini" then
    {| gemini_calls := gemini_calls s + 1;
       gemini_tokens := gemini_tokens s + (input_tokens + output_tokens);
       openai_calls := openai_calls s; openai_tokens := openai_tokens s;
       openai_cost := openai_cost s; failure_total := failure_total s |}
  else if String.eqb provider "openai" then
    {| gemini_calls := gemini_calls s; gemini_tokens := gemini_tokens s;
       openai_calls := openai_calls s + 1;
       openai_tokens := openai_tokens s + (input_tokens + output_tokens);
       openai_cost := PyFloat.add (openai_cost s)
                        (cost_of input_tokens output_tokens);
       failure_total := failure_total s |}
  else s.

(** the counters after [log_failure()] *)
Definition count_failure (s : Stats) : Stats :=
  {| gemini_calls := gemini_calls s; gemini_tokens := gemini_tokens s;
     openai_calls := openai_calls s; openai_tokens := openai_tokens s;
     openai_cost := openai_cost s; failure_total := failure_total s + 1 |}.

(** the operations of the tracker, as a caller issues them *)
Inductive TrackerOp : Type :=
| LogUsage (provider : string) (input_tokens output_tokens : Z)
| LogFailure
| GetStats
| ResetStats.

Definition run_op (op : TrackerOp) : ST Tracker unit :=
  match op with
  | LogUsage provider input_tokens output_tokens =>
      AIUsageTracker.log_usage provider input_tokens output_tokens
  | LogFailure => AIUsageTracker.log_failure
  | GetStats => AIUsageTracker.get_stats;; mret tt
  | ResetStats => AIUsageTracker.reset_stats
  end.

Fixpoint run_ops (ops : list TrackerOp) : ST Tracker unit :=
  match ops with
  | [] => mret tt
  | op :: rest => run_op op;; run_ops rest
  end.

(** the counters after an operation *)
Definition count_op (s : Stats) (op : TrackerOp) : Stats :=
  match op with
  | LogUsage provider input_tokens output_tokens =>
      count_usage provider input_tokens output_tokens s
  | LogFailure => count_failure s
  | GetStats => s
  | ResetStats => no_usage
  end.

(** usage is logged for one of the two providers the tracker knows, and
    for openai with token counts that fit a float *)
Definition loggable (provider : string) (input_tokens output_tokens : Z)
  : Prop :=
  provider = "gemini"
  \/ (provider = "openai"
      /\ fits_float input_tokens /\ fits_float output_tokens).

Definition known_provider (op : TrackerOp) : Prop :=
  match op with
  | LogUsage provider input_tokens output_tokens =>
      loggable provider input_tokens output_tokens
  | _ => True
  end.

(** the world after the attempt on a failing gemini client *)
Definition after_gemini_failure : World :=
  snd (AIService.attempt Json.loads 15 ("gemini", failing_client)
         sample_lead sample_offer fresh_world).

(** the world [d] microseconds later, nothing else changed *)
Definition later (w : World) (d : Z) : World :=
  {| clock := clock w + Z.max 0 d; limiter := limiter w; tracker := tracker w |}.

(** the provider is one of the two [_analyze_with_provider] can call *)
Definition supported (provider : string) : Prop :=
  provider = "gemini" \/ provider = "openai".

(** a lead and an offer that differ from the samples where the prompt
    does not look *)
Definition sample_lead_moved : LeadModel :=
  {| lead_name := "Test Lead"; lead_role := "CEO"; lead_company := "TestCorp";
     lead_industry := "software"; lead_location := "Berlin";
     lead_linkedin_bio := "Test bio for analysis" |}.

Definition sample_offer_extended : OfferModel :=
  {| offer_name := "Test Product";
     offer_value_props := ["another value"];
     offer_ideal_use_cases := ["software"; "technology"; "retail"] |}.

(** the string does not begin with a blank *)
Definition head_ok (s : string) : Prop :=
  match s with
  | EmptyString => True
  | String c _ => PyStr.isspace c = false
  end.

(** a lead whose bio was left blank in the upload *)
Definition lead_without_bio : LeadModel :=
  {| lead_name := "Ava Patel"; lead_role := "Head of Growth";
     lead_company := "FlowMetrics"; lead_industry := "software";
     lead_location := "San Francisco"; lead_linkedin_bio := "" |}.




(** scoring the lead raises *)
Definition unscorable (repr_other : json -> string) (ai : option Analyzer)
    (offer : OfferModel) (lead : LeadModel) : Prop :=
  exists e, ScoringEngine.score_single_lead repr_other ai lead offer = Raise e.

(** the instant and the table after one task has made the calls of
    [SmartRateLimiter.admissions] *)
Fixpoint run_calls (provider : string) (gaps : list Z) (now : Z)
    (table : gmap string (list Z)) : Z * gmap string (list Z) :=
  match gaps with
  | [] => (now, table)
  | gap :: rest =>
      let entered := now + Z.max 0 gap in
      match SmartRateLimiter.check_rate_limit provider entered table with
      | (Return sleep_time, table') =>
          run_calls provider rest (entered + SmartRateLimiter.slept sleep_time) table'
      | (Raise _, table') => run_calls provider rest entered table'
      end
  end.

(** at [now] the window of the provider holds no entry from the future
    and at most the ceiling, or one more with an oldest entry that has
    already left the window *)
Definition window_ok (provider : string) (now : Z)
    (table : gmap string (list Z)) : Prop :=
  exists calls,
    table !! provider = Some calls
    /\ Forall (fun call_time => call_time <= now) calls
    /\ (Z.of_nat (length calls) <= SmartRateLimiter.max_calls provider
        \/ exists oldest rest,
             calls = oldest :: rest
             /\ Z.of_nat (length rest) = SmartRateLimiter.max_calls provider
             /\ SmartRateLimiter.window <= now - oldest).

(** ** Strings *)

Lemma append_assoc (a b c : string) : (a +:+ b) +:+ c = a +:+ (b +:+ c).
Proof. induction a as [|x a IH]; simpl; [reflexivity | now rewrite IH]. Qed.

Lemma startswith_spec (p s : string) :
  PyStr.startswith p s = true <-> exists suf, s = p +:+ suf.
Proof.
  revert s. induction p as [|a p IH]; intros s; simpl.
  - split; [intros _; now exists s | reflexivity].
  - destruct s as [|b s].
    + split; [discriminate | intros [suf H]; discriminate].
    + destruct (Ascii.eqb_spec a b) as [->|Hne].
      * rewrite IH. split; intros [suf H]; exists suf; [now rewrite H | now inversion H].
      * split; [discriminate | intros [suf H]; simpl in H; congruence].
Qed.

Lemma contains_unfold (sub s : string) :
  PyStr.contains sub s =
  if PyStr.startswith sub s then true
  else match s with
       | EmptyString => false
       | String _ rest => PyStr.contains sub rest
       end.
Proof. destruct s; reflexivity. Qed.

Lemma contains_spec (sub s : string) :
  PyStr.contains sub s = true <-> Substring sub s.
Proof.
  split.
  - induction s as [|c s IH]; rewrite contains_unfold;
      destruct (PyStr.startswith sub _) eqn:E.
    + intros _. apply startswith_spec in E as [suf ->]. now exists EmptyString, suf.
    + discriminate.
    + intros _. apply startswith_spec in E as [suf ->]. now exists EmptyString, suf.
    + intros H. destruct (IH H) as (pre & suf & ->). now exists (String c pre), suf.
  - intros (pre & suf & ->). induction pre as [|c pre IH]; rewrite contains_unfold.
    + simpl. replace (PyStr.startswith sub (sub +:+ suf)) with true; [reflexivity|].
      symmetry. apply startswith_spec. now exists suf.
    + destruct (PyStr.startswith sub _); [reflexivity | exact IH].
Qed.

Lemma any_term_spec (terms : list string) (text : string) :
  ScoringEngine.any_term terms text = true <-> mentions terms text.
Proof.
  unfold ScoringEngine.any_term, mentions. rewrite existsb_exists, Stdlib.Lists.List.Exists_exists.
  split; intros (k & Hin & H); exists k; (split; [exact Hin|]); now apply contains_spec.
Qed.

Lemma first_keyword_None (keywords : list string) (text : string) :
  ScoringEngine.first_keyword keywords text = None <-> ~ mentions keywords text.
Proof.
  unfold mentions. induction keywords as [|k ks IH]; simpl.
  - split; [intros _ H; inversion H | reflexivity].
  - destruct (PyStr.contains k text) eqn:E.
    + split; [discriminate|]. intros H. exfalso. apply H. left. now apply contains_spec.
    + rewrite IH. split.
      * intros H H'. inversion H' as [? ? Hk|]; subst; [|contradiction].
        apply contains_spec in Hk. congruence.
      * intros H H'. apply H. now right.
Qed.

Lemma first_keyword_Some (keywords : list string) (text : string) :
  mentions keywords text ->
  exists k, ScoringEngine.first_keyword keywords text = Some k.
Proof.
  intros H. destruct (ScoringEngine.first_keyword keywords text) eqn:E; [eauto|].
  apply first_keyword_None in E. contradiction.
Qed.

(** ** Role score *)

(** C6. The role component is 20 when the lowercased role contains a
    decision-maker keyword, otherwise 10 when it contains an influencer
    keyword, otherwise 0. The decision-maker list is searched first:
    "Senior Director" contains keywords of both lists and scores 20. *)
Theorem score_role_decision_maker_first (role : string) :
  (mentions JobRoleCategories.DECISION_MAKERS (PyStr.lower role) ->
   ScoringEngine._score_role role = 20)
  /\ (~ mentions JobRoleCategories.DECISION_MAKERS (PyStr.lower role) ->
      mentions JobRoleCategories.INFLUENCERS (PyStr.lower role) ->
      ScoringEngine._score_role role = 10)
  /\ (~ mentions JobRoleCategories.DECISION_MAKERS (PyStr.lower role) ->
      ~ mentions JobRoleCategories.INFLUENCERS (PyStr.lower role) ->
      ScoringEngine._score_role role = 0)
  /\ (mentions JobRoleCategories.DECISION_MAKERS (PyStr.lower "Senior Director")
      /\ mentions JobRoleCategories.INFLUENCERS (PyStr.lower "Senior Director")
      /\ ScoringEngine._score_role "Senior Director" = 20).
Proof.
  unfold ScoringEngine._score_role. repeat split.
  - intros H. apply first_keyword_Some in H as [k ->]. reflexivity.
  - intros Hd Hi. apply first_keyword_None in Hd. rewrite Hd.
    apply first_keyword_Some in Hi as [k ->]. reflexivity.
  - intros Hd Hi. apply first_keyword_None in Hd, Hi. now rewrite Hd, Hi.
  - apply any_term_spec. reflexivity.
  - apply any_term_spec. reflexivity.
Qed.

(** ** Industry score *)

Lemma industries_related_spec (a b : string) :
  ScoringEngine._industries_related a b = true <-> same_group a b.
Proof.
  unfold ScoringEngine._industries_related, same_group, industry_groups.
  rewrite !Exists_cons, Exists_nil, <- !any_term_spec.
  repeat match goal with
         | |- context [ScoringEngine.any_term ?g ?x] =>
             destruct (ScoringEngine.any_term g x)
         end; simpl; intuition congruence.
Qed.

Lemma first_related_None (lead_industry : string) (targets : list string) :
  ScoringEngine.first_related lead_industry targets = None <->
  ~ Exists (same_group lead_industry) targets.
Proof.
  induction targets as [|t ts IH]; simpl.
  - rewrite Exists_nil. tauto.
  - rewrite Exists_cons, <- industries_related_spec.
    destruct (ScoringEngine._industries_related lead_industry t).
    + split; [discriminate | tauto].
    + rewrite IH. intuition congruence.
Qed.

Lemma first_related_Some (lead_industry : string) (targets : list string)
    (target : string) :
  ScoringEngine.first_related lead_industry targets = Some target ->
  Exists (same_group lead_industry) targets.
Proof.
  induction targets as [|t ts IH]; simpl; [discriminate|].
  destruct (ScoringEngine._industries_related lead_industry t) eqn:E.
  - intros _. left. now apply industries_related_spec.
  - intros H. right. auto.
Qed.

Lemma exact_match_spec (lead_industry : string) (targets : list string) :
  existsb (String.eqb (PyStr.lower lead_industry)) (map PyStr.lower targets) = true
  <-> exact_match lead_industry targets.
Proof.
  unfold exact_match. induction targets as [|t ts IH]; simpl.
  - rewrite Exists_nil. split; [discriminate | tauto].
  - rewrite Exists_cons, orb_true_iff, IH, String.eqb_eq. intuition congruence.
Qed.

Lemma related_match_spec (lead_industry : string) (targets : list string) :
  Exists (same_group (PyStr.lower lead_industry)) (map PyStr.lower targets)
  <-> related_match lead_industry targets.
Proof.
  unfold related_match. induction targets as [|t ts IH]; simpl.
  - rewrite !Exists_nil. tauto.
  - rewrite !Exists_cons, IH. tauto.
Qed.

(** What [_score_industry] computes: 20 when the lead's industry equals
    a target industry up to case; otherwise 10 when the lead's industry
    and a target industry each contain, anywhere in their lowercased text,
    a term of one group; otherwise 0. *)
Theorem score_industry_exact_related_other
    (lead_industry : string) (target_industries : list string) :
  (exact_match lead_industry target_industries ->
   ScoringEngine._score_industry lead_industry target_industries = 20)
  /\ (~ exact_match lead_industry target_industries ->
      related_match lead_industry target_industries ->
      ScoringEngine._score_industry lead_industry target_industries = 10)
  /\ (~ exact_match lead_industry target_industries ->
      ~ related_match lead_industry target_industries ->
      ScoringEngine._score_industry lead_industry target_industries = 0)
  /\ (ScoringEngine._score_industry "Software" ["software"; "technology"] = 20
      /\ ScoringEngine._score_industry "Banking" ["FinTech"] = 10
      /\ ScoringEngine._score_industry "farming" ["software"; "retail"] = 0).
Proof.
  split; [|split; [|split; [|repeat split; reflexivity]]];
  unfold ScoringEngine._score_industry;
  destruct (existsb _ _) eqn:Hexact.
  all: try (apply exact_match_spec in Hexact; tauto).
  all: assert (Hne : ~ exact_match lead_industry target_industries)
         by (rewrite <- exact_match_spec; congruence).
  all: destruct (ScoringEngine.first_related _ _) eqn:Hrel;
       [ apply first_related_Some, related_match_spec in Hrel
       | apply first_related_None in Hrel; rewrite related_match_spec in Hrel ];
       tauto.
Qed.

(** *** Against the groups of the specification *)

Lemma stands_in_Substring (word_starts : bool) (term s : string) :
  stands_in_from word_starts term s = true -> Substring term s.
Proof.
  revert word_starts. induction s as [|c s IH]; intros word_starts; simpl;
    [discriminate|].
  rewrite orb_true_iff, !andb_true_iff. intros [[[_ Hp] _]|H].
  - apply (startswith_spec term (String c s)) in Hp as [suf Hsuf].
    exists EmptyString, suf. exact Hsuf.
  - destruct (IH _ H) as (pre & suf & ->). now exists (String c pre), suf.
Qed.

Lemma belongs_to_group_mentions (industry : string) (group : list string) :
  belongs_to_group industry group = true ->
  ScoringEngine.any_term group (PyStr.lower industry) = true.
Proof.
  unfold belongs_to_group, ScoringEngine.any_term, names_term.
  rewrite !existsb_exists. intros (term & Hin & H). exists term.
  split; [exact Hin|]. apply contains_spec. eapply stands_in_Substring, H.
Qed.

Lemma share_a_group_related (a b : string) :
  share_a_group a b = true ->
  ScoringEngine._industries_related (PyStr.lower a) (PyStr.lower b) = true.
Proof.
  unfold share_a_group, industry_groups. cbn [existsb].
  rewrite !orb_true_iff, !andb_true_iff. unfold ScoringEngine._industries_related.
  intros [[Ha Hb]|[[Ha Hb]|[[Ha Hb]|H]]]; [| | |discriminate];
    apply belongs_to_group_mentions in Ha, Hb; rewrite Ha, Hb;
    repeat match goal with
           | |- context [ScoringEngine.any_term ?g ?x] =>
               destruct (ScoringEngine.any_term g x)
           end; reflexivity.
Qed.

Lemma existsb_over_map {A B} (f : B -> bool) (g : A -> B) (l : list A) :
  existsb f (map g l) = existsb (fun x => f (g x)) l.
Proof. induction l as [|x l IH]; simpl; [reflexivity | now rewrite IH]. Qed.

(** The code gives every industry at least the points of the
    specification: a term that stands in a name as a word also occurs in
    it. *)
Lemma score_industry_at_least_specified (lead_industry : string)
    (targets : list string) :
  specified_industry_score lead_industry targets
  <= ScoringEngine._score_industry lead_industry targets.
Proof.
  unfold specified_industry_score, ScoringEngine._score_industry.
  rewrite existsb_over_map.
  destruct (existsb _ targets) eqn:Hexact; [vm_compute; discriminate|].
  destruct (existsb (share_a_group lead_industry) targets) eqn:Hshare.
  - apply existsb_exists in Hshare as (target & Hin & Hrel).
    apply share_a_group_related in Hrel.
    destruct (ScoringEngine.first_related _ _) eqn:Hfirst;
      [vm_compute; discriminate|].
    apply first_related_None in Hfirst. exfalso. apply Hfirst.
    apply Stdlib.Lists.List.Exists_exists. exists (PyStr.lower target).
    split; [now apply in_map | now apply industries_related_spec].
  - destruct (ScoringEngine.first_related _ _); vm_compute; discriminate.
Qed.

(** C7. The industry component gives 10 points to industries that belong
    to no common group. A term of a group counts wherever it occurs in
    the lowercased name, also inside a longer word: "hospitality" and
    "fitness" both contain the term "it" of the software group, so a lead
    in Hospitality scores 10 against the target Fitness, and a lead in
    Utilities scores 10 against the target Software, where the industries
    named belong to no group, resp. to no group in common, and the
    component is 0 as specified. The code never gives less than
    specified, and agrees on an exact match and on industries that name a
    term of one group. *)
Theorem score_industry_relates_unrelated :
  ScoringEngine._score_industry "Hospitality" ["Fitness"] = 10
  /\ specified_industry_score "Hospitality" ["Fitness"] = 0
  /\ Forall (fun group => belongs_to_group "Hospitality" group = false
                          /\ belongs_to_group "Fitness" group = false)
            industry_groups
  /\ PyStr.contains "it" (PyStr.lower "Hospitality") = true
  /\ PyStr.contains "it" (PyStr.lower "Fitness") = true
  /\ ScoringEngine._score_industry "Utilities" ["Software"] = 10
  /\ specified_industry_score "Utilities" ["Software"] = 0
  /\ Forall (fun group => belongs_to_group "Utilities" group = false)
            industry_groups
  /\ (ScoringEngine._score_industry "Software" ["software"; "technology"] = 20
      /\ specified_industry_score "Software" ["software"; "technology"] = 20)
  /\ (ScoringEngine._score_industry "Banking" ["FinTech"] = 10
      /\ specified_industry_score "Banking" ["FinTech"] = 10)
  /\ (ScoringEngine._score_industry "IT Services" ["Software Development"] = 10
      /\ specified_industry_score "IT Services" ["Software Development"] = 10)
  /\ (forall lead_industry targets,
        specified_industry_score lead_industry targets
        <= ScoringEngine._score_industry lead_industry targets).
Proof.
  repeat match goal with |- _ /\ _ => split end;
    try (vm_compute; reflexivity);
    try (repeat (apply Forall_cons; split;
                 [first [split; vm_compute; reflexivity | vm_compute; reflexivity]|]);
         apply Forall_nil_2).
  apply score_industry_at_least_specified.
Qed.

(** ** Bounds of the score components *)

Lemma score_role_values (role : string) :
  ScoringEngine._score_role role = 0 \/ ScoringEngine._score_role role = 10
  \/ ScoringEngine._score_role role = 20.
Proof.
  unfold ScoringEngine._score_role.
  repeat match goal with |- context [match ?x with _ => _ end] => destruct x end;
    auto.
Qed.

Lemma score_industry_values (lead_industry : string) (targets : list string) :
  ScoringEngine._score_industry lead_industry targets = 0
  \/ ScoringEngine._score_industry lead_industry targets = 10
  \/ ScoringEngine._score_industry lead_industry targets = 20.
Proof.
  unfold ScoringEngine._score_industry.
  repeat match goal with |- context [match ?x with _ => _ end] => destruct x end;
    auto.
Qed.

Lemma score_completeness_values (lead : LeadModel) :
  ScoringEngine._score_completeness lead = 0
  \/ ScoringEngine._score_completeness lead = 10.
Proof.
  unfold ScoringEngine._score_completeness.
  match goal with |- context [if ?x then _ else _] => destruct x end; auto.
Qed.

Lemma rule_score_bounds (lead : LeadModel) (offer : OfferModel) :
  0 <= fst (ScoringEngine._calculate_rule_score lead offer) <= 50.
Proof.
  unfold ScoringEngine._calculate_rule_score, ScoringConstants.MAX_RULE_SCORE.
  cbn [fst].
  pose proof (score_role_values (lead_role lead)).
  pose proof (score_industry_values (lead_industry lead) (offer_ideal_use_cases offer)).
  pose proof (score_completeness_values lead).
  lia.
Qed.

Lemma intent_score_values (key : string) :
  (key = "high" /\ ScoringEngine.intent_score key = 50)
  \/ (key = "medium" /\ ScoringEngine.intent_score key = 30)
  \/ (key <> "high" /\ key <> "medium" /\ ScoringEngine.intent_score key = 10).
Proof.
  unfold ScoringEngine.intent_score, ScoringConstants.AI_INTENT_SCORES.
  rewrite !lookup_insert, lookup_empty.
  repeat case_decide; subst; simpl; auto; try congruence.
Qed.

Lemma ai_score_values (ai : option Analyzer) (lead : LeadModel)
    (offer : OfferModel) :
  let ai_score := fst (fst (ScoringEngine._calculate_ai_score ai lead offer)) in
  ai_score = 10 \/ ai_score = 30 \/ ai_score = 50.
Proof.
  unfold ScoringEngine._calculate_ai_score.
  destruct ai as [service|]; [|auto].
  destruct (service lead offer) as [[intent reasoning]|e]; cbn [fst]; [|auto].
  destruct (intent_score_values (PyStr.lower intent)) as [[_ ->] | [[_ ->] | (_ & _ & ->)]];
    auto.
Qed.

(** ** The analysis service *)

Ltac st_unfold :=
  unfold mbind, mret, ST_bind, ST_ret, raise, gets, modify, try_except,
    with_tracker, elapse in *.

Lemma bind_Return {S A B} (m : ST S A) (k : A -> ST S B) s b s' :
  (m ≫= k) s = (Return b, s') ->
  exists a s1, m s = (Return a, s1) /\ k a s1 = (Return b, s').
Proof.
  st_unfold. destruct (m s) as [[a|e] s1]; [eauto | discriminate].
Qed.

Lemma bind_Raise {S A B} (m : ST S A) (k : A -> ST S B) s e s' :
  (m ≫= k) s = (Raise e, s') ->
  m s = (Raise e, s')
  \/ exists a s1, m s = (Return a, s1) /\ k a s1 = (Raise e, s').
Proof.
  st_unfold. destruct (m s) as [[a|e0] s1]; [eauto | intros [= <- <-]; auto].
Qed.

Lemma try_except_Return {S A} (body : ST S A) (handler : string -> ST S A)
    s a s' :
  try_except body handler s = (Return a, s') ->
  body s = (Return a, s')
  \/ exists e s1, body s = (Raise e, s1) /\ handler e s1 = (Return a, s').
Proof.
  unfold try_except. destruct (body s) as [[a0|e] s1]; [auto | eauto].
Qed.

Lemma canonical_spec (intent : string) :
  AIService.canonical intent = true <->
  intent = "high" \/ intent = "medium" \/ intent = "low".
Proof.
  unfold AIService.canonical. simpl.
  rewrite !orb_true_iff, !String.eqb_eq. intuition congruence.
Qed.

Lemma parse_text_response_canonical (content : string) :
  AIService.canonical (fst (AIService._parse_text_response content)) = true.
Proof.
  unfold AIService._parse_text_response. cbn [fst].
  repeat match goal with |- context [if ?x then _ else _] => destruct x end;
    reflexivity.
Qed.

Section ServiceFacts.
Variable json_loads : string -> option json.
Variable ai_timeout : Z.

Lemma parse_ai_response_canonical (content : string) :
  AIService.canonical (fst (AIService._parse_ai_response json_loads content)) = true.
Proof.
  unfold AIService._parse_ai_response.
  destruct (AIService.parse_attempt json_loads content) as [[intent reasoning]|];
    [|reflexivity].
  destruct (AIService.canonical intent) eqn:E; simpl; [exact E | reflexivity].
Qed.

Lemma analyze_with_provider_canonical provider client lead offer w r w' :
  AIService._analyze_with_provider json_loads ai_timeout provider client lead offer w
  = (Return r, w') ->
  AIService.canonical (fst r) = true.
Proof.
  unfold AIService._analyze_with_provider. intros H.
  apply try_except_Return in H as [H|(e & s1 & _ & H)]; [|discriminate].
  apply bind_Return in H as (content & s1 & _ & H).
  pose proof (parse_ai_response_canonical content) as Hc.
  destruct (AIService._parse_ai_response json_loads content) as [intent reasoning].
  apply bind_Return in H as (u & s2 & _ & H).
  injection H as <- _. exact Hc.
Qed.

Lemma attempt_canonical provider lead offer w r w' :
  AIService.attempt json_loads ai_timeout provider lead offer w = (Return r, w') ->
  AIService.canonical (fst r) = true.
Proof.
  unfold AIService.attempt. intros H.
  apply bind_Return in H as (u & s1 & _ & H).
  eapply analyze_with_provider_canonical; eauto.
Qed.

Lemma first_answer_returns providers lead offer w :
  exists answer w',
    AIService.first_answer json_loads ai_timeout providers lead offer w
    = (Return answer, w')
    /\ forall r, answer = Some r -> AIService.canonical (fst r) = true.
Proof.
  revert w. induction providers as [|p ps IH]; intros w; simpl.
  - exists None, w. split; [reflexivity | discriminate].
  - st_unfold.
    destruct (AIService.attempt json_loads ai_timeout p lead offer w)
      as [[r|e] w1] eqn:E.
    + exists (Some r), w1. split; [reflexivity|].
      intros r' [= <-]. eapply attempt_canonical; eauto.
    + apply IH.
Qed.

(** whenever the service answers, the intent is canonical *)
Lemma analyze_lead_intent_canonical providers lead offer w r w' :
  AIService.analyze_lead_intent json_loads ai_timeout providers lead offer w
  = (Return r, w') ->
  AIService.canonical (fst r) = true.
Proof.
  unfold AIService.analyze_lead_intent. st_unfold.
  destruct (first_answer_returns providers lead offer w) as (answer & w1 & -> & Hc).
  destruct answer as [r0|].
  - intros [= <- <-]. auto.
  - destruct (AIUsageTracker.log_failure (tracker w1)) as [[u|e] t]; intros [= <- <-];
      reflexivity.
Qed.

End ServiceFacts.

Lemma title_canonical (intent : string) :
  AIService.canonical intent = true ->
  exists level, IntentLevel_of_value (PyStr.title intent) = Return level.
Proof.
  rewrite canonical_spec. intros [-> | [-> | ->]]; [exists HIGH | exists MEDIUM | exists LOW]; reflexivity.
Qed.

(** ** Scoring one lead *)

Section EngineFacts.
Variable repr_other : json -> string.

Lemma total_score_bounds ai lead offer : 10 <= total_score ai lead offer <= 100.
Proof.
  unfold total_score.
  pose proof (rule_score_bounds lead offer).
  pose proof (ai_score_values ai lead offer) as Hai. cbv zeta in Hai. lia.
Qed.

(** scoring raises exactly when the intent names no [IntentLevel]; the
    validation of the score never fails *)
Lemma score_single_lead_unfold ai lead offer :
  ScoringEngine.score_single_lead repr_other ai lead offer =
  match IntentLevel_of_value (PyStr.title (ai_intent ai lead offer)) with
  | Raise e => Raise e
  | Return level =>
      Return {| res_name := lead_name lead; res_role := lead_role lead;
                res_company := lead_company lead; res_intent := level;
                res_score := total_score ai lead offer;
                res_reasoning :=
                  "Rule: " +:+ snd (ScoringEngine._calculate_rule_score lead offer)
                  +:+ ". AI: "
                  +:+ ScoringEngine.format repr_other
                        (snd (fst (ScoringEngine._calculate_ai_score ai lead offer))) |}
  end.
Proof.
  pose proof (total_score_bounds ai lead offer) as Hb.
  unfold ScoringEngine.score_single_lead, ai_intent, total_score in *.
  destruct (ScoringEngine._calculate_rule_score lead offer) as [rule breakdown].
  destruct (ScoringEngine._calculate_ai_score ai lead offer)
    as [[ai_score reasoning] intent].
  cbn [fst snd] in *.
  destruct (IntentLevel_of_value (PyStr.title intent)); [|reflexivity].
  unfold make_LeadScoringResult.
  replace (0 <=? Z.min (rule + ai_score) 100) with true by (symmetry; lia).
  replace (Z.min (rule + ai_score) 100 <=? 100) with true by (symmetry; lia).
  reflexivity.
Qed.

Lemma score_single_lead_score ai lead offer r :
  ScoringEngine.score_single_lead repr_other ai lead offer = Return r ->
  res_score r = total_score ai lead offer.
Proof.
  rewrite score_single_lead_unfold.
  destruct (IntentLevel_of_value _); [|discriminate]. now intros [= <-].
Qed.

Variable json_loads : string -> option json.
Variable ai_timeout : Z.

(** with no service, or with the analysis service, the intent handed
    back is canonical *)
Lemma wired_intent_canonical wiring lead offer :
  AIService.canonical (ai_intent (wired json_loads ai_timeout wiring) lead offer)
  = true.
Proof.
  unfold ai_intent, ScoringEngine._calculate_ai_score.
  destruct wiring as [|providers w]; cbn [wired]; [reflexivity|].
  unfold service_analyzer.
  destruct (AIService.analyze_lead_intent json_loads ai_timeout providers lead offer w)
    as [[[intent reasoning]|e] w'] eqn:E; cbn [fst snd]; [|reflexivity].
  apply analyze_lead_intent_canonical in E. exact E.
Qed.

Lemma wired_score_single_lead_returns wiring lead offer :
  exists r,
    ScoringEngine.score_single_lead repr_other
      (wired json_loads ai_timeout wiring) lead offer = Return r.
Proof.
  rewrite score_single_lead_unfold.
  destruct (title_canonical _ (wired_intent_canonical wiring lead offer))
    as [level ->].
  eauto.
Qed.

End EngineFacts.

(** C1. For every lead and offer the rule score lies in [0,50], the AI
    score in [0,50] and min(rule score + AI score, 100) in [0,100], and
    every result [score_single_lead] returns carries that minimum as its
    score, whatever analyzer is injected. With no service injected or
    with the analysis service (whatever its providers answer),
    [score_single_lead] does return a result. *)
Theorem score_single_lead_total (repr_other : json -> string)
    (lead : LeadModel) (offer : OfferModel) :
  (forall ai : option Analyzer,
     let rule_score := fst (ScoringEngine._calculate_rule_score lead offer) in
     let ai_score := fst (fst (ScoringEngine._calculate_ai_score ai lead offer)) in
     0 <= rule_score <= 50
     /\ 0 <= ai_score <= 50
     /\ 0 <= Z.min (rule_score + ai_score) 100 <= 100
     /\ forall r,
          ScoringEngine.score_single_lead repr_other ai lead offer = Return r ->
          res_score r = Z.min (rule_score + ai_score) 100)
  /\ (forall json_loads ai_timeout wiring,
        exists r,
          ScoringEngine.score_single_lead repr_other
            (wired json_loads ai_timeout wiring) lead offer = Return r
          /\ res_score r =
             Z.min (fst (ScoringEngine._calculate_rule_score lead offer)
                    + fst (fst (ScoringEngine._calculate_ai_score
                                  (wired json_loads ai_timeout wiring) lead offer)))
                   100
          /\ 0 <= res_score r <= 100).
Proof.
  split.
  - intros ai. cbv zeta.
    pose proof (rule_score_bounds lead offer).
    pose proof (ai_score_values ai lead offer) as Hai. cbv zeta in Hai.
    repeat split; try lia.
    intros r Hr. apply (score_single_lead_score _ _ _ _ _ Hr).
  - intros json_loads ai_timeout wiring.
    destruct (wired_score_single_lead_returns repr_other json_loads ai_timeout
                wiring lead offer) as [r Hr].
    exists r. split; [exact Hr|].
    pose proof (score_single_lead_score _ _ _ _ _ Hr) as Hs.
    pose proof (total_score_bounds (wired json_loads ai_timeout wiring) lead offer).
    unfold total_score in *. split; [exact Hs | lia].
Qed.

(** C10. In every branch of the AI scoring (intent found in the table,
    intent not in the table, no service, service raising) the AI component
    is 10, 30 or 50, hence at least 10; the total min(rule + AI, 100) is
    therefore at least 10, so is the score of every result
    [score_single_lead] returns, and with no service or with the analysis
    service it does return one. *)
Theorem score_single_lead_at_least_10 (repr_other : json -> string)
    (lead : LeadModel) (offer : OfferModel) :
  (forall ai : option Analyzer,
     let ai_score := fst (fst (ScoringEngine._calculate_ai_score ai lead offer)) in
     (ai_score = 10 \/ ai_score = 30 \/ ai_score = 50)
     /\ 10 <= Z.min (fst (ScoringEngine._calculate_rule_score lead offer) + ai_score) 100
     /\ forall r,
          ScoringEngine.score_single_lead repr_other ai lead offer = Return r ->
          10 <= res_score r)
  /\ (forall json_loads ai_timeout wiring,
        exists r,
          ScoringEngine.score_single_lead repr_other
            (wired json_loads ai_timeout wiring) lead offer = Return r
          /\ 10 <= res_score r).
Proof.
  assert (Hgen : forall ai r,
             ScoringEngine.score_single_lead repr_other ai lead offer = Return r ->
             10 <= res_score r).
  { intros ai r Hr. rewrite (score_single_lead_score _ _ _ _ _ Hr).
    apply total_score_bounds. }
  split.
  - intros ai. cbv zeta. split; [apply ai_score_values|].
    split; [apply (total_score_bounds ai lead offer) | apply Hgen].
  - intros json_loads ai_timeout wiring.
    destruct (wired_score_single_lead_returns repr_other json_loads ai_timeout
                wiring lead offer) as [r Hr].
    exists r. split; [exact Hr | eapply Hgen; eauto].
Qed.

(** ** Gathering a batch *)

Section GatherFacts.
Context {A : Type}.
Implicit Types (rs : list A) (slots : list (option A)) (order : list nat).

Lemma lookup_map_Return rs (i : nat) :
  map Return rs !! i = Return <$> rs !! i.
Proof.
  revert i. induction rs as [|r rs IH]; intros [|i]; simpl; auto.
Qed.

Lemma complete_all_return rs order slots :
  slots_agree rs slots ->
  exists slots',
    Gather.complete (map Return rs) order slots = Return slots'
    /\ slots_agree rs slots'
    /\ forall i : nat, (i < length rs)%nat -> In i order \/ filled slots i ->
                       filled slots' i.
Proof.
  revert slots. induction order as [|i order IH]; intros slots [Hlen Hag]; simpl.
  - exists slots. repeat split; auto. intros j _ [[]|H]; exact H.
  - rewrite lookup_map_Return.
    destruct (slots !! i) as [[a|]|] eqn:Hs.
    + destruct (IH slots (conj Hlen Hag)) as (slots' & -> & Hag' & Hfill).
      exists slots'. repeat split; try apply Hag'.
      intros j Hj [[<-|Hin]|Hf]; apply Hfill; auto. right. now exists a.
    + assert (Hi : (i < length rs)%nat)
        by (rewrite <- Hlen; eapply lookup_lt_Some; eauto).
      destruct (lookup_lt_is_Some_2 rs i Hi) as [a Ha]. rewrite Ha. simpl.
      destruct (IH (<[i := Some a]> slots)) as (slots' & -> & Hag' & Hfill).
      { split; [now rewrite length_insert|].
        intros j b. destruct (decide (i = j)) as [<-|Hne].
        - rewrite list_lookup_insert_eq by lia. congruence.
        - rewrite list_lookup_insert_ne by assumption. apply Hag. }
      exists slots'. repeat split; try apply Hag'.
      intros j Hj [[<-|Hin]|[b Hb]]; apply Hfill; auto.
      * right. exists a. apply list_lookup_insert_eq. lia.
      * right. destruct (decide (i = j)) as [<-|Hne]; [congruence|].
        exists b. now rewrite list_lookup_insert_ne.
    + destruct (rs !! i) as [a|]; simpl.
      * destruct (IH slots (conj Hlen Hag)) as (slots' & -> & Hag' & Hfill).
        exists slots'. repeat split; try apply Hag'.
        intros j Hj [[<-|Hin]|Hf]; apply Hfill; auto.
        apply lookup_ge_None in Hs. lia.
      * destruct (IH slots (conj Hlen Hag)) as (slots' & -> & Hag' & Hfill).
        exists slots'. repeat split; try apply Hag'.
        intros j Hj [[<-|Hin]|Hf]; apply Hfill; auto.
        apply lookup_ge_None in Hs. lia.
Qed.

Lemma collect_map_Some rs : Gather.collect (map Some rs) = Return rs.
Proof. induction rs as [|r rs IH]; simpl; [reflexivity | now rewrite IH]. Qed.

(** when no task raises, the results come back in the order of
    submission, whatever the order of completion *)
Lemma gather_all_return rs order :
  Gather.gather (map Return rs) order = Return rs.
Proof.
  unfold Gather.gather. rewrite length_map.
  destruct (complete_all_return rs (order ++ seq 0 (length rs))
              (replicate (length rs) None)) as (slots' & -> & [Hlen Hag] & Hfill).
  { split; [apply length_replicate|].
    intros i a H. apply lookup_replicate in H as [? _]. discriminate. }
  replace slots' with (map Some rs); [apply collect_map_Some|].
  apply list_eq. intros i.
  destruct (decide (i < length rs)%nat) as [Hi|Hi].
  - destruct (Hfill i Hi) as [a Ha].
    { left. apply in_or_app. right. apply in_seq. lia. }
    rewrite Ha. apply Hag in Ha.
    clear -Ha. revert i Ha. induction rs as [|r rs IH]; intros [|i]; simpl;
      try discriminate; [congruence | apply IH].
  - rewrite !lookup_ge_None_2; [reflexivity | lia | rewrite length_map; lia].
Qed.

End GatherFacts.

(** ** Scoring a list of leads *)

Section BatchFacts.
Variable repr_other : json -> string.
Variable ai : option Analyzer.
Variable offer : OfferModel.

Lemma tasks_all_return leads rs :
  Forall2 (scored repr_other ai offer) leads rs ->
  map (fun lead => ScoringEngine.score_single_lead repr_other ai lead offer) leads
  = map Return rs.
Proof.
  induction 1 as [|lead r leads rs H _ IH]; simpl; [reflexivity|].
  unfold scored in H. now rewrite H, IH.
Qed.

Lemma score_batch_in_order leads rs order :
  Forall2 (scored repr_other ai offer) leads rs ->
  ScoringEngine._score_batch repr_other ai leads offer order = Return rs.
Proof.
  intros H. unfold ScoringEngine._score_batch.
  rewrite (tasks_all_return _ _ H). apply gather_all_return.
Qed.

Lemma score_batches_prefix leads rs orders (count first : nat) :
  Forall2 (scored repr_other ai offer) leads rs ->
  ScoringEngine.score_batches repr_other ai
    (map (fun k => (k * ScoringEngine.batch_size)%nat) (seq first count))
    leads offer orders (take (first * ScoringEngine.batch_size) rs)
  = Return (take ((first + count) * ScoringEngine.batch_size) rs).
Proof.
  intros H. revert first. induction count as [|count IH]; intros first; simpl.
  - now rewrite Nat.add_0_r.
  - unfold ScoringEngine.slice.
    rewrite (score_batch_in_order _
               (take (first * ScoringEngine.batch_size + ScoringEngine.batch_size
                      - first * ScoringEngine.batch_size)
                     (drop (first * ScoringEngine.batch_size) rs))).
    + rewrite take_take_drop.
      replace (first * ScoringEngine.batch_size
               + (first * ScoringEngine.batch_size + ScoringEngine.batch_size
                  - first * ScoringEngine.batch_size))%nat
        with (S first * ScoringEngine.batch_size)%nat by lia.
      rewrite IH. f_equal. f_equal. lia.
    + apply Forall2_take, Forall2_drop, H.
Qed.

Lemma score_leads_in_order leads rs orders :
  Forall2 (scored repr_other ai offer) leads rs ->
  ScoringEngine.score_leads repr_other ai leads offer orders = Return rs.
Proof.
  intros H. unfold ScoringEngine.score_leads, ScoringEngine.range_step.
  rewrite (score_batches_prefix leads rs orders _ 0 H).
  f_equal. apply take_ge. rewrite <- (Forall2_length _ _ _ H).
  unfold ScoringEngine.batch_size.
  pose proof (Nat.div_mod_eq (length leads + 10 - 1) 10).
  pose proof (Nat.mod_upper_bound (length leads + 10 - 1) 10 ltac:(lia)). lia.
Qed.

End BatchFacts.

(** C4. [score_leads] returns a list as long as the list of leads whose
    element at each index is the scoring result of the lead at that index,
    whatever the order in which the concurrent tasks of a batch finish:
    for any analyzer when no lead's scoring raises, and always with no
    service or with the analysis service. *)
Theorem score_leads_keeps_order (repr_other : json -> string)
    (offer : OfferModel) (leads : list LeadModel) (orders : nat -> list nat) :
  (forall (ai : option Analyzer) (rs : list LeadScoringResult),
     Forall2 (scored repr_other ai offer) leads rs ->
     ScoringEngine.score_leads repr_other ai leads offer orders = Return rs)
  /\ (forall json_loads ai_timeout wiring,
        exists rs,
          ScoringEngine.score_leads repr_other (wired json_loads ai_timeout wiring)
            leads offer orders = Return rs
          /\ length rs = length leads
          /\ forall (i : nat) lead,
               leads !! i = Some lead ->
               exists r,
                 rs !! i = Some r
                 /\ ScoringEngine.score_single_lead repr_other
                      (wired json_loads ai_timeout wiring) lead offer = Return r).
Proof.
  split.
  - intros ai rs H. now apply score_leads_in_order.
  - intros json_loads ai_timeout wiring.
    assert (Hall : exists rs,
               Forall2 (scored repr_other (wired json_loads ai_timeout wiring) offer)
                       leads rs).
    { induction leads as [|lead ls IH]; [exists []; constructor|].
      destruct IH as [rs Hrs].
      destruct (wired_score_single_lead_returns repr_other json_loads ai_timeout
                  wiring lead offer) as [r Hr].
      exists (r :: rs). now constructor. }
    destruct Hall as [rs Hrs]. exists rs.
    split; [now apply score_leads_in_order|].
    split; [symmetry; eapply Forall2_length; eauto|].
    intros i lead Hi.
    destruct (Forall2_lookup_l _ _ _ _ _ Hrs Hi) as (r & Hr & Hs). eauto.
Qed.

(** ** Parsing a provider's reply *)

Lemma split_char_first (sep : ascii) (s : string) :
  exists rest, PyStr.split_char sep s = before_char sep s :: rest.
Proof.
  induction s as [|c s [rest IH]]; simpl; [eauto|].
  destruct (Ascii.eqb c sep); [eauto|]. rewrite IH. eauto.
Qed.

Lemma parse_text_response_spec (content : string) :
  exists intent,
    AIService._parse_text_response content
    = (intent, JStr (PyStr.strip (before_char "." content)))
    /\ (Substring "high" (PyStr.lower content) -> intent = "high")
    /\ (~ Substring "high" (PyStr.lower content) ->
        Substring "medium" (PyStr.lower content) -> intent = "medium")
    /\ (~ Substring "high" (PyStr.lower content) ->
        ~ Substring "medium" (PyStr.lower content) -> intent = "low").
Proof.
  unfold AIService._parse_text_response.
  destruct (split_char_first "." content) as [rest ->].
  pose proof (contains_spec "high" (PyStr.lower content)) as Hh.
  pose proof (contains_spec "medium" (PyStr.lower content)) as Hm.
  destruct (PyStr.contains "high" _), (PyStr.contains "medium" _);
    eexists; (split; [reflexivity|]); repeat split; intros;
    try reflexivity; exfalso; intuition congruence.
Qed.

(** C5, as the code has it. A reply that, trimmed, does not open and close
    with a brace is scanned: the intent is high when the lowercased text
    contains "high", else medium when it contains "medium", else low, and
    the reasoning is the trimmed text in front of the first period. A
    reply that does open and close with a brace is given to the JSON
    parser and is never scanned: when the parser fails, or the intent
    field is not a string, the result is low with the reasoning "Failed to
    parse AI analysis"; otherwise the intent field is lowercased and
    replaced by low when it is not high, medium or low. In every case the
    intent returned is one of the three. *)
Theorem parse_ai_response_cases (json_loads : string -> option json)
    (content : string) :
  (looks_like_json content = false ->
   exists intent,
     AIService._parse_ai_response json_loads content
     = (intent, JStr (PyStr.strip (before_char "." content)))
     /\ (Substring "high" (PyStr.lower content) -> intent = "high")
     /\ (~ Substring "high" (PyStr.lower content) ->
         Substring "medium" (PyStr.lower content) -> intent = "medium")
     /\ (~ Substring "high" (PyStr.lower content) ->
         ~ Substring "medium" (PyStr.lower content) -> intent = "low"))
  /\ (looks_like_json content = true ->
      AIService._parse_ai_response json_loads content =
      match json_loads content with
      | Some (JObj data) =>
          match dict_get "intent" data (JStr "Low") with
          | JStr intent =>
              (if AIService.canonical (PyStr.lower intent)
               then PyStr.lower intent else "low",
               dict_get "reasoning" data (JStr "Analysis completed"))
          | _ => parse_failure
          end
      | _ => parse_failure
      end)
  /\ AIService.canonical (fst (AIService._parse_ai_response json_loads content))
     = true.
Proof.
  split; [|split; [|apply parse_ai_response_canonical]];
    unfold AIService._parse_ai_response, AIService.parse_attempt;
    fold (looks_like_json content); intros ->.
  - destruct (parse_text_response_spec content) as (intent & E & H).
    exists intent. rewrite E. split; [|exact H].
    pose proof (parse_text_response_canonical content) as Hc.
    rewrite E in Hc. cbn [fst] in Hc. now rewrite Hc.
  - destruct (json_loads content) as [[| | | | |data]|]; try reflexivity.
    destruct (dict_get "intent" data (JStr "Low")) as [| | |intent| |];
      try reflexivity.
    destruct (AIService.canonical (PyStr.lower intent)); reflexivity.
Qed.

(** C5, as stated, fails: the reply [{high}] is not JSON, contains "high",
    and is answered with low and the parse-failure reasoning, where the
    scan of the text gives high. *)
Lemma parse_failure_not_scanned :
  Json.loads "{high}" = None
  /\ AIService._parse_ai_response Json.loads "{high}"
     = ("low", JStr "Failed to parse AI analysis")
  /\ AIService._parse_text_response "{high}" = ("high", JStr "{high}")
  /\ ~ (forall content,
          Json.loads content = None ->
          AIService._parse_ai_response Json.loads content
          = AIService._parse_text_response content).
Proof.
  assert (Hloads : Json.loads "{high}" = None) by (vm_compute; reflexivity).
  assert (Hparse : AIService._parse_ai_response Json.loads "{high}"
                   = ("low", JStr "Failed to parse AI analysis"))
    by (vm_compute; reflexivity).
  assert (Hscan : AIService._parse_text_response "{high}" = ("high", JStr "{high}"))
    by (vm_compute; reflexivity).
  split; [exact Hloads|]. split; [exact Hparse|]. split; [exact Hscan|].
  intros H. specialize (H "{high}" Hloads). rewrite Hparse, Hscan in H.
  discriminate.
Qed.

Example parse_ai_response_json :
  AIService._parse_ai_response Json.loads
    ("{" +:+ quote +:+ "intent" +:+ quote +:+ ": " +:+ quote +:+ "High" +:+ quote
     +:+ ", " +:+ quote +:+ "reasoning" +:+ quote +:+ ": "
     +:+ quote +:+ "Decision maker in the target industry" +:+ quote +:+ "}")
  = ("high", JStr "Decision maker in the target industry")
  /\ AIService._parse_ai_response Json.loads
       ("{" +:+ quote +:+ "intent" +:+ quote +:+ ": " +:+ quote +:+ "Maybe" +:+ quote
        +:+ "}")
     = ("low", JStr "Analysis completed")
  /\ AIService._parse_ai_response Json.loads "Medium fit. The role is junior."
     = ("medium", JStr "Medium fit").
Proof. repeat split; vm_compute; reflexivity. Qed.

(** ** What a computation leaves unchanged *)

Section Preservation.
Context {S : Type} (P : S -> S -> Prop).
Hypothesis P_refl : forall s, P s s.
Hypothesis P_trans : forall s1 s2 s3, P s1 s2 -> P s2 s3 -> P s1 s3.

Lemma preserves_ret {A} (a : A) : preserves P (mret a).
Proof. intros s r s' [= _ <-]. apply P_refl. Qed.

Lemma preserves_raise {A} (e : string) : preserves P (@raise S A e).
Proof. intros s r s' [= _ <-]. apply P_refl. Qed.

Lemma preserves_gets {A} (f : S -> A) : preserves P (gets f).
Proof. intros s r s' [= _ <-]. apply P_refl. Qed.

Lemma preserves_bind {A B} (m : ST S A) (k : A -> ST S B) :
  preserves P m -> (forall a, preserves P (k a)) -> preserves P (m ≫= k).
Proof.
  intros Hm Hk s r s'. st_unfold.
  destruct (m s) as [[a|e] s1] eqn:E.
  - intros H. eapply P_trans; [eapply Hm | eapply Hk]; eauto.
  - intros [= _ <-]. eapply Hm; eauto.
Qed.

Lemma preserves_try_except {A} (body : ST S A) (handler : string -> ST S A) :
  preserves P body -> (forall e, preserves P (handler e)) ->
  preserves P (try_except body handler).
Proof.
  intros Hb Hh s r s'. unfold try_except.
  destruct (body s) as [[a|e] s1] eqn:E.
  - intros [= _ <-]. eapply Hb; eauto.
  - intros H. eapply P_trans; [eapply Hb | eapply Hh]; eauto.
Qed.

End Preservation.

Lemma same_failures_refl t : same_failures t t.
Proof. split; reflexivity. Qed.

Lemma same_failures_trans t1 t2 t3 :
  same_failures t1 t2 -> same_failures t2 t3 -> same_failures t1 t3.
Proof. unfold same_failures. intros [-> ->] [-> ->]. auto. Qed.

Lemma gets_same {A} (f : Tracker -> A) : preserves same_failures (gets f).
Proof. apply preserves_gets, same_failures_refl. Qed.

Lemma getitem_same l k : preserves same_failures (AIUsageTracker.getitem l k).
Proof.
  intros t r t'. unfold AIUsageTracker.getitem.
  destruct (heap t !! l) as [d|]; [destruct (d !! k)|]; intros [= _ <-];
    apply same_failures_refl.
Qed.

Lemma as_dict_same v : preserves same_failures (AIUsageTracker.as_dict v).
Proof.
  destruct v; simpl;
    first [apply preserves_ret | apply preserves_raise]; apply same_failures_refl.
Qed.

Lemma lift_same {A} (r : result A) :
  preserves same_failures (AIUsageTracker.lift r).
Proof. intros t r' t' [= _ <-]. apply same_failures_refl. Qed.

Lemma py_add_same a b : preserves same_failures (AIUsageTracker.py_add a b).
Proof.
  destruct a, b; simpl;
    first [ apply preserves_ret | apply preserves_raise
          | apply preserves_bind;
            [apply same_failures_trans | apply lift_same
            | intros ?; apply preserves_ret] ];
    apply same_failures_refl.
Qed.

Lemma setitem_same l k v :
  k <> "failures" -> preserves same_failures (AIUsageTracker.setitem l k v).
Proof.
  intros Hk t r t'. unfold AIUsageTracker.setitem.
  destruct (heap t !! l) as [d|] eqn:Hd; intros [= _ <-];
    [|apply same_failures_refl].
  split; [reflexivity|].
  unfold AIUsageTracker.failures, AIUsageTracker.read. cbn [heap usage].
  destruct (decide (l = usage t)) as [->|Hne].
  - rewrite lookup_insert_eq, Hd. simpl. now rewrite lookup_insert_ne.
  - now rewrite lookup_insert_ne.
Qed.

Lemma add_nested_same k1 k2 v :
  k2 <> "failures" -> preserves same_failures (AIUsageTracker.add_nested k1 k2 v).
Proof.
  intros Hk. unfold AIUsageTracker.add_nested.
  repeat (apply preserves_bind; [apply same_failures_trans| |intros ?]);
    auto using getitem_same, as_dict_same, py_add_same, setitem_same, gets_same.
Qed.

Lemma log_usage_same provider input_tokens output_tokens :
  preserves same_failures
    (AIUsageTracker.log_usage provider input_tokens output_tokens).
Proof.
  unfold AIUsageTracker.log_usage.
  do 2 (apply preserves_bind;
        [apply same_failures_trans | apply add_nested_same; discriminate | intros ?]).
  destruct (String.eqb provider "openai");
    [ apply preserves_bind;
      [ apply same_failures_trans | apply lift_same
      | intros ?; apply add_nested_same; discriminate ]
    | apply preserves_ret, same_failures_refl ].
Qed.

(** ** Exhausting the providers *)

Lemma same_failures_w_refl w : same_failures_w w w.
Proof. apply same_failures_refl. Qed.

Lemma same_failures_w_trans w1 w2 w3 :
  same_failures_w w1 w2 -> same_failures_w w2 w3 -> same_failures_w w1 w3.
Proof. apply same_failures_trans. Qed.

Lemma with_tracker_same {A} (m : ST Tracker A) :
  preserves same_failures m -> preserves same_failures_w (with_tracker m).
Proof.
  intros Hm w r w'. unfold with_tracker.
  destruct (m (tracker w)) as [r0 t] eqn:E. intros [= _ <-].
  unfold same_failures_w. cbn [tracker]. eapply Hm; eauto.
Qed.

Lemma elapse_same d : preserves same_failures_w (elapse d).
Proof. intros w r w' [= _ <-]. apply same_failures_refl. Qed.

Section ExhaustionFacts.
Variable json_loads : string -> option json.
Variable ai_timeout : Z.

Lemma check_rate_limit_same provider :
  preserves same_failures_w (AIService.check_rate_limit provider).
Proof.
  intros w r w'. unfold AIService.check_rate_limit.
  destruct (SmartRateLimiter.check_rate_limit provider (clock w) (limiter w))
    as [[sleep_time|e] table]; intros [= _ <-]; apply same_failures_refl.
Qed.

Lemma wait_for_same client prompt :
  preserves same_failures_w (AIService.wait_for ai_timeout client prompt).
Proof.
  unfold AIService.wait_for.
  destruct (latency (client prompt) <? _).
  - apply preserves_bind; [apply same_failures_w_trans | apply elapse_same |].
    intros _. destruct (text (client prompt));
      [apply preserves_ret | apply preserves_raise]; apply same_failures_w_refl.
  - apply preserves_bind; [apply same_failures_w_trans | apply elapse_same |].
    intros _. apply preserves_raise, same_failures_w_refl.
Qed.

Lemma analyze_with_provider_same provider client lead offer :
  preserves same_failures_w
    (AIService._analyze_with_provider json_loads ai_timeout provider client lead offer).
Proof.
  unfold AIService._analyze_with_provider.
  apply preserves_try_except; [apply same_failures_w_trans | |].
  - apply preserves_bind; [apply same_failures_w_trans | |].
    + repeat match goal with |- context [if ?b then _ else _] => destruct b end;
        try (apply preserves_raise, same_failures_w_refl);
        (apply preserves_bind;
         [ apply same_failures_w_trans | apply wait_for_same
         | intros ?; apply preserves_ret, same_failures_w_refl ]).
    + intros content.
      destruct (AIService._parse_ai_response json_loads content) as [intent reasoning].
      apply preserves_bind; [apply same_failures_w_trans | |].
      * apply with_tracker_same, log_usage_same.
      * intros _. apply preserves_ret, same_failures_w_refl.
  - intros e. apply preserves_raise, same_failures_w_refl.
Qed.

Lemma attempt_same provider lead offer :
  preserves same_failures_w
    (AIService.attempt json_loads ai_timeout provider lead offer).
Proof.
  unfold AIService.attempt.
  apply preserves_bind; [apply same_failures_w_trans | apply check_rate_limit_same |].
  intros _. apply analyze_with_provider_same.
Qed.

Lemma first_answer_same providers lead offer :
  preserves same_failures_w
    (AIService.first_answer json_loads ai_timeout providers lead offer).
Proof.
  induction providers as [|p ps IH]; simpl.
  - apply preserves_ret, same_failures_w_refl.
  - apply preserves_try_except; [apply same_failures_w_trans | | intros _; exact IH].
    apply preserves_bind; [apply same_failures_w_trans | apply attempt_same |].
    intros r. apply preserves_ret, same_failures_w_refl.
Qed.

(** the loop ends without an answer exactly when every attempt raised *)
Lemma first_answer_exhausted providers lead offer w w' :
  exhausted json_loads ai_timeout lead offer providers w w' <->
  AIService.first_answer json_loads ai_timeout providers lead offer w
  = (Return None, w').
Proof.
  split.
  - induction 1 as [w|p ps w e w1 w' Hp _ IH]; simpl; [reflexivity|].
    unfold try_except. st_unfold. now rewrite Hp.
  - revert w. induction providers as [|p ps IH]; intros w; simpl.
    + intros [= <-]. constructor.
    + unfold try_except. st_unfold.
      destruct (AIService.attempt json_loads ai_timeout p lead offer w)
        as [[r|e] w1] eqn:E; [discriminate|].
      intros H. econstructor; eauto.
Qed.

End ExhaustionFacts.

Lemma log_failure_increments t n :
  AIUsageTracker.failures t = Some (VInt n) ->
  exists t',
    AIUsageTracker.log_failure t = (Return tt, t')
    /\ AIUsageTracker.failures t' = Some (VInt (n + 1)).
Proof.
  unfold AIUsageTracker.failures, AIUsageTracker.read. intros H.
  destruct (heap t !! usage t) as [d|] eqn:Hd; [|discriminate]. simpl in H.
  unfold AIUsageTracker.log_failure, AIUsageTracker.getitem, AIUsageTracker.setitem.
  st_unfold. rewrite Hd, H. simpl. rewrite Hd.
  eexists. split; [reflexivity|]. cbn [heap usage].
  rewrite lookup_insert_eq. simpl. now rewrite lookup_insert_eq.
Qed.

(** when a provider answers, the answer is returned and the failure
    counter is left alone, however many providers failed before it *)
Lemma analyze_lead_intent_answered json_loads ai_timeout providers lead offer
    w r w1 :
  AIService.first_answer json_loads ai_timeout providers lead offer w
  = (Return (Some r), w1) ->
  AIService.analyze_lead_intent json_loads ai_timeout providers lead offer w
  = (Return r, w1)
  /\ failure_count w1 = failure_count w.
Proof.
  intros H. split.
  - unfold AIService.analyze_lead_intent. st_unfold. now rewrite H.
  - apply first_answer_same in H. apply H.
Qed.

(** C2. When the attempt on every configured provider fails,
    [analyze_lead_intent] does not raise: it returns exactly ("low", "AI
    services unavailable - conservative scoring applied"), and the failure
    counter has grown by one, whatever the number of providers that
    failed. *)
Theorem analyze_lead_intent_exhausted (json_loads : string -> option json)
    (ai_timeout : Z) (providers : list (string * Client))
    (lead : LeadModel) (offer : OfferModel) (w w1 : World) (n : Z) :
  exhausted json_loads ai_timeout lead offer providers w w1 ->
  failure_count w = Some (VInt n) ->
  exists w',
    AIService.analyze_lead_intent json_loads ai_timeout providers lead offer w
    = (Return ("low", JStr "AI services unavailable - conservative scoring applied"),
       w')
    /\ failure_count w' = Some (VInt (n + 1))
    /\ clock w' = clock w1 /\ limiter w' = limiter w1.
Proof.
  intros Hex Hn.
  apply first_answer_exhausted in Hex.
  pose proof (first_answer_same _ _ _ _ _ _ _ _ Hex) as [_ Hsame].
  unfold failure_count in *. rewrite <- Hsame in Hn.
  destruct (log_failure_increments _ _ Hn) as (t' & Hlog & Hcount).
  unfold AIService.analyze_lead_intent. st_unfold. rewrite Hex, Hlog.
  eexists. split; [reflexivity|]. cbn [tracker clock limiter]. auto.
Qed.

Lemma analyze_lead_intent_exhausted_witness :
  exists w',
    AIService.analyze_lead_intent Json.loads 15
      [("gemini", failing_client); ("openai", slow_client)]
      sample_lead sample_offer fresh_world
    = (Return ("low", JStr "AI services unavailable - conservative scoring applied"),
       w')
    /\ failure_count w' = Some (VInt (0 + 1))
    /\ clock w' = 15100000
    /\ limiter w' = <["gemini" := [0]]> (<["openai" := [100000]]> ∅).
Proof.
  refine (analyze_lead_intent_exhausted Json.loads 15
            [("gemini", failing_client); ("openai", slow_client)]
            sample_lead sample_offer fresh_world
            {| clock := 15100000;
               limiter := <["gemini" := [0]]> (<["openai" := [100000]]> ∅);
               tracker := AIUsageTracker.initial |} 0 _ _).
  - apply first_answer_exhausted. vm_compute. reflexivity.
  - vm_compute. reflexivity.
Defined.

(** ** Replies that leave the reasoning empty *)

(** C8 at its failing inputs: the intent is canonical, but the reasoning is
    empty for an empty reply and for a reply that begins with a period,
    and a JSON reply decides the reasoning by itself, empty or [null]
    included. *)
Lemma analyze_lead_intent_empty_reasoning :
  fst (AIService.analyze_lead_intent Json.loads 15
         [("openai", replying_client "")] sample_lead sample_offer fresh_world)
  = Return ("low", JStr "")
  /\ fst (AIService.analyze_lead_intent Json.loads 15
            [("gemini", replying_client "...High intent, a decision maker.")]
            sample_lead sample_offer fresh_world)
     = Return ("high", JStr "")
  /\ fst (AIService.analyze_lead_intent Json.loads 15
            [("gemini",
              replying_client
                ("{" +:+ quote +:+ "intent" +:+ quote +:+ ": "
                 +:+ quote +:+ "High" +:+ quote +:+ ", "
                 +:+ quote +:+ "reasoning" +:+ quote +:+ ": "
                 +:+ quote +:+ quote +:+ "}"))]
            sample_lead sample_offer fresh_world)
     = Return ("high", JStr "")
  /\ fst (AIService.analyze_lead_intent Json.loads 15
            [("gemini",
              replying_client
                ("{" +:+ quote +:+ "intent" +:+ quote +:+ ": "
                 +:+ quote +:+ "High" +:+ quote +:+ ", "
                 +:+ quote +:+ "reasoning" +:+ quote +:+ ": null}"))]
            sample_lead sample_offer fresh_world)
     = Return ("high", JNull).
Proof. repeat split; vm_compute; reflexivity. Qed.

(** ** Snapshots of the usage tracker *)

(** C9 at its failing input: the dictionary [get_stats] returns shares the
    per-provider dictionaries with the tracker. After [log_usage] the
    snapshot taken before reads one call instead of none, and a write
    through the snapshot changes what the tracker reports. Only the
    failure counter, stored in the copied dictionary itself, and a
    snapshot taken before [reset_stats] stay as they were. *)
Lemma get_stats_snapshot_is_shallow :
  let '(snapshot, t1) := AIUsageTracker.get_stats AIUsageTracker.initial in
  let t2 := snd (AIUsageTracker.log_usage "gemini" 100 50 t1) in
  let t3 := snd (store_nested 3 "openai" "calls" (VInt 99) t1) in
  let t4 := snd (AIUsageTracker.log_failure t1) in
  let t5 := snd (AIUsageTracker.log_usage "gemini" 100 50
                   (snd (AIUsageTracker.reset_stats t1))) in
  snapshot = Return 3%nat
  /\ AIUsageTracker.read2 t1 3 "gemini" "calls" = Some (VInt 0)
  /\ AIUsageTracker.read2 t2 3 "gemini" "calls" = Some (VInt 1)
  /\ AIUsageTracker.read2 t2 3 "gemini" "tokens" = Some (VInt 150)
  /\ AIUsageTracker.read2 t1 (usage t1) "openai" "calls" = Some (VInt 0)
  /\ AIUsageTracker.read2 t3 (usage t3) "openai" "calls" = Some (VInt 99)
  /\ AIUsageTracker.failures t4 = Some (VInt 1)
  /\ AIUsageTracker.read t4 3 "failures" = Some (VInt 0)
  /\ AIUsageTracker.read2 t5 (usage t5) "gemini" "calls" = Some (VInt 1)
  /\ AIUsageTracker.read2 t5 3 "gemini" "calls" = Some (VInt 0).
Proof. vm_compute. repeat split; reflexivity. Qed.

(** ** Admission by the rate limiter *)

(** when the window is full the call sleeps 60 seconds less the whole
    seconds since the oldest entry, which is long enough for that entry to
    leave the window, and then records the instant at which it was
    entered *)
Lemma check_rate_limit_full provider now table calls oldest rest :
  table !! provider = Some calls ->
  SmartRateLimiter.recent now calls = oldest :: rest ->
  SmartRateLimiter.max_calls provider <= Z.of_nat (length (oldest :: rest)) ->
  oldest <= now ->
  let sleep_time := 60 - SmartRateLimiter.timedelta_seconds (now - oldest) in
  SmartRateLimiter.check_rate_limit provider now table
  = (Return (Some sleep_time),
     <[provider := ((oldest :: rest) ++ [now])%list]>
       (<[provider := oldest :: rest]> table))
  /\ sleep_time * SmartRateLimiter.second
     = SmartRateLimiter.slept (Some sleep_time)
  /\ SmartRateLimiter.window <=
     now + SmartRateLimiter.slept (Some sleep_time) - oldest
     < SmartRateLimiter.window + SmartRateLimiter.second.
Proof.
  intros Ht Hrecent Hfull Hle. cbv zeta.
  assert (Hin : now - oldest < SmartRateLimiter.window).
  { assert (H : oldest ∈ SmartRateLimiter.recent now calls)
      by (rewrite Hrecent; left).
    unfold SmartRateLimiter.recent in H. apply list_elem_of_filter in H. tauto. }
  unfold SmartRateLimiter.check_rate_limit. rewrite Ht, Hrecent.
  replace (Z.of_nat (length (oldest :: rest)) >=? SmartRateLimiter.max_calls provider)
    with true by (symmetry; lia).
  unfold SmartRateLimiter.timedelta_seconds, SmartRateLimiter.slept,
    SmartRateLimiter.window, SmartRateLimiter.second in *.
  pose proof (Z.div_mod (now - oldest) 1000000 ltac:(lia)).
  pose proof (Z.mod_pos_bound (now - oldest) 1000000 ltac:(lia)).
  assert (0 <= (now - oldest) `div` 1000000 < 60)
    by (split; [apply Z.div_pos; lia | apply Z.div_lt_upper_bound; lia]).
  rewrite (Z.mod_small ((now - oldest) `div` 1000000) 86400) by lia.
  repeat split; try lia.
Qed.

(** C3 at its failing input: one task calls the limiter of the provider
    gemini, ceiling 10, ten times at instant 0, once 30 seconds later and
    ten more times without pause. The eleventh call sleeps until second
    60 but is recorded at second 30, so nine calls pass at second 60 and
    the twenty-first is held only until second 90: eleven calls are let
    through within the 60 seconds that end there. *)
Lemma rate_limiter_exceeds_ceiling :
  let admitted :=
    SmartRateLimiter.admissions "gemini" burst 0 SmartRateLimiter.init in
  admitted =
    (repeat 0 10 ++ repeat (60 * SmartRateLimiter.second) 10
     ++ [90 * SmartRateLimiter.second])%list
  /\ SmartRateLimiter.admitted_in_window (90 * SmartRateLimiter.second) admitted
     = 11%nat
  /\ SmartRateLimiter.max_calls "gemini" = 10.
Proof. vm_compute. repeat split; reflexivity. Qed.

(** * Further properties of the scoring core *)

(** ** The rule score *)

Lemma truthy_spec (s : string) : PyStr.truthy s = true <-> s <> "".
Proof. destruct s; simpl; split; congruence. Qed.

Lemma strip_empty : PyStr.strip "" = "".
Proof. reflexivity. Qed.

Lemma field_filled_spec (field : string) :
  PyStr.truthy field && PyStr.truthy (PyStr.strip field) = true <-> ~ blank field.
Proof.
  unfold blank. rewrite andb_true_iff, !truthy_spec. split; [tauto|].
  intros H. split; [|exact H]. intros ->. now apply H.
Qed.

(** X1. The completeness component is 10 exactly when none of the six
    fields of the lead is blank (empty once trimmed), and 0 exactly when
    one of them is. *)
Theorem score_completeness_all_or_nothing (lead : LeadModel) :
  (ScoringEngine._score_completeness lead = 10
   <-> Forall (fun field => ~ blank field) (required_fields lead))
  /\ (ScoringEngine._score_completeness lead = 0
      <-> Exists blank (required_fields lead)).
Proof.
  unfold ScoringEngine._score_completeness, ScoringConstants.COMPLETE_DATA_POINTS.
  fold (required_fields lead).
  rewrite Stdlib.Lists.List.Forall_forall, Stdlib.Lists.List.Exists_exists.
  destruct (forallb _ (required_fields lead)) eqn:E.
  - rewrite forallb_forall in E.
    assert (H : forall f, In f (required_fields lead) -> ~ blank f)
      by (intros f Hf; apply field_filled_spec, E, Hf).
    split; split; try tauto; try discriminate.
    intros (f & Hf & Hb). exfalso. exact (H f Hf Hb).
  - assert (H : exists f, In f (required_fields lead) /\ blank f).
    { induction (required_fields lead) as [|f fs IH]; [discriminate|].
      simpl in E. apply andb_false_iff in E as [E|E].
      - exists f. split; [now left|].
        destruct (PyStr.strip f) eqn:Es; [exact Es|].
        assert (Hf : ~ blank f) by (unfold blank; congruence).
        apply field_filled_spec in Hf. congruence.
      - destruct (IH E) as (x & Hx & Hb). exists x. split; [now right | exact Hb]. }
    split; split; try tauto; try discriminate.
    intros Hall. exfalso. destruct H as (f & Hf & Hb). exact (Hall f Hf Hb).
Qed.

(** X2. The rule score is the plain sum of the role, industry and
    completeness components: the cap at [MAX_RULE_SCORE] never takes
    anything away. The breakdown lists the three components in that
    order. *)
Theorem rule_score_is_sum (lead : LeadModel) (offer : OfferModel) :
  let role_score := ScoringEngine._score_role (lead_role lead) in
  let industry_score :=
    ScoringEngine._score_industry (lead_industry lead) (offer_ideal_use_cases offer) in
  let completeness_score := ScoringEngine._score_completeness lead in
  ScoringEngine._calculate_rule_score lead offer
  = (role_score + industry_score + completeness_score,
     "Role: " +:+ PyStr.of_Z role_score +:+ "pts | Industry: "
     +:+ PyStr.of_Z industry_score +:+ "pts | Completeness: "
     +:+ PyStr.of_Z completeness_score +:+ "pts").
Proof.
  cbv zeta. unfold ScoringEngine._calculate_rule_score, ScoringConstants.MAX_RULE_SCORE.
  pose proof (score_role_values (lead_role lead)).
  pose proof (score_industry_values (lead_industry lead) (offer_ideal_use_cases offer)).
  pose proof (score_completeness_values lead).
  f_equal; [lia|]. simpl. now rewrite !append_assoc.
Qed.

(** X3. The score of a result is the plain sum of the rule score and the
    AI score, for any injected analyzer: the cap at 100 never takes
    anything away. *)
Theorem total_score_is_sum (repr_other : json -> string)
    (ai : option Analyzer) (lead : LeadModel) (offer : OfferModel) :
  let total :=
    ScoringEngine._score_role (lead_role lead)
    + ScoringEngine._score_industry (lead_industry lead) (offer_ideal_use_cases offer)
    + ScoringEngine._score_completeness lead
    + fst (fst (ScoringEngine._calculate_ai_score ai lead offer)) in
  total <= 100
  /\ match ScoringEngine.score_single_lead repr_other ai lead offer with
     | Return r => res_score r = total
     | Raise _ => True
     end.
Proof.
  cbv zeta.
  pose proof (score_role_values (lead_role lead)).
  pose proof (score_industry_values (lead_industry lead) (offer_ideal_use_cases offer)).
  pose proof (score_completeness_values lead).
  pose proof (ai_score_values ai lead offer) as Hai. cbv zeta in Hai.
  split; [lia|].
  destruct (ScoringEngine.score_single_lead repr_other ai lead offer) as [r|e] eqn:E;
    [|exact I].
  rewrite (score_single_lead_score _ _ _ _ _ E). unfold total_score.
  unfold ScoringEngine._calculate_rule_score, ScoringConstants.MAX_RULE_SCORE.
  cbn [fst]. lia.
Qed.

(** X4. Being related is symmetric: the lead's industry is related to the
    target exactly when the target is related to the lead's industry. *)
Theorem industries_related_sym (a b : string) :
  ScoringEngine._industries_related a b = ScoringEngine._industries_related b a.
Proof.
  unfold ScoringEngine._industries_related.
  repeat match goal with
         | |- context [ScoringEngine.any_term ?g ?x] =>
             destruct (ScoringEngine.any_term g x)
         end; reflexivity.
Qed.

Lemma lower_append (a b : string) :
  PyStr.lower (a +:+ b) = PyStr.lower a +:+ PyStr.lower b.
Proof. induction a as [|c a IH]; simpl; [reflexivity | now rewrite IH]. Qed.

Lemma Substring_within (sub s pre suf : string) :
  Substring sub s -> Substring sub (pre +:+ s +:+ suf).
Proof.
  intros (p & q & ->). exists (pre +:+ p), (q +:+ suf).
  now rewrite !append_assoc.
Qed.

Lemma mentions_within (keywords : list string) (s pre suf : string) :
  mentions keywords s -> mentions keywords (pre +:+ s +:+ suf).
Proof.
  unfold mentions. rewrite !Stdlib.Lists.List.Exists_exists.
  intros (k & Hk & H). exists k. split; [exact Hk | now apply Substring_within].
Qed.

(** X5. Text around a role never lowers its score: a title that contains
    the role scores at least as much as the role alone. *)
Theorem score_role_monotone (role pre suf : string) :
  ScoringEngine._score_role role
  <= ScoringEngine._score_role (pre +:+ role +:+ suf).
Proof.
  unfold ScoringEngine._score_role,
    ScoringConstants.DECISION_MAKER_POINTS, ScoringConstants.INFLUENCER_POINTS,
    ScoringConstants.OTHER_ROLE_POINTS.
  rewrite !lower_append.
  destruct (ScoringEngine.first_keyword JobRoleCategories.DECISION_MAKERS
              (PyStr.lower role)) eqn:Ed.
  - assert (H : mentions JobRoleCategories.DECISION_MAKERS (PyStr.lower role)).
    { destruct (first_keyword_None JobRoleCategories.DECISION_MAKERS
                  (PyStr.lower role)) as [_ Hb].
      apply any_term_spec. unfold ScoringEngine.any_term.
      destruct (existsb _ _) eqn:Ee; [reflexivity|].
      rewrite Hb in Ed; [discriminate|].
      rewrite <- any_term_spec. unfold ScoringEngine.any_term. congruence. }
    apply (mentions_within _ _ (PyStr.lower pre) (PyStr.lower suf)) in H.
    apply first_keyword_Some in H as [k ->]. lia.
  - destruct (ScoringEngine.first_keyword JobRoleCategories.DECISION_MAKERS
                (PyStr.lower pre +:+ PyStr.lower role +:+ PyStr.lower suf));
      [destruct (ScoringEngine.first_keyword JobRoleCategories.INFLUENCERS
                   (PyStr.lower role)); lia|].
    destruct (ScoringEngine.first_keyword JobRoleCategories.INFLUENCERS
                (PyStr.lower role)) eqn:Ei.
    + assert (H : mentions JobRoleCategories.INFLUENCERS (PyStr.lower role)).
      { destruct (first_keyword_None JobRoleCategories.INFLUENCERS
                    (PyStr.lower role)) as [_ Hb].
        apply any_term_spec. unfold ScoringEngine.any_term.
        destruct (existsb _ _) eqn:Ee; [reflexivity|].
        rewrite Hb in Ei; [discriminate|].
        rewrite <- any_term_spec. unfold ScoringEngine.any_term. congruence. }
      apply (mentions_within _ _ (PyStr.lower pre) (PyStr.lower suf)) in H.
      apply first_keyword_Some in H as [k ->]. lia.
    + match goal with |- context [match ?x with _ => _ end] => destruct x end; lia.
Qed.

(** ** The result of scoring a lead *)

Lemma lower_char_idem (c : ascii) :
  PyStr.lower_char (PyStr.lower_char c) = PyStr.lower_char c.
Proof. destruct c as [[] [] [] [] [] [] [] []]; reflexivity. Qed.

Lemma lower_upper_char (c : ascii) :
  PyStr.lower_char (PyStr.upper_char c) = PyStr.lower_char c.
Proof. destruct c as [[] [] [] [] [] [] [] []]; reflexivity. Qed.

Lemma lower_title_from (prev_cased : bool) (s : string) :
  PyStr.lower (PyStr.title_from prev_cased s) = PyStr.lower s.
Proof.
  revert prev_cased. induction s as [|c s IH]; intros b; simpl; [reflexivity|].
  rewrite IH. destruct b; now rewrite ?lower_char_idem, ?lower_upper_char.
Qed.

Lemma IntentLevel_of_value_inv (v : string) (level : IntentLevel) :
  IntentLevel_of_value v = Return level -> v = IntentLevel_value level.
Proof.
  unfold IntentLevel_of_value.
  destruct (String.eqb_spec v "High") as [->|_]; [now intros [= <-]|].
  destruct (String.eqb_spec v "Medium") as [->|_]; [now intros [= <-]|].
  destruct (String.eqb_spec v "Low") as [->|_]; [now intros [= <-]|].
  discriminate.
Qed.

Lemma title_level_points (intent : string) (level : IntentLevel) :
  IntentLevel_of_value (PyStr.title intent) = Return level ->
  ScoringEngine.intent_score (PyStr.lower intent) = level_points level.
Proof.
  intros H. apply IntentLevel_of_value_inv in H.
  apply (f_equal PyStr.lower) in H. unfold PyStr.title in H.
  rewrite lower_title_from in H. rewrite H. destruct level; reflexivity.
Qed.

(** X6. Whenever [score_single_lead] returns a result, for any injected
    analyzer and whatever the case of the letters of its intent, the
    level in the result and the AI points in its score agree: High goes
    with 50, Medium with 30 and Low with 10 points on top of the rule
    score. *)
Theorem result_level_matches_points (repr_other : json -> string)
    (ai : option Analyzer) (lead : LeadModel) (offer : OfferModel)
    (r : LeadScoringResult) :
  ScoringEngine.score_single_lead repr_other ai lead offer = Return r ->
  fst (fst (ScoringEngine._calculate_ai_score ai lead offer))
  = level_points (res_intent r)
  /\ res_score r
     = fst (ScoringEngine._calculate_rule_score lead offer)
       + level_points (res_intent r).
Proof.
  intros Hr.
  assert (Hai : fst (fst (ScoringEngine._calculate_ai_score ai lead offer))
                = level_points (res_intent r)).
  { rewrite score_single_lead_unfold in Hr.
    destruct (IntentLevel_of_value _) as [level|e] eqn:E; [|discriminate].
    injection Hr as <-. cbn [res_intent].
    unfold ai_intent, ScoringEngine._calculate_ai_score in *.
    destruct ai as [service|].
    - destruct (service lead offer) as [[intent reasoning]|e]; cbn [fst snd] in *.
      + now apply title_level_points.
      + apply IntentLevel_of_value_inv in E. destruct level; now inversion E.
    - cbn [fst snd] in *.
      apply IntentLevel_of_value_inv in E. destruct level; now inversion E. }
  split; [exact Hai|].
  rewrite (score_single_lead_score _ _ _ _ _ Hr). unfold total_score. rewrite Hai.
  pose proof (rule_score_bounds lead offer).
  unfold level_points. destruct (res_intent r); lia.
Qed.

Lemma result_level_matches_points_witness :
  ScoringEngine.score_single_lead (fun _ => "") (Some shouting_analyzer)
    sample_lead sample_offer = Return shouted_result
  /\ fst (fst (ScoringEngine._calculate_ai_score (Some shouting_analyzer)
                 sample_lead sample_offer))
     = level_points (res_intent shouted_result)
  /\ res_score shouted_result
     = fst (ScoringEngine._calculate_rule_score sample_lead sample_offer)
       + level_points (res_intent shouted_result).
Proof.
  split; [reflexivity|].
  apply (result_level_matches_points (fun _ => "") (Some shouting_analyzer)
           sample_lead sample_offer shouted_result).
  reflexivity.
Defined.

Lemma exhausted_answer json_loads ai_timeout providers lead offer w w1 n :
  exhausted json_loads ai_timeout lead offer providers w w1 ->
  failure_count w = Some (VInt n) ->
  service_analyzer json_loads ai_timeout providers w lead offer
  = Return AIService.fallback.
Proof.
  intros Hex Hn. apply first_answer_exhausted in Hex.
  pose proof (first_answer_same _ _ _ _ _ _ _ _ Hex) as [_ Hsame].
  unfold failure_count in Hn. rewrite <- Hsame in Hn.
  destruct (log_failure_increments _ _ Hn) as (t' & Hlog & _).
  unfold service_analyzer, AIService.analyze_lead_intent. st_unfold.
  now rewrite Hex, Hlog.
Qed.

Lemma degraded_score (lead : LeadModel) (offer : OfferModel) :
  Z.min (fst (ScoringEngine._calculate_rule_score lead offer) + 10) 100
  = fst (ScoringEngine._calculate_rule_score lead offer) + 10.
Proof. pose proof (rule_score_bounds lead offer). lia. Qed.

(** X7. When the AI analysis is not available the lead is still scored:
    with no service injected, with an analyzer that raises, and with the
    analysis service when every provider fails, [score_single_lead]
    returns the level Low and the rule score plus 10, and the reasoning
    names the kind of outage after the rule breakdown. *)
Theorem degraded_scoring (repr_other : json -> string)
    (lead : LeadModel) (offer : OfferModel) :
  ScoringEngine.score_single_lead repr_other None lead offer
  = Return (degraded_result lead offer
              "AI service unavailable - conservative scoring applied")
  /\ (forall (service : Analyzer) e,
        service lead offer = Raise e ->
        ScoringEngine.score_single_lead repr_other (Some service) lead offer
        = Return (degraded_result lead offer
                    "AI analysis failed - conservative scoring applied"))
  /\ (forall json_loads ai_timeout providers w w1 n,
        exhausted json_loads ai_timeout lead offer providers w w1 ->
        failure_count w = Some (VInt n) ->
        ScoringEngine.score_single_lead repr_other
          (Some (service_analyzer json_loads ai_timeout providers w)) lead offer
        = Return (degraded_result lead offer
                    "AI services unavailable - conservative scoring applied")).
Proof.
  repeat split.
  - rewrite score_single_lead_unfold.
    unfold ai_intent, total_score, degraded_result, ScoringEngine._calculate_ai_score.
    cbn [fst snd]. now rewrite degraded_score.
  - intros service e He. rewrite score_single_lead_unfold.
    unfold ai_intent, total_score, degraded_result, ScoringEngine._calculate_ai_score.
    rewrite He. cbn [fst snd]. now rewrite degraded_score.
  - intros json_loads ai_timeout providers w w1 n Hex Hn.
    rewrite score_single_lead_unfold.
    unfold ai_intent, total_score, degraded_result, ScoringEngine._calculate_ai_score.
    rewrite (exhausted_answer _ _ _ _ _ _ _ _ Hex Hn).
    unfold AIService.fallback. cbn [fst snd].
    change (ScoringEngine.intent_score (PyStr.lower "low")) with 10.
    now rewrite degraded_score.
Qed.

Example degraded_scoring_all_fail :
  ScoringEngine.score_single_lead (fun _ => "")
    (Some (service_analyzer Json.loads 15
             [("gemini", failing_client); ("openai", slow_client)] fresh_world))
    sample_lead sample_offer
  = Return {| res_name := "Test Lead"; res_role := "CEO"; res_company := "TestCorp";
              res_intent := LOW; res_score := 60;
              res_reasoning :=
                "Rule: Role: 20pts | Industry: 20pts | Completeness: 10pts. AI: AI services unavailable - conservative scoring applied" |}.
Proof. vm_compute. reflexivity. Qed.

(** ** A batch with a lead that cannot be scored *)

Section GatherRaises.
Context {A : Type}.
Implicit Types (tasks : list (result A)) (slots : list (option A)).

Lemma complete_raises tasks order slots (j : nat) e :
  tasks !! j = Some (Raise e) ->
  slots !! j = Some None ->
  In j order ->
  exists e', Gather.complete tasks order slots = Raise e'.
Proof.
  intros Hj. revert slots. induction order as [|i order IH]; intros slots Hs Hin.
  - destruct Hin.
  - simpl. destruct (decide (i = j)) as [->|Hne].
    + rewrite Hs, Hj. eauto.
    + destruct Hin as [->|Hin]; [congruence|].
      destruct (slots !! i) as [[a|]|] eqn:Hi; [now apply IH | | now apply IH].
      destruct (tasks !! i) as [[a|e0]|]; [|eauto | now apply IH].
      apply IH; [|exact Hin]. now rewrite list_lookup_insert_ne.
Qed.

Lemma gather_raises tasks order (j : nat) e :
  tasks !! j = Some (Raise e) -> exists e', Gather.gather tasks order = Raise e'.
Proof.
  intros Hj. unfold Gather.gather.
  assert (Hlt : (j < length tasks)%nat) by (eapply lookup_lt_Some; eauto).
  destruct (complete_raises tasks (order ++ seq 0 (length tasks))
              (replicate (length tasks) None) j e Hj) as [e' ->]; [| |eauto].
  - now apply lookup_replicate_2.
  - apply in_or_app. right. apply in_seq. lia.
Qed.

End GatherRaises.

Section BatchRaises.
Variable repr_other : json -> string.
Variable ai : option Analyzer.
Variable offer : OfferModel.

Lemma score_batch_raises leads order (j : nat) lead :
  leads !! j = Some lead -> unscorable repr_other ai offer lead ->
  exists e, ScoringEngine._score_batch repr_other ai leads offer order = Raise e.
Proof.
  intros Hj [e He]. unfold ScoringEngine._score_batch.
  apply (gather_raises _ _ j e).
  revert j Hj. induction leads as [|l ls IH]; intros [|j]; simpl; try discriminate.
  - intros [= ->]. now rewrite He.
  - apply IH.
Qed.

Lemma score_batches_raises leads orders (j : nat) lead :
  leads !! j = Some lead -> unscorable repr_other ai offer lead ->
  forall (count first : nat) results,
    (first * ScoringEngine.batch_size <= j
     < (first + count) * ScoringEngine.batch_size)%nat ->
    exists e,
      ScoringEngine.score_batches repr_other ai
        (map (fun k => (k * ScoringEngine.batch_size)%nat) (seq first count))
        leads offer orders results = Raise e.
Proof.
  intros Hj Hbad. induction count as [|count IH]; intros first results Hrange.
  - lia.
  - simpl.
    destruct (decide (j < first * ScoringEngine.batch_size
                          + ScoringEngine.batch_size)%nat) as [Hin|Hout].
    + destruct (score_batch_raises
                  (ScoringEngine.slice leads (first * ScoringEngine.batch_size)
                     (first * ScoringEngine.batch_size + ScoringEngine.batch_size))
                  (orders (first * ScoringEngine.batch_size)%nat)
                  (j - first * ScoringEngine.batch_size) lead) as [e ->];
        [|exact Hbad|eauto].
      unfold ScoringEngine.slice.
      rewrite lookup_take_lt by lia. rewrite lookup_drop.
      replace (first * ScoringEngine.batch_size
               + (j - first * ScoringEngine.batch_size))%nat with j by lia.
      exact Hj.
    + destruct (ScoringEngine._score_batch _ _ _ _ _) as [rs|e]; [|eauto].
      apply IH. lia.
Qed.

Lemma score_leads_raises leads orders lead :
  In lead leads -> unscorable repr_other ai offer lead ->
  exists e, ScoringEngine.score_leads repr_other ai leads offer orders = Raise e.
Proof.
  intros Hin Hbad. apply list_elem_of_In, list_elem_of_lookup in Hin as [j Hj].
  unfold ScoringEngine.score_leads, ScoringEngine.range_step.
  apply (score_batches_raises leads orders j lead Hj Hbad).
  apply lookup_lt_Some in Hj. unfold ScoringEngine.batch_size.
  pose proof (Nat.div_mod_eq (length leads + 10 - 1) 10).
  pose proof (Nat.mod_upper_bound (length leads + 10 - 1) 10 ltac:(lia)). lia.
Qed.

End BatchRaises.

(** X8. [score_leads] gives all results or none: when the scoring of one
    lead of the list raises, whatever the analyzer and the order in which
    tasks finish, [score_leads] raises and returns no partial list. *)
Theorem score_leads_all_or_nothing (repr_other : json -> string)
    (ai : option Analyzer) (leads : list LeadModel) (offer : OfferModel)
    (orders : nat -> list nat) (lead : LeadModel) :
  In lead leads ->
  (exists e, ScoringEngine.score_single_lead repr_other ai lead offer = Raise e) ->
  exists e, ScoringEngine.score_leads repr_other ai leads offer orders = Raise e.
Proof. apply score_leads_raises. Qed.

Lemma score_leads_all_or_nothing_witness :
  exists e,
    ScoringEngine.score_leads (fun _ => "") (Some vague_analyzer)
      [sample_lead; sample_lead] sample_offer (fun _ => [1%nat; 0%nat]) = Raise e.
Proof.
  apply (score_leads_all_or_nothing (fun _ => "") (Some vague_analyzer)
           [sample_lead; sample_lead] sample_offer (fun _ => [1%nat; 0%nat])
           sample_lead).
  - left. reflexivity.
  - exists "ValueError". reflexivity.
Defined.

(** ** The usage tracker as counters *)

Lemma read_unfold t l k :
  AIUsageTracker.read t l k = match heap t !! l with
                              | Some d => d !! k
                              | None => None
                              end.
Proof. unfold AIUsageTracker.read. destruct (heap t !! l); reflexivity. Qed.

(** [cls._usage[k1][k2] += v] on numbers writes one entry of one object *)
Lemma add_nested_reads t k1 k2 d old v new :
  AIUsageTracker.read t (usage t) k1 = Some (VDict d) ->
  AIUsageTracker.read t d k2 = Some old ->
  (forall t0, AIUsageTracker.py_add old v t0 = (Return new, t0)) ->
  exists t',
    AIUsageTracker.add_nested k1 k2 v t = (Return tt, t')
    /\ usage t' = usage t /\ fresh t' = fresh t
    /\ forall l k,
         AIUsageTracker.read t' l k
         = if decide (l = d /\ k = k2) then Some new
           else AIUsageTracker.read t l k.
Proof.
  rewrite !read_unfold. intros H1 H2 Hadd.
  destruct (heap t !! usage t) as [top|] eqn:Htop; [|discriminate].
  destruct (heap t !! d) as [dict|] eqn:Hd; [|discriminate].
  unfold AIUsageTracker.add_nested, AIUsageTracker.getitem, AIUsageTracker.setitem,
    AIUsageTracker.as_dict.
  st_unfold. rewrite Htop, H1, Hd, H2, Hadd, Hd.
  eexists. split; [reflexivity|]. cbn [usage fresh heap].
  split; [reflexivity|]. split; [reflexivity|].
  intros l k. rewrite !read_unfold. cbn [heap].
  destruct (decide (l = d)) as [->|Hl].
  - rewrite lookup_insert_eq, Hd.
    destruct (decide (k = k2)) as [->|Hk].
    + rewrite lookup_insert_eq. now rewrite decide_True.
    + rewrite lookup_insert_ne by congruence. rewrite decide_False by tauto.
      reflexivity.
  - rewrite lookup_insert_ne by congruence. rewrite decide_False by tauto.
    reflexivity.
Qed.

Lemma py_add_int (a b : Z) t :
  AIUsageTracker.py_add (VInt a) (VInt b) t = (Return (VInt (a + b)), t).
Proof. reflexivity. Qed.

Lemma py_add_float (a b : SpecFloat.spec_float) t :
  AIUsageTracker.py_add (VFloat a) (VFloat b) t
  = (Return (VFloat (PyFloat.add a b)), t).
Proof. reflexivity. Qed.

Lemma cost_fits (input_tokens output_tokens : Z) :
  fits_float input_tokens -> fits_float output_tokens ->
  AIUsageTracker.cost input_tokens output_tokens
  = Return (cost_of input_tokens output_tokens).
Proof.
  unfold fits_float, AIUsageTracker.cost, PyFloat.int_mul. intros -> ->.
  reflexivity.
Qed.

Ltac read_other Hread :=
  rewrite Hread;
  match goal with
  | |- context [decide ?P] => rewrite (decide_False (P := P)) by (intros [? ?]; congruence)
  end.

Ltac read_same Hread :=
  rewrite Hread;
  match goal with
  | |- context [decide ?P] => rewrite (decide_True (P := P)) by (split; reflexivity)
  end.

Ltac settle_read :=
  repeat match goal with
         | |- context [decide ?P] => destruct (decide P) as [[? ?]|?]
         end;
  try assumption; try reflexivity; try congruence;
  try (exfalso;
       match goal with
       | H : ~ (_ /\ _) |- _ => apply H; split; reflexivity
       end).

Lemma log_usage_represents provider input_tokens output_tokens t s :
  represents t s ->
  loggable provider input_tokens output_tokens ->
  exists t',
    AIUsageTracker.log_usage provider input_tokens output_tokens t = (Return tt, t')
    /\ represents t' (count_usage provider input_tokens output_tokens s).
Proof.
  intros (g & o & Hg & Ho & Hf & Hgo & Hgu & Hou & Hu & Hgf & Hof
          & Hgc & Hgt & Hoc & Hot & Hoe & Hdom) [-> | (-> & Hin & Hout)];
    unfold AIUsageTracker.log_usage, count_usage; cbn [String.eqb Ascii.eqb Bool.eqb].
  - destruct (add_nested_reads t "gemini" "calls" g _ (VInt 1) _ Hg Hgc
                (py_add_int _ _)) as (t1 & E1 & Hu1 & Hf1 & R1).
    destruct (add_nested_reads t1 "gemini" "tokens" g (VInt (gemini_tokens s))
                (VInt (input_tokens + output_tokens))
                (VInt (gemini_tokens s + (input_tokens + output_tokens)))) as (t2 & E2 & Hu2 & Hf2 & R2);
      [ rewrite Hu1, R1; settle_read | rewrite R1; settle_read
      | apply py_add_int | ].
    st_unfold. rewrite E1, E2. eexists. split; [reflexivity|].
    exists g, o. rewrite Hu2, Hu1, Hf2, Hf1. cbn [gemini_calls gemini_tokens
      openai_calls openai_tokens openai_cost failure_total].
    repeat split; try assumption; try (intros k ? ? ?);
      rewrite R2, R1; settle_read; auto.
  - destruct (add_nested_reads t "openai" "calls" o _ (VInt 1) _ Ho Hoc
                (py_add_int _ _)) as (t1 & E1 & Hu1 & Hf1 & R1).
    destruct (add_nested_reads t1 "openai" "tokens" o (VInt (openai_tokens s))
                (VInt (input_tokens + output_tokens))
                (VInt (openai_tokens s + (input_tokens + output_tokens)))) as (t2 & E2 & Hu2 & Hf2 & R2);
      [ rewrite Hu1, R1; settle_read | rewrite R1; settle_read
      | apply py_add_int | ].
    destruct (add_nested_reads t2 "openai" "estimated_cost" o
                (VFloat (openai_cost s))
                (VFloat (cost_of input_tokens output_tokens))
                (VFloat (PyFloat.add (openai_cost s)
                           (cost_of input_tokens output_tokens))))
      as (t3 & E3 & Hu3 & Hf3 & R3);
      [ rewrite Hu2, Hu1, R2, R1; settle_read | rewrite R2, R1; settle_read
      | apply py_add_float | ].
    st_unfold. rewrite E1, E2. unfold AIUsageTracker.lift.
    rewrite (cost_fits _ _ Hin Hout), E3. eexists. split; [reflexivity|].
    exists g, o. rewrite Hu3, Hu2, Hu1, Hf3, Hf2, Hf1. cbn [gemini_calls gemini_tokens
      openai_calls openai_tokens openai_cost failure_total].
    repeat split; try assumption; try (intros k ? ? ?);
      rewrite R3, R2, R1; settle_read; auto.
Qed.

Lemma log_failure_reads t f :
  AIUsageTracker.read t (usage t) "failures" = Some (VInt f) ->
  exists t',
    AIUsageTracker.log_failure t = (Return tt, t')
    /\ usage t' = usage t /\ fresh t' = fresh t
    /\ forall l k,
         AIUsageTracker.read t' l k
         = if decide (l = usage t /\ k = "failures") then Some (VInt (f + 1))
           else AIUsageTracker.read t l k.
Proof.
  rewrite read_unfold. intros H.
  destruct (heap t !! usage t) as [top|] eqn:Htop; [|discriminate].
  unfold AIUsageTracker.log_failure, AIUsageTracker.getitem, AIUsageTracker.setitem.
  st_unfold. rewrite Htop, H. simpl. rewrite Htop.
  eexists. split; [reflexivity|]. cbn [usage fresh heap].
  split; [reflexivity|]. split; [reflexivity|].
  intros l k. rewrite !read_unfold. cbn [heap].
  destruct (decide (l = usage t)) as [->|Hl].
  - rewrite lookup_insert_eq, Htop.
    destruct (decide (k = "failures")) as [->|Hk].
    + rewrite lookup_insert_eq. now rewrite decide_True.
    + rewrite lookup_insert_ne by congruence. rewrite decide_False by tauto.
      reflexivity.
  - rewrite lookup_insert_ne by congruence. rewrite decide_False by tauto.
    reflexivity.
Qed.

Lemma alloc_reads d t :
  exists t',
    AIUsageTracker.alloc d t = (Return (fresh t), t')
    /\ usage t' = usage t /\ fresh t' = S (fresh t)
    /\ forall l k,
         AIUsageTracker.read t' l k
         = if decide (l = fresh t) then d !! k else AIUsageTracker.read t l k.
Proof.
  eexists. split; [reflexivity|]. cbn [usage fresh heap].
  split; [reflexivity|]. split; [reflexivity|].
  intros l k. rewrite !read_unfold. cbn [heap].
  destruct (decide (l = fresh t)) as [->|Hl].
  - now rewrite lookup_insert_eq.
  - now rewrite lookup_insert_ne by congruence.
Qed.

Lemma log_failure_represents t s :
  represents t s ->
  exists t',
    AIUsageTracker.log_failure t = (Return tt, t')
    /\ represents t' (count_failure s).
Proof.
  intros (g & o & Hg & Ho & Hf & Hgo & Hgu & Hou & Hu & Hgf & Hof
          & Hgc & Hgt & Hoc & Hot & Hoe & Hdom).
  destruct (log_failure_reads t _ Hf) as (t' & E & Hu' & Hf' & R).
  exists t'. split; [exact E|]. exists g, o. rewrite Hu', Hf'.
  cbn [gemini_calls gemini_tokens openai_calls openai_tokens openai_cost
       failure_total count_failure].
  repeat split; try assumption; try (intros k ? ? ?); rewrite R; settle_read; auto.
Qed.

Lemma get_stats_reads t s :
  represents t s ->
  exists t',
    AIUsageTracker.get_stats t = (Return (fresh t), t')
    /\ usage t' = usage t /\ fresh t' = S (fresh t)
    /\ forall l k,
         AIUsageTracker.read t' l k
         = if decide (l = fresh t) then AIUsageTracker.read t (usage t) k
           else AIUsageTracker.read t l k.
Proof.
  intros (g & o & Hg & _). rewrite read_unfold in Hg.
  unfold AIUsageTracker.get_stats.
  destruct (heap t !! usage t) as [top|] eqn:Htop; [|discriminate].
  destruct (alloc_reads top t) as (t' & E & Hu & Hf & R).
  exists t'. split; [exact E|]. split; [exact Hu|]. split; [exact Hf|].
  intros l k. rewrite R. destruct (decide (l = fresh t)); [|reflexivity].
  now rewrite read_unfold, Htop.
Qed.

Lemma get_stats_represents t s :
  represents t s ->
  exists t', AIUsageTracker.get_stats t = (Return (fresh t), t') /\ represents t' s.
Proof.
  intros Hrep. destruct (get_stats_reads t s Hrep) as (t' & E & Hu' & Hf' & R).
  destruct Hrep as (g & o & Hg & Ho & Hf & Hgo & Hgu & Hou & Hu & Hgf & Hof
                    & Hgc & Hgt & Hoc & Hot & Hoe & Hdom).
  exists t'. split; [exact E|]. exists g, o. rewrite Hu', Hf'.
  repeat split; try assumption; try lia; try (intros k ? ? ?);
    rewrite R; (rewrite decide_False by lia); auto.
Qed.

Lemma reset_stats_represents t :
  exists t', AIUsageTracker.reset_stats t = (Return tt, t') /\ represents t' no_usage.
Proof.
  unfold AIUsageTracker.reset_stats. st_unfold.
  destruct (alloc_reads AIUsageTracker.gemini_zero t) as (t1 & E1 & Hu1 & Hf1 & R1).
  destruct (alloc_reads AIUsageTracker.openai_zero t1) as (t2 & E2 & Hu2 & Hf2 & R2).
  destruct (alloc_reads (AIUsageTracker.top_zero (fresh t) (fresh t1)) t2)
    as (t3 & E3 & Hu3 & Hf3 & R3).
  rewrite E1, E2, E3. eexists. split; [reflexivity|].
  exists (fresh t), (fresh t1). cbn [usage fresh].
  assert (Hread : forall l k,
             AIUsageTracker.read
               {| heap := heap t3; fresh := fresh t3; usage := fresh t2 |} l k
             = AIUsageTracker.read t3 l k) by reflexivity.
  repeat split; try lia; try (intros k ? ? ?);
    rewrite Hread, R3, R2, R1;
    repeat match goal with
           | |- context [decide ?P] => destruct (decide P); try lia
           end;
    try reflexivity.
  unfold AIUsageTracker.top_zero.
  now rewrite !lookup_insert_ne, lookup_empty by congruence.
Qed.

Lemma initial_represents : represents AIUsageTracker.initial no_usage.
Proof.
  exists 0%nat, 1%nat. unfold AIUsageTracker.initial. cbn [usage fresh].
  repeat split; try lia; try discriminate; try (vm_compute; reflexivity).
  intros k Hg Ho Hf. rewrite read_unfold. cbn [heap usage].
  rewrite lookup_insert_eq. unfold AIUsageTracker.top_zero.
  now rewrite !lookup_insert_ne, lookup_empty by congruence.
Qed.

Lemma run_op_represents op t s :
  known_provider op -> represents t s ->
  exists t', run_op op t = (Return tt, t') /\ represents t' (count_op s op).
Proof.
  intros Hk Hrep. destruct op as [provider a b| | |]; simpl in *.
  - now apply log_usage_represents.
  - now apply log_failure_represents.
  - destruct (get_stats_represents t s Hrep) as (t' & E & Hrep').
    exists t'. split; [|exact Hrep']. st_unfold. now rewrite E.
  - apply reset_stats_represents.
Qed.

(** X9. The tracker implements its counters. From the state the class
    body leaves, and from any state that holds counters, every sequence of
    [log_usage] (for gemini, or for openai with token counts that fit a
    float), [log_failure], [get_stats] and [reset_stats] runs without
    raising and leaves the counters that the sequence adds up to, taken in
    the order of the calls: a call and its tokens for the provider logged,
    one failure per [log_failure], nothing for [get_stats], all zero after
    [reset_stats]. The calls, tokens and failures are exact integers; the
    estimated cost of openai is a float, to which each call adds the
    rounded sum of its two rounded products, rounding once more. *)
Theorem tracker_counts (ops : list TrackerOp) (t : Tracker) (s : Stats) :
  Forall known_provider ops ->
  represents t s ->
  exists t',
    run_ops ops t = (Return tt, t')
    /\ represents t' (fold_left count_op ops s).
Proof.
  intros Hops. revert t s. induction Hops as [|op ops Hop _ IH]; intros t s Hrep.
  - exists t. split; [reflexivity | exact Hrep].
  - destruct (run_op_represents op t s Hop Hrep) as (t1 & E1 & Hrep1).
    destruct (IH t1 _ Hrep1) as (t' & E & Hrep').
    exists t'. split; [|exact Hrep']. simpl. st_unfold. now rewrite E1.
Qed.

Lemma tracker_counts_witness :
  exists t',
    run_ops [LogUsage "gemini" 100 50; LogUsage "openai" 173 0; LogFailure; GetStats]
      AIUsageTracker.initial = (Return tt, t')
    /\ represents t'
         {| gemini_calls := 1; gemini_tokens := 150; openai_calls := 1;
            openai_tokens := 173;
            openai_cost := SpecFloat.S754_finite false 7659088139404205 (-68);
            failure_total := 1 |}.
Proof.
  apply (tracker_counts
           [LogUsage "gemini" 100 50; LogUsage "openai" 173 0; LogFailure; GetStats]
           AIUsageTracker.initial no_usage).
  - repeat (apply Forall_cons; split;
            [first [exact I | left; reflexivity
                   | right; repeat split; reflexivity]|]).
    apply Forall_nil_2.
  - apply initial_represents.
Defined.

(** The cost is a float and rounds: 173 input tokens cost
    7659088139404205 * 2^-68 (2.5949999999999997e-05), the float below the
    one nearest to 0.00002595, and the same six tokens logged as 4, 1, 1
    and as 1, 1, 4 leave two different sums (9.000000000000001e-07 and
    9e-07). *)
Example estimated_cost_rounds :
  cost_of 173 0 = SpecFloat.S754_finite false 7659088139404205 (-68)
  /\ PyFloat.literal 2595 8 = SpecFloat.S754_finite false 7659088139404206 (-68)
  /\ openai_cost
       (fold_left count_op
          [LogUsage "openai" 4 0; LogUsage "openai" 1 0; LogUsage "openai" 1 0]
          no_usage)
     = SpecFloat.S754_finite false 8500259669165362 (-73)
  /\ openai_cost
       (fold_left count_op
          [LogUsage "openai" 1 0; LogUsage "openai" 1 0; LogUsage "openai" 4 0]
          no_usage)
     = SpecFloat.S754_finite false 8500259669165361 (-73).
Proof. repeat split; vm_compute; reflexivity. Qed.

(** An [int] too large for a float stops [log_usage] for openai at the
    cost, after the call and its tokens are counted. *)
Example log_usage_overflow :
  exists t',
    AIUsageTracker.log_usage "openai" (2 ^ 1024) 0 AIUsageTracker.initial
    = (Raise "OverflowError", t')
    /\ AIUsageTracker.read2 t' (usage t') "openai" "calls" = Some (VInt 1)
    /\ AIUsageTracker.read2 t' (usage t') "openai" "tokens"
       = Some (VInt (2 ^ 1024))
    /\ AIUsageTracker.read2 t' (usage t') "openai" "estimated_cost"
       = Some (VFloat PyFloat.zero).
Proof. eexists. repeat split; vm_compute; reflexivity. Qed.

(** X10. Logging usage for a provider the tracker does not know raises
    and changes nothing: [KeyError] for any name other than gemini and
    openai, except the name of the failure counter itself, which is not a
    dictionary and gives [TypeError]. *)
Theorem log_usage_unknown_provider (provider : string)
    (input_tokens output_tokens : Z) (t : Tracker) (s : Stats) :
  represents t s ->
  provider <> "gemini" -> provider <> "openai" ->
  AIUsageTracker.log_usage provider input_tokens output_tokens t
  = (Raise (if String.eqb provider "failures" then "TypeError" else "KeyError"), t).
Proof.
  intros (g & o & Hg & Ho & Hf & _ & _ & _ & _ & _ & _ & _ & _ & _ & _ & _ & Hdom)
         Hng Hno.
  rewrite read_unfold in Hf.
  destruct (heap t !! usage t) as [top|] eqn:Htop; [|discriminate].
  unfold AIUsageTracker.log_usage, AIUsageTracker.add_nested, AIUsageTracker.getitem.
  st_unfold. rewrite Htop.
  destruct (String.eqb_spec provider "failures") as [->|Hnf].
  - rewrite Hf. reflexivity.
  - specialize (Hdom provider Hng Hno Hnf). rewrite read_unfold, Htop in Hdom.
    rewrite Hdom. reflexivity.
Qed.

Lemma log_usage_unknown_provider_witness :
  AIUsageTracker.log_usage "claude" 100 50 AIUsageTracker.initial
  = (Raise "KeyError", AIUsageTracker.initial).
Proof.
  apply (log_usage_unknown_provider "claude" 100 50 AIUsageTracker.initial no_usage).
  - apply initial_represents.
  - discriminate.
  - discriminate.
Defined.

(** ** Snapshots and the counters they keep *)

Lemma reset_stats_reads t :
  exists t',
    AIUsageTracker.reset_stats t = (Return tt, t')
    /\ forall l k, (l < fresh t)%nat ->
                   AIUsageTracker.read t' l k = AIUsageTracker.read t l k.
Proof.
  unfold AIUsageTracker.reset_stats. st_unfold.
  destruct (alloc_reads AIUsageTracker.gemini_zero t) as (t1 & E1 & Hu1 & Hf1 & R1).
  destruct (alloc_reads AIUsageTracker.openai_zero t1) as (t2 & E2 & Hu2 & Hf2 & R2).
  destruct (alloc_reads (AIUsageTracker.top_zero (fresh t) (fresh t1)) t2)
    as (t3 & E3 & Hu3 & Hf3 & R3).
  rewrite E1, E2, E3. eexists. split; [reflexivity|].
  intros l k Hl.
  change (AIUsageTracker.read t3 l k = AIUsageTracker.read t l k).
  rewrite R3, R2, R1.
  repeat match goal with
         | |- context [decide ?P] => destruct (decide P); try lia
         end.
  reflexivity.
Qed.

(** X11. What a snapshot keeps. On a tracker that holds counters,
    [get_stats] returns a new dictionary whose entries are those of
    [_usage] and leaves the counters as they are. The failure counter
    read from that snapshot stays what it was when [log_failure] runs
    afterwards, and every entry reachable from the snapshot stays what it
    was when [reset_stats] runs afterwards. *)
Theorem get_stats_snapshot (t : Tracker) (s : Stats) :
  represents t s ->
  exists snapshot t',
    AIUsageTracker.get_stats t = (Return snapshot, t')
    /\ represents t' s
    /\ snapshot <> usage t'
    /\ (forall k, AIUsageTracker.read t' snapshot k
                  = AIUsageTracker.read t (usage t) k)
    /\ (exists t2,
          AIUsageTracker.log_failure t' = (Return tt, t2)
          /\ AIUsageTracker.failures t2 = Some (VInt (failure_total s + 1))
          /\ AIUsageTracker.read t2 snapshot "failures"
             = Some (VInt (failure_total s)))
    /\ (exists t3,
          AIUsageTracker.reset_stats t' = (Return tt, t3)
          /\ represents t3 no_usage
          /\ AIUsageTracker.read t3 snapshot "failures"
             = Some (VInt (failure_total s))
          /\ AIUsageTracker.read2 t3 snapshot "gemini" "calls"
             = Some (VInt (gemini_calls s))
          /\ AIUsageTracker.read2 t3 snapshot "gemini" "tokens"
             = Some (VInt (gemini_tokens s))
          /\ AIUsageTracker.read2 t3 snapshot "openai" "calls"
             = Some (VInt (openai_calls s))
          /\ AIUsageTracker.read2 t3 snapshot "openai" "tokens"
             = Some (VInt (openai_tokens s))
          /\ AIUsageTracker.read2 t3 snapshot "openai" "estimated_cost"
             = Some (VFloat (openai_cost s))).
Proof.
  intros Hrep.
  destruct (get_stats_reads t s Hrep) as (t' & E & Hu' & Hf' & R).
  destruct (get_stats_represents t s Hrep) as (t'' & E' & Hrep').
  assert (t'' = t') by congruence. subst t''.
  destruct Hrep as (g & o & Hg & Ho & Hf & Hgo & Hgu & Hou & Hu & Hgf & Hof
                    & Hgc & Hgt & Hoc & Hot & Hoe & Hdom).
  assert (Hsnap : forall k, AIUsageTracker.read t' (fresh t) k
                            = AIUsageTracker.read t (usage t) k)
    by (intros k; rewrite R; now rewrite decide_True).
  assert (Hold : forall l k, (l < fresh t)%nat ->
                             AIUsageTracker.read t' l k = AIUsageTracker.read t l k)
    by (intros l k Hl; rewrite R; now rewrite decide_False by lia).
  exists (fresh t), t'. split; [exact E|]. split; [exact Hrep'|].
  split; [rewrite Hu'; lia|]. split; [exact Hsnap|]. split.
  - assert (Hf'' : AIUsageTracker.read t' (usage t') "failures"
                   = Some (VInt (failure_total s)))
      by (rewrite Hu', Hold by lia; exact Hf).
    destruct (log_failure_reads t' _ Hf'') as (t2 & E2 & Hu2 & Hf2 & R2).
    exists t2. split; [exact E2|]. unfold AIUsageTracker.failures. rewrite Hu2.
    split.
    + rewrite R2. now rewrite decide_True.
    + rewrite R2. rewrite decide_False by (rewrite Hu'; intros [? _]; lia).
      rewrite Hsnap. exact Hf.
  - destruct (reset_stats_reads t') as (t3 & E3 & R3).
    destruct (reset_stats_represents t') as (t3' & E3' & Hrep3).
    assert (t3' = t3) by congruence. subst t3'.
    exists t3. split; [exact E3|]. split; [exact Hrep3|].
    unfold AIUsageTracker.read2.
    rewrite !R3 by lia. rewrite !Hsnap, Hf, Hg, Ho.
    rewrite !R3 by lia. rewrite !Hold by lia.
    repeat split; assumption.
Qed.

Lemma get_stats_snapshot_witness :
  exists snapshot t',
    AIUsageTracker.get_stats AIUsageTracker.initial = (Return snapshot, t')
    /\ represents t' no_usage
    /\ snapshot <> usage t'
    /\ (forall k, AIUsageTracker.read t' snapshot k
                  = AIUsageTracker.read AIUsageTracker.initial 2 k)
    /\ (exists t2,
          AIUsageTracker.log_failure t' = (Return tt, t2)
          /\ AIUsageTracker.failures t2 = Some (VInt (0 + 1))
          /\ AIUsageTracker.read t2 snapshot "failures" = Some (VInt 0))
    /\ (exists t3,
          AIUsageTracker.reset_stats t' = (Return tt, t3)
          /\ represents t3 no_usage
          /\ AIUsageTracker.read t3 snapshot "failures" = Some (VInt 0)
          /\ AIUsageTracker.read2 t3 snapshot "gemini" "calls" = Some (VInt 0)
          /\ AIUsageTracker.read2 t3 snapshot "gemini" "tokens" = Some (VInt 0)
          /\ AIUsageTracker.read2 t3 snapshot "openai" "calls" = Some (VInt 0)
          /\ AIUsageTracker.read2 t3 snapshot "openai" "tokens" = Some (VInt 0)
          /\ AIUsageTracker.read2 t3 snapshot "openai" "estimated_cost"
             = Some (VFloat PyFloat.zero)).
Proof.
  apply (get_stats_snapshot AIUsageTracker.initial no_usage).
  apply initial_represents.
Defined.

(** X12. [reset_stats] recovers from any state, also one in which the
    counters were overwritten through a shared dictionary: it never raises,
    leaves a tracker whose counters are all zero, and writes to new
    objects only, so that no dictionary allocated before is changed. *)
Theorem reset_stats_from_any_state (t : Tracker) :
  exists t',
    AIUsageTracker.reset_stats t = (Return tt, t')
    /\ represents t' no_usage
    /\ forall l k, (l < fresh t)%nat ->
                   AIUsageTracker.read t' l k = AIUsageTracker.read t l k.
Proof.
  destruct (reset_stats_reads t) as (t' & E & R).
  destruct (reset_stats_represents t) as (t'' & E' & Hrep).
  assert (t'' = t') by congruence. subst t''. eauto.
Qed.

(** ** The analysis service: answers and fallback order *)

(** X13. [analyze_lead_intent] never raises while the failure counter of
    the tracker is a number: whatever the providers do, it returns an
    intent and a reasoning, and the intent is high, medium or low. *)
Theorem analyze_lead_intent_never_raises (json_loads : string -> option json)
    (ai_timeout : Z) (providers : list (string * Client))
    (lead : LeadModel) (offer : OfferModel) (w : World) (n : Z) :
  failure_count w = Some (VInt n) ->
  exists intent reasoning w',
    AIService.analyze_lead_intent json_loads ai_timeout providers lead offer w
    = (Return (intent, reasoning), w')
    /\ (intent = "high" \/ intent = "medium" \/ intent = "low").
Proof.
  intros Hn. unfold AIService.analyze_lead_intent. st_unfold.
  destruct (first_answer_returns json_loads ai_timeout providers lead offer w)
    as (answer & w1 & E & Hc).
  rewrite E. destruct answer as [[intent reasoning]|].
  - exists intent, reasoning, w1. split; [reflexivity|].
    apply canonical_spec. exact (Hc _ eq_refl).
  - pose proof (first_answer_same _ _ _ _ _ _ _ _ E) as [_ Hsame].
    unfold failure_count in Hn. rewrite <- Hsame in Hn.
    destruct (log_failure_increments _ _ Hn) as (t' & -> & _).
    unfold AIService.fallback. do 3 eexists. split; [reflexivity | auto].
Qed.

Lemma analyze_lead_intent_never_raises_witness :
  exists intent reasoning w',
    AIService.analyze_lead_intent Json.loads 15
      [("gemini", failing_client);
       ("openai", replying_client "Probably MEDIUM. Mid-level role")]
      sample_lead sample_offer fresh_world
    = (Return (intent, reasoning), w')
    /\ (intent = "high" \/ intent = "medium" \/ intent = "low").
Proof.
  apply (analyze_lead_intent_never_raises Json.loads 15 _ sample_lead sample_offer
           fresh_world 0).
  reflexivity.
Defined.

Lemma first_answer_after_failures json_loads ai_timeout lead offer
    failed providers w w0 :
  exhausted json_loads ai_timeout lead offer failed w w0 ->
  AIService.first_answer json_loads ai_timeout (failed ++ providers)%list lead offer w
  = AIService.first_answer json_loads ai_timeout providers lead offer w0.
Proof.
  induction 1 as [w|p ps w e w1 w' Hp _ IH]; simpl; [reflexivity|].
  unfold try_except at 1. st_unfold. now rewrite Hp.
Qed.

(** X14. Providers are consulted in order, and only as far as needed.
    When the attempts on the providers in front of one all fail and the
    attempt on that one answers, [analyze_lead_intent] returns that answer
    and stops in the state that attempt left: the providers behind it are
    not called, their rate windows are not touched, and the failure
    counter is as before. *)
Theorem analyze_lead_intent_first_answer (json_loads : string -> option json)
    (ai_timeout : Z) (failed rest : list (string * Client))
    (provider : string * Client) (lead : LeadModel) (offer : OfferModel)
    (w w0 w1 : World) (answer : string * json) :
  exhausted json_loads ai_timeout lead offer failed w w0 ->
  AIService.attempt json_loads ai_timeout provider lead offer w0
  = (Return answer, w1) ->
  AIService.analyze_lead_intent json_loads ai_timeout
    (failed ++ provider :: rest)%list lead offer w
  = (Return answer, w1)
  /\ failure_count w1 = failure_count w.
Proof.
  intros Hex Hp.
  apply analyze_lead_intent_answered.
  rewrite (first_answer_after_failures _ _ _ _ _ _ _ _ Hex).
  simpl. unfold try_except. st_unfold. now rewrite Hp.
Qed.

Lemma analyze_lead_intent_first_answer_witness :
  AIService.analyze_lead_intent Json.loads 15
    ([("gemini", failing_client)]
     ++ ("openai", replying_client "High. Strong buying signals")
     :: [("gemini", slow_client)])%list
    sample_lead sample_offer fresh_world
  = (Return ("high", JStr "High"),
     snd (AIService.attempt Json.loads 15
            ("openai", replying_client "High. Strong buying signals")
            sample_lead sample_offer after_gemini_failure))
  /\ failure_count
       (snd (AIService.attempt Json.loads 15
               ("openai", replying_client "High. Strong buying signals")
               sample_lead sample_offer after_gemini_failure))
     = failure_count fresh_world.
Proof.
  apply (analyze_lead_intent_first_answer Json.loads 15
           [("gemini", failing_client)] [("gemini", slow_client)]
           ("openai", replying_client "High. Strong buying signals")
           sample_lead sample_offer fresh_world after_gemini_failure).
  - apply first_answer_exhausted. vm_compute. reflexivity.
  - vm_compute. reflexivity.
Defined.

(** ** One provider call *)

Section ProviderCall.
Variable json_loads : string -> option json.
Variable ai_timeout : Z.
Variable provider : string.
Variable client : Client.
Variable lead : LeadModel.
Variable offer : OfferModel.

Let prompt : string := AIService._build_analysis_prompt lead offer.
Let timeout : Z := ai_timeout * SmartRateLimiter.second.

Lemma wait_for_timeout w :
  timeout <= latency (client prompt) ->
  AIService.wait_for ai_timeout client prompt w
  = (Raise "TimeoutError", later w timeout).
Proof.
  intros H. unfold AIService.wait_for. fold timeout.
  replace (latency (client prompt) <? timeout) with false by (symmetry; lia).
  reflexivity.
Qed.

Lemma wait_for_in_time w :
  latency (client prompt) < timeout ->
  AIService.wait_for ai_timeout client prompt w
  = (match text (client prompt) with
     | Some t => Return t
     | None => Raise "Exception"
     end, later w (latency (client prompt))).
Proof.
  intros H. unfold AIService.wait_for. fold timeout.
  replace (latency (client prompt) <? timeout) with true by (symmetry; lia).
  st_unfold. destruct (text (client prompt)); reflexivity.
Qed.

Lemma analyze_with_provider_unsupported w :
  ~ supported provider ->
  AIService._analyze_with_provider json_loads ai_timeout provider client lead offer w
  = (Raise "AIServiceException", w).
Proof.
  unfold supported. intros H. unfold AIService._analyze_with_provider.
  destruct (String.eqb_spec provider "gemini") as [->|_]; [tauto|].
  destruct (String.eqb_spec provider "openai") as [->|_]; [tauto|].
  reflexivity.
Qed.

Lemma analyze_with_provider_timeout w :
  supported provider -> timeout <= latency (client prompt) ->
  AIService._analyze_with_provider json_loads ai_timeout provider client lead offer w
  = (Raise "AIServiceException", later w timeout).
Proof.
  intros Hs H. unfold AIService._analyze_with_provider. fold prompt.
  unfold try_except. st_unfold.
  destruct Hs as [-> | ->]; cbn [String.eqb Ascii.eqb Bool.eqb];
    now rewrite (wait_for_timeout w H).
Qed.

Lemma analyze_with_provider_no_text w :
  supported provider -> latency (client prompt) < timeout ->
  text (client prompt) = None ->
  AIService._analyze_with_provider json_loads ai_timeout provider client lead offer w
  = (Raise "AIServiceException", later w (latency (client prompt))).
Proof.
  intros Hs H Ht. unfold AIService._analyze_with_provider. fold prompt.
  unfold try_except. st_unfold.
  destruct Hs as [-> | ->]; cbn [String.eqb Ascii.eqb Bool.eqb];
    now rewrite (wait_for_in_time w H), Ht.
Qed.

Lemma analyze_with_provider_reply w reply s :
  loggable provider (Z.of_nat (String.length prompt))
    (Z.of_nat (String.length (PyStr.strip reply))) ->
  latency (client prompt) < timeout ->
  text (client prompt) = Some reply ->
  represents (tracker w) s ->
  exists t',
    AIService._analyze_with_provider json_loads ai_timeout provider client lead offer w
    = (Return (AIService._parse_ai_response json_loads (PyStr.strip reply)),
       {| clock := clock w + Z.max 0 (latency (client prompt));
          limiter := limiter w; tracker := t' |})
    /\ represents t'
         (count_usage provider (Z.of_nat (String.length prompt))
            (Z.of_nat (String.length (PyStr.strip reply))) s).
Proof.
  intros Hs H Ht Hrep.
  destruct (log_usage_represents provider (Z.of_nat (String.length prompt))
              (Z.of_nat (String.length (PyStr.strip reply))) (tracker w) s Hrep Hs)
    as (t' & Hlog & Hrep').
  exists t'. split; [|exact Hrep'].
  unfold AIService._analyze_with_provider. fold prompt.
  unfold try_except. st_unfold.
  revert Hlog. destruct Hs as [-> | (-> & _ & _)]; intros Hlog; cbn [String.eqb Ascii.eqb Bool.eqb];
    rewrite (wait_for_in_time w H), Ht;
    destruct (AIService._parse_ai_response json_loads (PyStr.strip reply))
      as [intent reasoning];
    unfold later; cbn [tracker clock limiter]; now rewrite Hlog.
Qed.

End ProviderCall.

(** X15. How a provider call fails. [_analyze_with_provider] raises
    [AIServiceException] at once for a provider that is neither gemini nor
    openai, after exactly [ai_timeout] seconds when the client needs that
    long or longer, and after the client's latency when the client fails
    earlier. In each case the client's failure is all that happened: the
    usage tracker and the rate windows are as before. *)
Theorem analyze_with_provider_failure (json_loads : string -> option json)
    (ai_timeout : Z) (provider : string) (client : Client)
    (lead : LeadModel) (offer : OfferModel) (w : World) :
  let response := client (AIService._build_analysis_prompt lead offer) in
  let timeout := ai_timeout * SmartRateLimiter.second in
  let call :=
    AIService._analyze_with_provider json_loads ai_timeout provider client lead offer w in
  (~ supported provider -> call = (Raise "AIServiceException", w))
  /\ (supported provider -> timeout <= latency response ->
      call = (Raise "AIServiceException", later w timeout))
  /\ (supported provider -> latency response < timeout -> text response = None ->
      call = (Raise "AIServiceException", later w (latency response))).
Proof.
  cbv zeta. split; [|split].
  - apply analyze_with_provider_unsupported.
  - apply analyze_with_provider_timeout.
  - apply analyze_with_provider_no_text.
Qed.

Example analyze_with_provider_failure_cases :
  AIService._analyze_with_provider Json.loads 15 "claude" slow_client
    sample_lead sample_offer fresh_world
  = (Raise "AIServiceException", fresh_world)
  /\ AIService._analyze_with_provider Json.loads 15 "gemini" slow_client
       sample_lead sample_offer fresh_world
     = (Raise "AIServiceException", later fresh_world 15000000)
  /\ AIService._analyze_with_provider Json.loads 15 "openai" failing_client
       sample_lead sample_offer fresh_world
     = (Raise "AIServiceException", later fresh_world 100000).
Proof. repeat split; vm_compute; reflexivity. Qed.

(** X16. What a provider call that succeeds does. When gemini or openai
    replies before the timeout, [_analyze_with_provider] returns the
    parse of the trimmed reply, the clock has advanced by the latency,
    the rate windows are as before, and on a tracker that holds counters
    exactly one call of that provider is logged, with the length of the
    prompt plus the length of the trimmed reply as its tokens. For openai
    the two lengths are taken to fit a float, as the length of every
    string an interpreter holds does, and the estimated cost grows by the
    float [len(prompt) * 0.00000015 + len(content) * 0.0000006], each
    operation rounding. *)
Theorem analyze_with_provider_success (json_loads : string -> option json)
    (ai_timeout : Z) (provider : string) (client : Client)
    (lead : LeadModel) (offer : OfferModel) (w : World)
    (reply : string) (s : Stats) :
  loggable provider
    (Z.of_nat (String.length (AIService._build_analysis_prompt lead offer)))
    (Z.of_nat (String.length (PyStr.strip reply))) ->
  latency (client (AIService._build_analysis_prompt lead offer))
  < ai_timeout * SmartRateLimiter.second ->
  text (client (AIService._build_analysis_prompt lead offer)) = Some reply ->
  represents (tracker w) s ->
  exists t',
    AIService._analyze_with_provider json_loads ai_timeout provider client lead offer w
    = (Return (AIService._parse_ai_response json_loads (PyStr.strip reply)),
       {| clock := clock w
                   + Z.max 0 (latency (client (AIService._build_analysis_prompt
                                                 lead offer)));
          limiter := limiter w; tracker := t' |})
    /\ represents t'
         (count_usage provider
            (Z.of_nat (String.length (AIService._build_analysis_prompt lead offer)))
            (Z.of_nat (String.length (PyStr.strip reply))) s).
Proof. apply analyze_with_provider_reply. Qed.

Lemma analyze_with_provider_success_witness :
  exists t',
    AIService._analyze_with_provider Json.loads 15 "openai"
      (replying_client "  High. Strong buying signals ")
      sample_lead sample_offer fresh_world
    = (Return ("high", JStr "High"),
       {| clock := 500000; limiter := SmartRateLimiter.init; tracker := t' |})
    /\ represents t'
         {| gemini_calls := 0; gemini_tokens := 0; openai_calls := 1;
            openai_tokens := 253 + 27;
            openai_cost := SpecFloat.S754_finite false 7991129532730978 (-67);
            failure_total := 0 |}.
Proof.
  apply (analyze_with_provider_success Json.loads 15 "openai"
           (replying_client "  High. Strong buying signals ")
           sample_lead sample_offer fresh_world
           "  High. Strong buying signals " no_usage).
  - right. repeat split; reflexivity.
  - reflexivity.
  - reflexivity.
  - apply initial_represents.
Defined.

(** ** The prompt *)

Lemma take_all (n : nat) (s : string) :
  (String.length s <= n)%nat -> PyStr.take n s = s.
Proof.
  revert n. induction s as [|c s IH]; intros [|n] H; simpl in *;
    try reflexivity; try lia.
  rewrite IH by lia. reflexivity.
Qed.

Lemma take_length (n : nat) (s : string) :
  String.length (PyStr.take n s) = Nat.min n (String.length s).
Proof.
  revert n. induction s as [|c s IH]; intros [|n]; simpl; try reflexivity.
  now rewrite IH.
Qed.

Lemma append_length (a b : string) :
  String.length (a +:+ b) = (String.length a + String.length b)%nat.
Proof. induction a as [|c a IH]; simpl; [reflexivity | now rewrite IH]. Qed.

Lemma bio_truncated (bio : string) :
  (if Nat.ltb 200 (String.length bio) then PyStr.take 200 bio else bio)
  = PyStr.take 200 bio.
Proof.
  destruct (Nat.ltb_spec 200 (String.length bio)); [reflexivity|].
  symmetry. apply take_all. lia.
Qed.

(** X17. The prompt is a function of the lead's name, role, company and
    industry, of the first 200 characters of its bio, of the offer's name
    and of the offer's first two use cases: location, value propositions,
    further use cases and the rest of the bio never reach a provider. *)
Theorem build_analysis_prompt_uses (lead lead' : LeadModel)
    (offer offer' : OfferModel) :
  lead_name lead = lead_name lead' ->
  lead_role lead = lead_role lead' ->
  lead_company lead = lead_company lead' ->
  lead_industry lead = lead_industry lead' ->
  PyStr.take 200 (lead_linkedin_bio lead) = PyStr.take 200 (lead_linkedin_bio lead') ->
  offer_name offer = offer_name offer' ->
  firstn 2 (offer_ideal_use_cases offer) = firstn 2 (offer_ideal_use_cases offer') ->
  AIService._build_analysis_prompt lead offer
  = AIService._build_analysis_prompt lead' offer'.
Proof.
  intros Hn Hr Hc Hi Hb Ho Hu. unfold AIService._build_analysis_prompt.
  cbv zeta. rewrite !bio_truncated, Hn, Hr, Hc, Hi, Hb, Ho, Hu. reflexivity.
Qed.

Lemma build_analysis_prompt_uses_witness :
  AIService._build_analysis_prompt sample_lead sample_offer
  = AIService._build_analysis_prompt sample_lead_moved sample_offer_extended.
Proof.
  apply (build_analysis_prompt_uses sample_lead sample_lead_moved
           sample_offer sample_offer_extended); reflexivity.
Defined.

(** X18. The length of the prompt is 172 characters of fixed text plus the
    lengths of the offer's name, of its first two use cases joined by a
    comma and a space, of the lead's name, role, company and industry,
    and of the bio counted up to 200 characters. *)
Theorem build_analysis_prompt_length (lead : LeadModel) (offer : OfferModel) :
  String.length (AIService._build_analysis_prompt lead offer)
  = (172 + String.length (offer_name offer)
     + String.length (PyStr.join ", " (firstn 2 (offer_ideal_use_cases offer)))
     + String.length (lead_name lead) + String.length (lead_role lead)
     + String.length (lead_company lead) + String.length (lead_industry lead)
     + Nat.min 200 (String.length (lead_linkedin_bio lead)))%nat.
Proof.
  unfold AIService._build_analysis_prompt. cbv zeta.
  rewrite bio_truncated, !append_length, take_length.
  unfold newline, quote. cbn [String.length]. lia.
Qed.

(** ** The reasoning taken from a plain-text reply *)

Lemma lstrip_suffix (s : string) : exists pre, s = pre +:+ PyStr.lstrip s.
Proof.
  induction s as [|c s [pre IH]]; simpl; [now exists ""|].
  destruct (PyStr.isspace c); [|now exists ""].
  exists (String c pre). simpl. now rewrite <- IH.
Qed.

Lemma rstrip_prefix (s : string) : exists suf, s = PyStr.rstrip s +:+ suf.
Proof.
  induction s as [|c s [suf IH]]; simpl; [now exists ""|].
  destruct (PyStr.rstrip s) as [|d r] eqn:E.
  - destruct (PyStr.isspace c).
    + exists (String c s). reflexivity.
    + exists suf. simpl. now rewrite IH at 1.
  - exists suf. simpl. now rewrite IH at 1.
Qed.

Lemma Substring_trans (a b c : string) :
  Substring a b -> Substring b c -> Substring a c.
Proof.
  intros Hab (p & q & ->). now apply Substring_within.
Qed.

Lemma strip_Substring (s : string) : Substring (PyStr.strip s) s.
Proof.
  unfold PyStr.strip.
  destruct (lstrip_suffix s) as [pre Hpre].
  destruct (rstrip_prefix (PyStr.lstrip s)) as [suf Hsuf].
  exists pre, suf. now rewrite <- Hsuf.
Qed.

Lemma before_char_prefix (sep : ascii) (s : string) :
  exists suf, s = before_char sep s +:+ suf.
Proof.
  induction s as [|c s [suf IH]]; simpl; [now exists ""|].
  destruct (Ascii.eqb c sep); [now exists (String c s)|].
  exists suf. simpl. now rewrite <- IH.
Qed.

Lemma before_char_free (sep : ascii) (s : string) :
  PyStr.contains (String sep "") (before_char sep s) = false.
Proof.
  induction s as [|c s IH]; simpl; [reflexivity|].
  destruct (Ascii.eqb_spec c sep) as [->|Hne]; [reflexivity|].
  rewrite contains_unfold. simpl.
  destruct (Ascii.eqb_spec sep c) as [->|_]; [contradiction | exact IH].
Qed.

Lemma contains_false_Substring (sub a b : string) :
  PyStr.contains sub b = false -> Substring a b -> PyStr.contains sub a = false.
Proof.
  intros Hb Hab. destruct (PyStr.contains sub a) eqn:E; [|reflexivity].
  apply contains_spec in E.
  assert (H : PyStr.contains sub b = true)
    by (apply contains_spec; eapply Substring_trans; eauto).
  congruence.
Qed.

Lemma lstrip_head_ok (s : string) : head_ok (PyStr.lstrip s).
Proof.
  induction s as [|c s IH]; simpl; [exact I|].
  destruct (PyStr.isspace c) eqn:E; [exact IH | exact E].
Qed.

Lemma lstrip_id (s : string) : head_ok s -> PyStr.lstrip s = s.
Proof. destruct s as [|c s]; simpl; [reflexivity | now intros ->]. Qed.

Lemma rstrip_head_ok (s : string) : head_ok s -> head_ok (PyStr.rstrip s).
Proof.
  destruct s as [|c s]; simpl; [auto|]. intros H.
  destruct (PyStr.rstrip s); [rewrite H|]; exact H.
Qed.

Lemma rstrip_idem (s : string) : PyStr.rstrip (PyStr.rstrip s) = PyStr.rstrip s.
Proof.
  induction s as [|c s IH]; simpl; [reflexivity|].
  destruct (PyStr.rstrip s) as [|d r] eqn:E.
  - destruct (PyStr.isspace c) eqn:Ec; simpl; [reflexivity | now rewrite Ec].
  - simpl in *. now rewrite IH.
Qed.

Lemma strip_idem (s : string) : PyStr.strip (PyStr.strip s) = PyStr.strip s.
Proof.
  unfold PyStr.strip.
  rewrite (lstrip_id (PyStr.rstrip (PyStr.lstrip s)))
    by apply rstrip_head_ok, lstrip_head_ok.
  apply rstrip_idem.
Qed.

(** X19. The reasoning [_parse_text_response] takes from a reply is a
    piece of the reply itself that contains no period and has no blank at
    either end. *)
Theorem parse_text_response_reasoning (content : string) :
  exists intent reasoning,
    AIService._parse_text_response content = (intent, JStr reasoning)
    /\ Substring reasoning content
    /\ PyStr.contains "." reasoning = false
    /\ PyStr.strip reasoning = reasoning.
Proof.
  destruct (parse_text_response_spec content) as (intent & E & _).
  exists intent, (PyStr.strip (before_char "." content)).
  split; [exact E|].
  assert (Hsub : Substring (before_char "." content) content).
  { destruct (before_char_prefix "." content) as [suf H].
    exists "", suf. exact H. }
  split; [eapply Substring_trans; [apply strip_Substring | exact Hsub]|].
  split; [|apply strip_idem].
  eapply contains_false_Substring; [apply before_char_free | apply strip_Substring].
Qed.

(** ** The rate limiter *)

(** X20. Providers do not interfere. A call for one provider leaves the
    window of every other provider as it was, and whether and how long it
    sleeps depends on nothing but the window of its own provider. *)
Theorem check_rate_limit_independent (provider : string) (now : Z)
    (table : gmap string (list Z)) :
  (forall other, other <> provider ->
     snd (SmartRateLimiter.check_rate_limit provider now table) !! other
     = table !! other)
  /\ (forall table' : gmap string (list Z),
        table' !! provider = table !! provider ->
        fst (SmartRateLimiter.check_rate_limit provider now table')
        = fst (SmartRateLimiter.check_rate_limit provider now table)
        /\ snd (SmartRateLimiter.check_rate_limit provider now table') !! provider
           = snd (SmartRateLimiter.check_rate_limit provider now table) !! provider).
Proof.
  split.
  - intros other Hne. unfold SmartRateLimiter.check_rate_limit.
    destruct (table !! provider) as [calls|]; [|reflexivity].
    destruct (_ >=? _); [destruct (SmartRateLimiter.recent now calls)|];
      cbn [snd]; now rewrite ?lookup_insert_ne by congruence.
  - intros table' H. unfold SmartRateLimiter.check_rate_limit. rewrite H.
    destruct (table !! provider) as [calls|] eqn:E;
      [|split; [reflexivity | cbn [snd]; congruence]].
    destruct (_ >=? _); [destruct (SmartRateLimiter.recent now calls)|];
      cbn [fst snd]; split; try reflexivity; now rewrite !lookup_insert_eq.
Qed.

Lemma check_rate_limit_cases (provider : string) (now : Z)
    (table : gmap string (list Z)) :
  match table !! provider with
  | None =>
      SmartRateLimiter.check_rate_limit provider now table = (Raise "KeyError", table)
  | Some calls =>
      exists sleep_time,
        SmartRateLimiter.check_rate_limit provider now table
        = (Return sleep_time,
           <[provider := (SmartRateLimiter.recent now calls ++ [now])%list]> table)
        /\ (sleep_time = None
            <-> Z.of_nat (length (SmartRateLimiter.recent now calls))
                < SmartRateLimiter.max_calls provider)
  end.
Proof.
  unfold SmartRateLimiter.check_rate_limit.
  destruct (table !! provider) as [calls|]; [|reflexivity].
  destruct (Z.geb_spec (Z.of_nat (length (SmartRateLimiter.recent now calls)))
              (SmartRateLimiter.max_calls provider)) as [Hfull|Hroom].
  - destruct (SmartRateLimiter.recent now calls) as [|oldest rest] eqn:E.
    + exfalso. unfold SmartRateLimiter.max_calls in Hfull. simpl in Hfull.
      destruct (String.eqb provider "gemini"); lia.
    + eexists. split; [now rewrite insert_insert_eq|].
      split; [discriminate | lia].
  - eexists. split; [now rewrite insert_insert_eq|]. split; [lia | reflexivity].
Qed.

(** X21. The only way [check_rate_limit] raises is [KeyError], for a
    provider without a window; a full window has an oldest entry, so the
    subscript never fails. For a provider with a window the call returns,
    the window becomes the entries younger than a minute followed by the
    instant of the call, and the call sleeps exactly when those younger
    entries already number the provider's ceiling or more. *)
Theorem check_rate_limit_outcome (provider : string) (now : Z)
    (table : gmap string (list Z)) :
  match table !! provider with
  | None =>
      SmartRateLimiter.check_rate_limit provider now table = (Raise "KeyError", table)
  | Some calls =>
      exists sleep_time,
        SmartRateLimiter.check_rate_limit provider now table
        = (Return sleep_time,
           <[provider := (SmartRateLimiter.recent now calls ++ [now])%list]> table)
        /\ (sleep_time = None
            <-> Z.of_nat (length (SmartRateLimiter.recent now calls))
                < SmartRateLimiter.max_calls provider)
  end.
Proof. apply check_rate_limit_cases. Qed.

(** X22. With a clock that has not run backwards, a call that finds its
    window full sleeps between 1 and 60 seconds, and when it wakes up the
    oldest entry it found is at least a minute old. *)
Theorem check_rate_limit_sleep (provider : string) (now : Z)
    (table table' : gmap string (list Z)) (calls : list Z) (sleep_time : Z) :
  table !! provider = Some calls ->
  Forall (fun call_time => call_time <= now) calls ->
  SmartRateLimiter.check_rate_limit provider now table
  = (Return (Some sleep_time), table') ->
  1 <= sleep_time <= 60
  /\ exists oldest rest,
       SmartRateLimiter.recent now calls = oldest :: rest
       /\ SmartRateLimiter.window
          <= now + SmartRateLimiter.slept (Some sleep_time) - oldest.
Proof.
  intros Ht Hpast. unfold SmartRateLimiter.check_rate_limit. rewrite Ht.
  destruct (_ >=? _); [|discriminate].
  destruct (SmartRateLimiter.recent now calls) as [|oldest rest] eqn:E;
    [discriminate|].
  intros [= <- _].
  assert (Hin : oldest ∈ SmartRateLimiter.recent now calls) by (rewrite E; left).
  unfold SmartRateLimiter.recent in Hin. apply list_elem_of_filter in Hin as [Hw Hc].
  rewrite Forall_forall in Hpast. specialize (Hpast _ Hc).
  unfold SmartRateLimiter.timedelta_seconds, SmartRateLimiter.slept,
    SmartRateLimiter.window, SmartRateLimiter.second in *.
  pose proof (Z.div_mod (now - oldest) 1000000 ltac:(lia)).
  pose proof (Z.mod_pos_bound (now - oldest) 1000000 ltac:(lia)).
  assert (0 <= (now - oldest) `div` 1000000 < 60)
    by (split; [apply Z.div_pos; lia | apply Z.div_lt_upper_bound; lia]).
  rewrite (Z.mod_small ((now - oldest) `div` 1000000) 86400) by lia.
  split; [lia|]. exists oldest, rest. split; [reflexivity | lia].
Qed.

Lemma check_rate_limit_sleep_witness :
  1 <= 30 <= 60
  /\ exists oldest rest,
       SmartRateLimiter.recent 30000000 (repeat 0 10) = oldest :: rest
       /\ SmartRateLimiter.window
          <= 30000000 + SmartRateLimiter.slept (Some 30) - oldest.
Proof.
  apply (check_rate_limit_sleep "gemini" 30000000
           (<["gemini" := repeat 0 10]> SmartRateLimiter.init)
           (<["gemini" := (repeat 0 10 ++ [30000000])%list]> SmartRateLimiter.init)
           (repeat 0 10) 30).
  - reflexivity.
  - repeat constructor; lia.
  - vm_compute. reflexivity.
Defined.

Lemma recent_idem (now : Z) (calls : list Z) :
  SmartRateLimiter.recent now (SmartRateLimiter.recent now calls)
  = SmartRateLimiter.recent now calls.
Proof.
  unfold SmartRateLimiter.recent. induction calls as [|c calls IH]; [reflexivity|].
  rewrite filter_cons. destruct (decide (now - c < SmartRateLimiter.window)).
  - rewrite filter_cons_True by assumption. now rewrite IH.
  - exact IH.
Qed.

Lemma recent_after_call (now : Z) (calls : list Z) :
  SmartRateLimiter.recent now (SmartRateLimiter.recent now calls ++ [now])
  = (SmartRateLimiter.recent now calls ++ [now])%list.
Proof.
  unfold SmartRateLimiter.recent at 1. rewrite filter_app.
  fold (SmartRateLimiter.recent now (SmartRateLimiter.recent now calls)).
  rewrite recent_idem. f_equal.
  rewrite filter_cons_True; [reflexivity|].
  unfold SmartRateLimiter.window, SmartRateLimiter.second. lia.
Qed.

Lemma max_calls_positive (provider : string) :
  10 <= SmartRateLimiter.max_calls provider.
Proof.
  unfold SmartRateLimiter.max_calls. destruct (String.eqb provider "gemini"); lia.
Qed.

(** X23. [get_remaining_calls] raises [KeyError] for a provider without a
    window and otherwise reports a number between 0 and the provider's
    ceiling. It reports 0 exactly when a call at that instant would sleep,
    and when it reports more, a call at that instant lowers it by one.
    After [reset_provider] it reports the full ceiling. *)
Theorem get_remaining_calls_meaning (provider : string) (now : Z)
    (table : gmap string (list Z)) :
  match table !! provider with
  | None => SmartRateLimiter.get_remaining_calls provider now table = Raise "KeyError"
  | Some calls =>
      exists remaining,
        SmartRateLimiter.get_remaining_calls provider now table = Return remaining
        /\ 0 <= remaining <= SmartRateLimiter.max_calls provider
        /\ (remaining = 0
            <-> exists sleep_time,
                  fst (SmartRateLimiter.check_rate_limit provider now table)
                  = Return (Some sleep_time))
        /\ (0 < remaining ->
            SmartRateLimiter.get_remaining_calls provider now
              (snd (SmartRateLimiter.check_rate_limit provider now table))
            = Return (remaining - 1))
  end
  /\ SmartRateLimiter.get_remaining_calls provider now
       (SmartRateLimiter.reset_provider provider table)
     = Return (SmartRateLimiter.max_calls provider).
Proof.
  pose proof (max_calls_positive provider) as Hmax.
  split.
  - pose proof (check_rate_limit_cases provider now table) as Hcheck.
    unfold SmartRateLimiter.get_remaining_calls.
    destruct (table !! provider) as [calls|]; [|reflexivity].
    destruct Hcheck as (sleep_time & E & Hsleep).
    eexists. split; [reflexivity|]. rewrite E. cbn [fst snd].
    split; [lia|]. split; [split|].
    + intros H0. destruct sleep_time as [d|]; [eauto|].
      destruct Hsleep as [Hs _]. specialize (Hs eq_refl). lia.
    + intros [d [= ->]]. destruct Hsleep as [_ Hs].
      destruct (Z.max_spec 0 (SmartRateLimiter.max_calls provider
                              - Z.of_nat (length (SmartRateLimiter.recent now calls))))
        as [[Hlt _]|[_ ->]]; [|reflexivity].
      assert (@None Z = Some d) by (symmetry; apply Hs; lia). discriminate.
    + intros Hpos. rewrite lookup_insert_eq, recent_after_call, length_app.
      simpl. f_equal. lia.
  - unfold SmartRateLimiter.get_remaining_calls, SmartRateLimiter.reset_provider.
    rewrite lookup_insert_eq. simpl. f_equal. lia.
Qed.

(** ** Validated leads and offers *)

Lemma length_within_spec (lo hi : nat) (s : string) :
  length_within lo hi s = true
  <-> (lo <= String.length s)%nat /\ (String.length s <= hi)%nat.
Proof.
  unfold length_within. rewrite andb_true_iff, !Nat.leb_le. reflexivity.
Qed.

Lemma LeadModel_validate_inv name role company industry location bio lead :
  LeadModel_validate name role company industry location bio = Return lead ->
  lead = {| lead_name := PyStr.strip name; lead_role := PyStr.strip role;
            lead_company := PyStr.strip company;
            lead_industry := PyStr.strip industry;
            lead_location := PyStr.strip location;
            lead_linkedin_bio := PyStr.strip bio |}
  /\ (1 <= String.length (lead_name lead) <= 100)%nat
  /\ (1 <= String.length (lead_role lead) <= 100)%nat
  /\ (1 <= String.length (lead_company lead) <= 100)%nat
  /\ (1 <= String.length (lead_industry lead) <= 100)%nat
  /\ (1 <= String.length (lead_location lead) <= 100)%nat
  /\ (String.length (lead_linkedin_bio lead) <= 1000)%nat.
Proof.
  unfold LeadModel_validate. cbv zeta.
  destruct (_ && _) eqn:E; [|discriminate].
  intros [= <-]. cbn [lead_name lead_role lead_company lead_industry
                      lead_location lead_linkedin_bio].
  rewrite !andb_true_iff, !length_within_spec in E. intuition.
Qed.

(** X24. A lead that passes validation has every field trimmed, a name,
    role, company, industry and location of 1 to 100 characters and a bio
    of at most 1000; each field is the trimmed input, and validating the
    fields of a validated lead again gives the same lead. *)
Theorem LeadModel_validate_sound
    (name role company industry location linkedin_bio : string)
    (lead : LeadModel) :
  LeadModel_validate name role company industry location linkedin_bio
  = Return lead ->
  required_fields lead
  = map PyStr.strip [name; role; company; industry; location; linkedin_bio]
  /\ Forall (fun field => PyStr.strip field = field) (required_fields lead)
  /\ Forall (fun field => (1 <= String.length field <= 100)%nat)
            [lead_name lead; lead_role lead; lead_company lead;
             lead_industry lead; lead_location lead]
  /\ (String.length (lead_linkedin_bio lead) <= 1000)%nat
  /\ LeadModel_validate (lead_name lead) (lead_role lead) (lead_company lead)
       (lead_industry lead) (lead_location lead) (lead_linkedin_bio lead)
     = Return lead.
Proof.
  intros H. pose proof H as Hv.
  apply LeadModel_validate_inv in H as (-> & Hn & Hr & Hc & Hi & Hl & Hb).
  cbn [lead_name lead_role lead_company lead_industry lead_location
       lead_linkedin_bio required_fields] in *.
  split; [reflexivity|].
  split; [repeat (apply Forall_cons; split; [apply strip_idem|]); apply Forall_nil_2|].
  split; [repeat (apply Forall_cons; split; [lia|]); apply Forall_nil_2|].
  split; [exact Hb|].
  unfold LeadModel_validate in *. cbv zeta in *. rewrite !strip_idem.
  exact Hv.
Qed.

Lemma LeadModel_validate_sound_witness :
  required_fields sample_lead
  = map PyStr.strip
      [" Test Lead"; "CEO "; "TestCorp"; "software"; "  SF  ";
       "Test bio for analysis"]
  /\ Forall (fun field => PyStr.strip field = field) (required_fields sample_lead)
  /\ Forall (fun field => (1 <= String.length field <= 100)%nat)
            [lead_name sample_lead; lead_role sample_lead; lead_company sample_lead;
             lead_industry sample_lead; lead_location sample_lead]
  /\ (String.length (lead_linkedin_bio sample_lead) <= 1000)%nat
  /\ LeadModel_validate (lead_name sample_lead) (lead_role sample_lead)
       (lead_company sample_lead) (lead_industry sample_lead)
       (lead_location sample_lead) (lead_linkedin_bio sample_lead)
     = Return sample_lead.
Proof.
  apply (LeadModel_validate_sound " Test Lead" "CEO " "TestCorp" "software"
           "  SF  " "Test bio for analysis" sample_lead).
  reflexivity.
Defined.

Lemma filled_field (field : string) :
  PyStr.strip field = field -> (1 <= String.length field)%nat ->
  PyStr.truthy field && PyStr.truthy (PyStr.strip field) = true.
Proof.
  intros -> H. destruct field; simpl in *; [lia | reflexivity].
Qed.

(** X25. For a lead that passed validation the completeness component
    depends on the bio alone: it is 10 when the bio is not empty and 0
    when it is, the other five fields being non-blank by validation. *)
Theorem validated_lead_completeness
    (name role company industry location linkedin_bio : string)
    (lead : LeadModel) :
  LeadModel_validate name role company industry location linkedin_bio
  = Return lead ->
  ScoringEngine._score_completeness lead
  = if String.eqb (lead_linkedin_bio lead) "" then 0 else 10.
Proof.
  intros H. apply LeadModel_validate_inv in H as (-> & Hn & Hr & Hc & Hi & Hl & Hb).
  cbn [lead_name lead_role lead_company lead_industry lead_location
       lead_linkedin_bio] in *.
  unfold ScoringEngine._score_completeness.
  cbn [lead_name lead_role lead_company lead_industry lead_location
       lead_linkedin_bio forallb].
  rewrite !filled_field by (first [apply strip_idem | lia]).
  rewrite strip_idem. destruct (PyStr.strip linkedin_bio); reflexivity.
Qed.

Lemma validated_lead_completeness_witness :
  LeadModel_validate "Ava Patel" "Head of Growth " "FlowMetrics" "software"
    "San Francisco" "   "
  = Return lead_without_bio
  /\ ScoringEngine._score_completeness lead_without_bio
     = if String.eqb (lead_linkedin_bio lead_without_bio) "" then 0 else 10.
Proof.
  split; [reflexivity|].
  apply (validated_lead_completeness "Ava Patel" "Head of Growth " "FlowMetrics"
           "software" "San Francisco" "   ").
  reflexivity.
Defined.

Lemma clean_lists_items (v : list string) (item : string) :
  In item (clean_lists v) ->
  (exists raw, In raw v /\ item = PyStr.strip raw)
  /\ item <> "" /\ PyStr.strip item = item.
Proof.
  unfold clean_lists. rewrite in_map_iff. intros (raw & <- & Hraw).
  apply filter_In in Hraw as [Hin Hok].
  apply field_filled_spec in Hok. unfold blank in Hok.
  split; [eauto|]. split; [exact Hok | apply strip_idem].
Qed.

Lemma items_within_spec (lo hi : nat) {A} (l : list A) :
  items_within lo hi l = true <-> (lo <= length l <= hi)%nat.
Proof.
  unfold items_within. rewrite andb_true_iff, !Nat.leb_le. reflexivity.
Qed.

(** X26. An offer that passes validation keeps its name as given, of 1 to
    200 characters, and holds between 1 and 10 value propositions and
    between 1 and 10 use cases; these are the non-blank items of the
    input, trimmed and in the order given, so none of them is empty or
    has a blank at either end. *)
Theorem OfferModel_validate_sound (name : string)
    (value_props ideal_use_cases : list string) (offer : OfferModel) :
  OfferModel_validate name value_props ideal_use_cases = Return offer ->
  offer_name offer = name
  /\ (1 <= String.length name <= 200)%nat
  /\ offer_value_props offer = clean_lists value_props
  /\ offer_ideal_use_cases offer = clean_lists ideal_use_cases
  /\ (1 <= length (offer_value_props offer) <= 10)%nat
  /\ (1 <= length (offer_ideal_use_cases offer) <= 10)%nat
  /\ forall item,
       In item (offer_value_props offer) \/ In item (offer_ideal_use_cases offer) ->
       item <> "" /\ PyStr.strip item = item.
Proof.
  unfold OfferModel_validate. cbv zeta.
  destruct (_ && _) eqn:E; [|discriminate].
  intros [= <-]. cbn [offer_name offer_value_props offer_ideal_use_cases].
  rewrite !andb_true_iff, length_within_spec, !items_within_spec in E.
  destruct E as [[Hn Hv] Hu].
  do 6 (split; [first [reflexivity | lia]|]).
  intros item [H|H]; apply clean_lists_items in H; tauto.
Qed.

Lemma OfferModel_validate_sound_witness :
  offer_name sample_offer = "Test Product"
  /\ (1 <= String.length "Test Product" <= 200)%nat
  /\ offer_value_props sample_offer = clean_lists [" value1"; ""; "value2 "]
  /\ offer_ideal_use_cases sample_offer
     = clean_lists ["software"; "   "; " technology "]
  /\ (1 <= length (offer_value_props sample_offer) <= 10)%nat
  /\ (1 <= length (offer_ideal_use_cases sample_offer) <= 10)%nat
  /\ forall item,
       In item (offer_value_props sample_offer)
       \/ In item (offer_ideal_use_cases sample_offer) ->
       item <> "" /\ PyStr.strip item = item.
Proof.
  apply (OfferModel_validate_sound "Test Product" [" value1"; ""; "value2 "]
           ["software"; "   "; " technology "] sample_offer).
  reflexivity.
Defined.

(** ** The scoring endpoints *)

Section EndpointFacts.
Variable repr_other : json -> string.
Variable ai : option Analyzer.

Lemma scored_or_not (offer : OfferModel) (leads : list LeadModel) :
  (exists rs, Forall2 (scored repr_other ai offer) leads rs)
  \/ (exists lead, In lead leads /\ unscorable repr_other ai offer lead).
Proof.
  induction leads as [|lead leads [[rs IH]|(l & Hin & Hbad)]].
  - left. exists []. constructor.
  - destruct (ScoringEngine.score_single_lead repr_other ai lead offer)
      as [r|e] eqn:E.
    + left. exists (r :: rs). now constructor.
    + right. exists lead. split; [now left | now exists e].
  - right. exists l. split; [now right | exact Hbad].
Qed.



End EndpointFacts.

(** X27. What [POST /score] answers. Without a stored offer, and with an
    offer but no stored leads, it answers 400 and changes nothing. With
    both, it answers 200 with the number of leads when every lead can be
    scored, and then stores one result per lead in the order of the
    leads; it answers 500 and leaves the stored results as they were when
    the scoring of some lead raises. With no service or with the analysis
    service every lead can be scored. *)
Theorem score_endpoint_outcome (repr_other : json -> string)
    (ai : option Analyzer) (orders : nat -> list nat) (st : Storage) :
  match _offer st, _leads st with
  | None, _ =>
      Routers.score_leads repr_other ai orders st
      = (HTTPException 400
           "No offer found. Please upload an offer first using POST /api/v1/offer",
         st)
  | Some _, [] =>
      Routers.score_leads repr_other ai orders st
      = (HTTPException 400
           "No leads found. Please upload leads first using POST /api/v1/leads/upload",
         st)
  | Some offer, leads =>
      (forall results,
         Forall2 (scored repr_other ai offer) leads results ->
         Routers.score_leads repr_other ai orders st
         = (Body {| sd_message := "Scoring completed successfully";
                    sd_leads_scored := length leads;
                    sd_offer_name := offer_name offer |},
            {| _offer := Some offer; _leads := leads; _results := results |}))
      /\ (forall lead,
            In lead leads -> unscorable repr_other ai offer lead ->
            exists detail,
              Routers.score_leads repr_other ai orders st
              = (HTTPException 500 detail, st))
      /\ (forall json_loads ai_timeout wiring,
            ai = wired json_loads ai_timeout wiring ->
            exists results, Forall2 (scored repr_other ai offer) leads results)
  end.
Proof.
  unfold Routers.score_leads, StorageService.get_offer, StorageService.get_leads.
  destruct st as [[offer|] [|lead leads] results0]; cbn [_offer _leads];
    try reflexivity.
  split; [|split].
  - intros results Hrs.
    rewrite (score_leads_in_order _ _ _ _ _ orders Hrs).
    unfold StorageService.set_results. cbn [_offer _leads _results].
    now rewrite (Forall2_length _ _ _ Hrs).
  - intros l Hin Hbad.
    destruct (score_leads_raises repr_other ai offer (lead :: leads) orders l Hin Hbad)
      as [e ->].
    eauto.
  - intros json_loads ai_timeout wiring ->.
    destruct (scored_or_not repr_other (wired json_loads ai_timeout wiring) offer
                (lead :: leads)) as [H|(l & _ & e & He)]; [exact H|].
    destruct (wired_score_single_lead_returns repr_other json_loads ai_timeout
                wiring l offer) as [r Hr].
    congruence.
Qed.





Example stored_results_after_upload :
  let served :=
    Routers.serve (fun _ => "")
      [Routers.PostOffer sample_offer;
       Routers.PostLeads "leads.csv" (Return [sample_lead; lead_without_bio]);
       Routers.PostScore None (fun _ => [1%nat; 0%nat]);
       Routers.PostLeads "more.csv" (Return [lead_without_bio])]
      StorageService.initial in
  _leads served = [lead_without_bio] /\ Routers.get_results served = [].
Proof. vm_compute. split; reflexivity. Qed.

(** ** One task and its window *)

Lemma recent_past (now later : Z) (calls : list Z) :
  now <= later -> Forall (fun t => t <= now) calls ->
  Forall (fun t => t <= later) (SmartRateLimiter.recent later calls).
Proof.
  intros Hle Hpast. apply Forall_forall. intros t Ht.
  unfold SmartRateLimiter.recent in Ht. apply list_elem_of_filter in Ht as [_ Ht].
  rewrite Forall_forall in Hpast. specialize (Hpast t Ht). lia.
Qed.

Lemma recent_length (now : Z) (calls : list Z) :
  (length (SmartRateLimiter.recent now calls) <= length calls)%nat.
Proof. apply length_filter. Qed.

Lemma recent_drops_expired (now oldest : Z) (rest : list Z) :
  SmartRateLimiter.window <= now - oldest ->
  SmartRateLimiter.recent now (oldest :: rest) = SmartRateLimiter.recent now rest.
Proof.
  intros H. unfold SmartRateLimiter.recent. apply filter_cons_False. lia.
Qed.

Lemma check_rate_limit_keeps_ok provider now gap table :
  window_ok provider now table ->
  exists sleep_time table',
    SmartRateLimiter.check_rate_limit provider (now + Z.max 0 gap) table
    = (Return sleep_time, table')
    /\ window_ok provider (now + Z.max 0 gap + SmartRateLimiter.slept sleep_time)
         table'.
Proof.
  intros (calls & Ht & Hpast & Hlen).
  set (entered := now + Z.max 0 gap).
  assert (Hent : now <= entered) by (unfold entered; lia).
  pose proof (max_calls_positive provider) as Hmax.
  pose proof (recent_past now entered calls Hent Hpast) as Hkept.
  assert (Hk : Z.of_nat (length (SmartRateLimiter.recent entered calls))
               <= SmartRateLimiter.max_calls provider).
  { destruct Hlen as [Hl|(oldest & rest & -> & Hl & Hw)].
    - pose proof (recent_length entered calls). lia.
    - rewrite recent_drops_expired by lia.
      pose proof (recent_length entered rest). lia. }
  unfold SmartRateLimiter.check_rate_limit. rewrite Ht.
  destruct (Z.geb_spec (Z.of_nat (length (SmartRateLimiter.recent entered calls)))
              (SmartRateLimiter.max_calls provider)) as [Hfull|Hroom].
  - destruct (SmartRateLimiter.recent entered calls) as [|oldest rest] eqn:E;
      [simpl in Hfull; lia|].
    do 2 eexists. split; [reflexivity|].
    assert (Hin : oldest ∈ SmartRateLimiter.recent entered calls)
      by (rewrite E; left).
    unfold SmartRateLimiter.recent in Hin.
    apply list_elem_of_filter in Hin as [Hw Hc].
    assert (Ho : oldest <= entered)
      by (rewrite Forall_forall in Hpast; specialize (Hpast _ Hc); lia).
    assert (Hwake : 0 <= SmartRateLimiter.slept
                           (Some (60 - SmartRateLimiter.timedelta_seconds
                                         (entered - oldest)))
                    /\ SmartRateLimiter.window
                       <= entered
                          + SmartRateLimiter.slept
                              (Some (60 - SmartRateLimiter.timedelta_seconds
                                            (entered - oldest)))
                          - oldest).
    { unfold SmartRateLimiter.timedelta_seconds, SmartRateLimiter.slept,
        SmartRateLimiter.window, SmartRateLimiter.second in *.
      pose proof (Z.div_mod (entered - oldest) 1000000 ltac:(lia)).
      pose proof (Z.mod_pos_bound (entered - oldest) 1000000 ltac:(lia)).
      assert (0 <= (entered - oldest) `div` 1000000 < 60)
        by (split; [apply Z.div_pos; lia | apply Z.div_lt_upper_bound; lia]).
      rewrite (Z.mod_small ((entered - oldest) `div` 1000000) 86400) by lia.
      lia. }
    destruct Hwake as [Hs Hwake].
    exists ((oldest :: rest) ++ [entered])%list.
    split; [now rewrite insert_insert_eq, lookup_insert_eq|]. split.
    + apply Forall_app. split.
      * eapply Forall_impl; [exact Hkept|]. intros t Ht'. simpl in Ht'. lia.
      * apply Forall_cons. split; [lia | apply Forall_nil_2].
    + right. exists oldest, (rest ++ [entered])%list.
      split; [reflexivity|]. split; [|exact Hwake].
      rewrite length_app. simpl in *. lia.
  - do 2 eexists. split; [reflexivity|].
    exists (SmartRateLimiter.recent entered calls ++ [entered])%list.
    split; [now rewrite insert_insert_eq, lookup_insert_eq|].
    unfold SmartRateLimiter.slept. rewrite Z.add_0_r. split.
    + apply Forall_app. split; [exact Hkept|].
      apply Forall_cons. split; [lia | apply Forall_nil_2].
    + left. rewrite length_app. simpl. lia.
Qed.

Lemma run_calls_keeps_ok provider gaps now table :
  window_ok provider now table ->
  window_ok provider (fst (run_calls provider gaps now table))
    (snd (run_calls provider gaps now table)).
Proof.
  revert now table. induction gaps as [|gap gaps IH]; intros now table Hok; simpl.
  - exact Hok.
  - destruct (check_rate_limit_keeps_ok provider now gap table Hok)
      as (sleep_time & table' & -> & Hok').
    now apply IH.
Qed.

(** X29. In the hands of one task, with a clock that does not run
    backwards, the window of a provider never outgrows its ceiling by more
    than one entry: starting from an empty window, after any number of
    calls with any pauses between them the window holds at most ceiling +
    1 timestamps, none of them from the future. *)
Theorem sequential_window_bounded (provider : string) (gaps : list Z) (now : Z)
    (table : gmap string (list Z)) :
  table !! provider = Some [] ->
  exists calls,
    snd (run_calls provider gaps now table) !! provider = Some calls
    /\ Z.of_nat (length calls) <= SmartRateLimiter.max_calls provider + 1
    /\ Forall (fun call_time => call_time <= fst (run_calls provider gaps now table))
              calls.
Proof.
  intros Ht.
  destruct (run_calls_keeps_ok provider gaps now table) as (calls & Hc & Hpast & Hlen).
  { exists []. split; [exact Ht|]. split; [apply Forall_nil_2|].
    left. pose proof (max_calls_positive provider). simpl. lia. }
  exists calls. split; [exact Hc|]. split; [|exact Hpast].
  destruct Hlen as [Hl|(oldest & rest & -> & Hl & _)]; [lia|]. simpl. lia.
Qed.

Lemma sequential_window_bounded_witness :
  exists calls,
    snd (run_calls "gemini" burst 0 SmartRateLimiter.init) !! "gemini"
    = Some calls
    /\ Z.of_nat (length calls) <= SmartRateLimiter.max_calls "gemini" + 1
    /\ Forall (fun call_time =>
                 call_time <= fst (run_calls "gemini" burst 0 SmartRateLimiter.init))
              calls.
Proof.
  apply (sequential_window_bounded "gemini" burst 0 SmartRateLimiter.init).
  reflexivity.
Defined.

(** ** The scores that can occur *)

(** X30. Every score is a multiple of ten between 10 and 100, for any
    injected analyzer: the components are 0, 10 or 20 for the role and for
    the industry, 0 or 10 for completeness and 10, 30 or 50 for the AI
    part. A score such as 85 is never produced. *)
Theorem score_is_multiple_of_ten (repr_other : json -> string)
    (ai : option Analyzer) (lead : LeadModel) (offer : OfferModel) :
  match ScoringEngine.score_single_lead repr_other ai lead offer with
  | Return r => exists k, res_score r = 10 * k /\ 1 <= k <= 10
  | Raise _ => True
  end.
Proof.
  destruct (ScoringEngine.score_single_lead repr_other ai lead offer) as [r|e] eqn:E;
    [|exact I].
  rewrite (score_single_lead_score _ _ _ _ _ E). unfold total_score.
  unfold ScoringEngine._calculate_rule_score, ScoringConstants.MAX_RULE_SCORE.
  cbn [fst].
  pose proof (score_role_values (lead_role lead)) as Hr.
  pose proof (score_industry_values (lead_industry lead) (offer_ideal_use_cases offer))
    as Hi.
  pose proof (score_completeness_values lead) as Hc.
  pose proof (ai_score_values ai lead offer) as Ha. cbv zeta in Ha.
  exists ((ScoringEngine._score_role (lead_role lead)
           + ScoringEngine._score_industry (lead_industry lead)
               (offer_ideal_use_cases offer)
           + ScoringEngine._score_completeness lead
           + fst (fst (ScoringEngine._calculate_ai_score ai lead offer))) / 10).
  destruct Hr as [-> | [-> | ->]], Hi as [-> | [-> | ->]], Hc as [-> | ->],
    Ha as [-> | [-> | ->]]; vm_compute; repeat split; discriminate.
Qed.
